(** * Gemini data-analysis MCP server: statistics, validation and dispatch

    A shallow embedding of the server module listed in [src/README.md] (the
    [CallToolRequestSchema] handler and the schemas it parses with) and of
    [src/src/types.ts], with the properties its specification states.

    JavaScript numbers are IEEE 754 binary64 values: they are modelled by
    Rocq's primitive floats, whose operations are the same binary64
    operations (round to nearest, ties to even).  JavaScript strings are
    sequences of UTF-16 code units: they are modelled by lists of code
    units.  A handler is a function from the state of the disk to what it
    throws or returns, the disk it leaves and the calls it made to the
    model and the mail transport; writes to the disk succeed, and the lines
    logged on the error stream are left out. *)

From Stdlib Require Import ZArith Lia ZifyNat Bool List Floats Ascii String.
From Stdlib Require Import DecimalString.
From Stdlib Require Import Sorting.Sorted Sorting.Permutation.
From stdpp Require Import gmap.
Import ListNotations.

(** ** JavaScript values

    A string is its sequence of UTF-16 code units, so that [length] is the
    [.length] of the source. *)

Abbreviation jsstring := (list N) (only parsing).

Definition js (s : string) : jsstring :=
  map N_of_ascii (list_ascii_of_string s).

Local Open Scope float_scope.

(** [values.length] as a number.  Array lengths are below [2^32], where the
    conversion is exact. *)
Definition float_of_nat (n : nat) : float :=
  of_uint63 (Uint63.of_Z (Z.of_nat n)).

Definition float_of_Z (z : Z) : float :=
  SF2Prim (binary_normalize prec emax z 0 false).

Definition isNaN (x : float) : bool := is_nan x.

Definition is_neg_zero (x : float) : bool := is_zero x && get_sign x.
Definition is_pos_zero (x : float) : bool := is_zero x && negb (get_sign x).

(** [Math.min(...args)]: NaN if any argument is, else the least argument
    starting from [+Infinity], with [-0] below [+0]. *)
Definition Math_min (args : list float) : float :=
  if existsb is_nan args then nan
  else fold_left (fun lowest number =>
                    if is_neg_zero number && is_pos_zero lowest then neg_zero
                    else if number <? lowest then number else lowest)
                 args infinity.

(** [Math.max(...args)], starting from [-Infinity], with [+0] above [-0]. *)
Definition Math_max (args : list float) : float :=
  if existsb is_nan args then nan
  else fold_left (fun highest number =>
                    if is_pos_zero number && is_neg_zero highest then PrimFloat.zero
                    else if highest <? number then number else highest)
                 args neg_infinity.

(** [Math.floor]: the greatest integer not above [x]; zeros, infinities and
    NaN are returned as they are. *)
Definition Math_floor (x : float) : float :=
  match Prim2SF x with
  | S754_finite s m e =>
      if (0 <=? e)%Z then x
      else
        let q := Z.shiftr (cond_Zopp s (Zpos m)) (- e) in
        if (q =? 0)%Z then PrimFloat.zero else float_of_Z q
  | _ => x
  end.

Definition Math_sqrt (x : float) : float := sqrt x.

(** [Math.pow(x, 2)], the only use of [Math.pow] in the source: the square,
    rounded once. *)
Definition Math_pow_2 (x : float) : float := x * x.

(** [arr[i]] for a number [i] computed by the source: [undefined] ([None])
    outside the array. *)
Definition aget {A} (arr : list A) (i : Z) : option A :=
  if (i <? 0)%Z then None else nth_error arr (Z.to_nat i).

(** [undefined] in arithmetic is NaN. *)
Definition ToNumber (v : option float) : float :=
  match v with Some x => x | None => nan end.

(** [[...values].sort(compareFn)]: the stable sort by [compareFn], where
    [compareFn(a, b) > 0] puts [a] after [b] and a NaN result counts as a
    tie. *)
Fixpoint sort_insert (compareFn : float -> float -> float) (a : float)
    (sorted : list float) : list float :=
  match sorted with
  | [] => [a]
  | b :: rest =>
      if 0 <? compareFn a b then b :: sort_insert compareFn a rest
      else a :: sorted
  end.

Definition Array_sort (compareFn : float -> float -> float)
    (arr : list float) : list float :=
  fold_right (sort_insert compareFn) [] arr.

(** ** Strings of the source *)

Definition dq : jsstring := [34%N].

(** Decimal rendering of a non-negative integer, as in a template literal. *)
Definition dec (n : N) : jsstring :=
  js (DecimalString.NilZero.string_of_uint (N.to_uint n)).

(** White space and line terminators: the class [\s] and what [trim]
    removes. *)
Definition is_space (c : N) : bool :=
  ((9 <=? c) && (c <=? 13) || (c =? 32) || (c =? 160) || (c =? 5760)
   || (8192 <=? c) && (c <=? 8202) || (c =? 8232) || (c =? 8233)
   || (c =? 8239) || (c =? 8287) || (c =? 12288) || (c =? 65279))%N.

(** What [.] does not match: the line terminators. *)
Definition is_line_terminator (c : N) : bool :=
  ((c =? 10) || (c =? 13) || (c =? 8232) || (c =? 8233))%N.

(** Canonicalisation of a code unit under the [i] flag against the ASCII
    letters of a pattern: ASCII letters fold to upper case, and no code unit
    above 127 folds into ASCII. *)
Definition upper (c : N) : N :=
  if ((97 <=? c) && (c <=? 122))%N then (c - 32)%N else c.

Fixpoint starts_with (prefix s : jsstring) : bool :=
  match prefix, s with
  | [], _ => true
  | p :: prefix', c :: s' => (p =? c)%N && starts_with prefix' s'
  | _ :: _, [] => false
  end.

(** The rest of [s] after [prefix] matched ignoring case. *)
Fixpoint strip_prefix_i (prefix s : jsstring) : option jsstring :=
  match prefix, s with
  | [], _ => Some s
  | p :: prefix', c :: s' =>
      if (upper p =? upper c)%N then strip_prefix_i prefix' s' else None
  | _ :: _, [] => None
  end.

Fixpoint drop_spaces (s : jsstring) : jsstring :=
  match s with
  | c :: s' => if is_space c then drop_spaces s' else s
  | [] => []
  end.

(** [s.trim()]. *)
Definition trim (s : jsstring) : jsstring :=
  rev (drop_spaces (rev (drop_spaces s))).

(** [s.includes(needle)]. *)
Fixpoint includes (s needle : jsstring) : bool :=
  starts_with needle s ||
  match s with
  | [] => false
  | _ :: s' => includes s' needle
  end.

(** [s.endsWith(suffix)]. *)
Definition endsWith (s suffix : jsstring) : bool :=
  starts_with (rev suffix) (rev s).

(** [s.substring(0, n)]. *)
Definition substring_0 (s : jsstring) (n : nat) : jsstring := firstn n s.

(** [s.split('\n')]: the pieces between line feeds, at least one. *)
Fixpoint split_lines (s : jsstring) : list jsstring :=
  match s with
  | [] => [[]]
  | c :: s' =>
      if (c =? 10)%N then [] :: split_lines s'
      else match split_lines s' with
           | line :: lines => (c :: line) :: lines
           | [] => [[c]]
           end
  end.

(** [pieces.join('')]. *)
Definition join_empty (pieces : list jsstring) : jsstring := concat pieces.

(** [.replace(/\*\*|\*|__|_/g, '')]: at each position the alternatives in
    order, the match removed. *)
Fixpoint remove_markers (s : jsstring) : jsstring :=
  match s with
  | [] => []
  | c :: rest =>
      if ((c =? 42) || (c =? 95))%N then
        match rest with
        | c' :: rest' =>
            if (c' =? c)%N then remove_markers rest' else remove_markers rest
        | [] => []
        end
      else c :: remove_markers rest
  end.

(** The group [(:|\s-)] followed by [\s*], after a label matched: the rest
    of the string after the whole match. *)
Definition after_label (rest : jsstring) : option jsstring :=
  match rest with
  | c :: rest' =>
      if (c =? 58)%N then Some (drop_spaces rest')
      else if is_space c then
        match rest' with
        | d :: rest'' => if (d =? 45)%N then Some (drop_spaces rest'') else None
        | [] => None
        end
      else None
  | [] => None
  end.

Definition remove_label_as (label : string) (s : jsstring) : option jsstring :=
  match strip_prefix_i (js label) s with
  | Some rest => after_label rest
  | None => None
  end.

(** [.replace(/^(subject|subject line|email subject|title)(:|\s-)\s*/i, '')]:
    the alternatives are tried in order. *)
Definition remove_label (s : jsstring) : jsstring :=
  match remove_label_as "subject" s with
  | Some r => r
  | None =>
  match remove_label_as "subject line" s with
  | Some r => r
  | None =>
  match remove_label_as "email subject" s with
  | Some r => r
  | None =>
  match remove_label_as "title" s with
  | Some r => r
  | None => s
  end end end end.

Definition is_quote (c : N) : bool := ((c =? 34) || (c =? 39))%N.

(** [.replace(/^["'](.+)["']$/, '$1')]: a quote at both ends around at least
    one character, none of them a line terminator. *)
Definition remove_quotes (s : jsstring) : jsstring :=
  match s with
  | q :: rest =>
      match rev rest with
      | q' :: rev_middle =>
          if is_quote q && is_quote q'
             && negb (Nat.eqb (length rev_middle) 0)
             && forallb (fun c => negb (is_line_terminator c)) rev_middle
          then rev rev_middle else s
      | [] => s
      end
  | [] => s
  end.

(** [.replace(/\n/g, ' ')]. *)
Definition newlines_to_spaces (s : jsstring) : jsstring :=
  map (fun c => if (c =? 10)%N then 32%N else c) s.

(** [.replace(/\s+/g, ' ')]; [in_run] says that the previous code unit was
    white space of the run being replaced. *)
Fixpoint collapse_spaces_from (in_run : bool) (s : jsstring) : jsstring :=
  match s with
  | [] => []
  | c :: rest =>
      if is_space c
      then if in_run then collapse_spaces_from true rest
           else 32%N :: collapse_spaces_from true rest
      else c :: collapse_spaces_from false rest
  end.

Definition collapse_spaces (s : jsstring) : jsstring :=
  collapse_spaces_from false s.

(** No code unit of [s] is a line terminator. *)
Definition one_line (s : jsstring) : Prop :=
  Forall (fun c => is_line_terminator c = false) s.

(** The clean-up chain applied to a generated subject. *)
Definition clean_subject (raw : jsstring) : jsstring :=
  trim (collapse_spaces (newlines_to_spaces
          (remove_quotes (remove_label (remove_markers raw))))).

(** ** The data model of [src/src/types.ts] *)

(** A cell of a [DataRow]: [string | number]. *)
Inductive cell : Type :=
  | CNum (x : float)
  | CStr (s : jsstring).

(** [DataRow]: the keys of a row in [Object.keys] order with their values.
    The parsers produce each key once. *)
Definition DataRow : Type := list (jsstring * cell).

Definition Object_keys (row : DataRow) : list jsstring := map fst row.

(** [row[col]], [undefined] ([None]) for a missing key. *)
Fixpoint row_get (row : DataRow) (col : jsstring) : option cell :=
  match row with
  | [] => None
  | (k, v) :: rest => if decide (k = col) then Some v else row_get rest col
  end.

Module NumericStats.
Record t : Type := mk
  { mean : float; median : float; std : float; min : float; max : float }.
End NumericStats.

Record Statistics : Type :=
  { rowCount : nat;
    columnCount : nat;
    numericStats : gmap (list N) NumericStats.t;
    categoricalStats : gmap (list N) (gmap (list N) nat) }.

(** ** The statistics of the [analyze-data] handler

    The handler computes them inline; each definition below is one of its
    local bindings, under the binding's name. *)

Section Statistics.

(** [Number(s)] for a string [s], the runtime's StringToNumber. *)
Variable StringToNumber : jsstring -> float.

(** [Number(row[col])]. *)
Definition Number (v : option cell) : float :=
  match v with
  | Some (CNum x) => x
  | Some (CStr s) => StringToNumber s
  | None => nan
  end.

(** [typeof v === 'number']. *)
Definition typeof_number (v : option cell) : bool :=
  match v with Some (CNum _) => true | _ => false end.

(** [Object.keys(data[0]).filter(col => typeof data[0][col] === 'number')]. *)
Definition numericColumns (row0 : DataRow) : list jsstring :=
  List.filter (fun col => typeof_number (row_get row0 col)) (Object_keys row0).

(** [data.map(row => Number(row[col])).filter(val => !isNaN(val))]. *)
Definition column_values (data : list DataRow) (col : jsstring) : list float :=
  List.filter (fun val => negb (isNaN val))
              (map (fun row => Number (row_get row col)) data).

Definition compare_numbers (a b : float) : float := a - b.

Definition sorted_of (values : list float) : list float :=
  Array_sort compare_numbers values.

Definition mean_of (values : list float) : float :=
  fold_left (fun a b => a + b) values 0 / float_of_nat (length values).

(** [sorted.length / 2] is exact in the even branch and floored in the odd
    one: the integer quotient in both. *)
Definition median_of (sorted : list float) : float :=
  let n := Z.of_nat (length sorted) in
  if (n mod 2 =? 0)%Z
  then (ToNumber (aget sorted (n / 2 - 1)) + ToNumber (aget sorted (n / 2))) / 2
  else ToNumber (aget sorted (n / 2)).

Definition variance_of (values : list float) (mean : float) : float :=
  fold_left (fun a b => a + Math_pow_2 (b - mean)) values 0
  / float_of_nat (length values).

Definition numeric_stats (values : list float) : NumericStats.t :=
  let sorted := sorted_of values in
  let mean := mean_of values in
  let median := median_of sorted in
  let variance := variance_of values mean in
  let std := Math_sqrt variance in
  NumericStats.mk mean median std (Math_min values) (Math_max values).

(** The [statistics] object after the loop over [numericColumns].
    [None] when [data[0]] is [undefined]: [Object.keys] throws there. *)
Definition summarize (data : list DataRow) : option Statistics :=
  match data with
  | [] => None
  | row0 :: _ =>
      Some {| rowCount := length data;
              columnCount := length (Object_keys row0);
              numericStats :=
                fold_left (fun stats col =>
                             <[col := numeric_stats (column_values data col)]> stats)
                          (numericColumns row0) ∅;
              categoricalStats := ∅ |}
  end.

(** *** Histogram of a numeric column *)

Definition binCount (values : list float) : float :=
  Math_min [20; Math_floor (Math_sqrt (float_of_nat (length values)))].

Definition binWidth (values : list float) : float :=
  (Math_max values - Math_min values) / binCount values.

Definition binIndex (values : list float) (val : float) : float :=
  Math_min [binCount values - 1;
            Math_floor ((val - Math_min values) / binWidth values)].

(** The integer a number is, if it is one. *)
Definition integer_value (x : float) : option Z :=
  match Prim2SF x with
  | S754_zero _ => Some 0%Z
  | S754_finite s m e =>
      if (0 <=? e)%Z then Some (cond_Zopp s (Zpos m * 2 ^ e))
      else if (Z.land (Zpos m) (Z.ones (- e)) =? 0)%Z
           then Some (cond_Zopp s (Z.shiftr (Zpos m) (- e)))
           else None
  | _ => None
  end.

(** The array index a number names as a property key, if any: an integer
    from 0 to [2^32 - 2] ([-0] names index 0). *)
Definition array_index (x : float) : option nat :=
  match integer_value x with
  | Some z =>
      if (0 <=? z)%Z && (z <? 4294967295)%Z then Some (Z.to_nat z) else None
  | None => None
  end.

Definition array_length (x : float) : nat :=
  match array_index x with Some n => n | None => 0%nat end.

(** [Array.from({ length: binCount }, (_, i) => min + i * binWidth)]. *)
Definition bins (values : list float) : list float :=
  map (fun i => Math_min values + float_of_nat i * binWidth values)
      (seq 0 (array_length (binCount values))).

(** [counts[binIndex]++].  A key that is no index of the array adds a
    property and leaves the elements as they are; the clamp keeps every
    index below the length. *)
Definition count_up (counts : list nat) (i : float) : list nat :=
  match array_index i with
  | Some n => alter S n counts
  | None => counts
  end.

Definition counts (values : list float) : list nat :=
  fold_left (fun counts val => count_up counts (binIndex values val))
            values (repeat 0%nat (array_length (binCount values))).

End Statistics.

(** ** Tool arguments and their schemas

    The argument object of a tool call is a JSON value.  The schemas of the
    source are built from the combinators of the zod library; each
    combinator below is zod's, with the issues it reports (code, path,
    expected and received). *)

#[warnings="-register-all"]
Inductive json : Type :=
  | JNull
  | JBool (b : bool)
  | JNumber (x : float)
  | JString (s : jsstring)
  | JArray (items : list json)
  | JObject (fields : list (jsstring * json)).

(** [input[key]]: [None] is [undefined]. *)
Fixpoint get_field (fields : list (jsstring * json)) (key : jsstring) : option json :=
  match fields with
  | [] => None
  | (k, v) :: rest => if decide (k = key) then Some v else get_field rest key
  end.

Inductive ZodParsedType : Type :=
  | zt_undefined | zt_null | zt_boolean | zt_number | zt_nan
  | zt_string | zt_array | zt_object.

Definition getParsedType (input : option json) : ZodParsedType :=
  match input with
  | None => zt_undefined
  | Some JNull => zt_null
  | Some (JBool _) => zt_boolean
  | Some (JNumber x) => if isNaN x then zt_nan else zt_number
  | Some (JString _) => zt_string
  | Some (JArray _) => zt_array
  | Some (JObject _) => zt_object
  end.

Inductive path_segment : Type :=
  | PKey (key : jsstring)
  | PIndex (index : nat).

Inductive ZodIssue : Type :=
  | invalid_type (path : list path_segment) (expected : jsstring)
                 (received : ZodParsedType)
  | invalid_enum_value (path : list path_segment) (options : list jsstring)
                       (received : jsstring).

Definition issue_path (issue : ZodIssue) : list path_segment :=
  match issue with
  | invalid_type path _ _ => path
  | invalid_enum_value path _ _ => path
  end.

(** A schema with output [A]: the input at a path parses to a value or to
    the issues found. *)
Definition ZodType (A : Type) : Type :=
  list path_segment -> option json -> list ZodIssue + A.

Definition z_string : ZodType jsstring :=
  fun path input =>
    match input with
    | Some (JString s) => inr s
    | _ => inl [invalid_type path (js "string") (getParsedType input)]
    end.

(** [util.joinValues]: the options quoted and joined by [ | ]. *)
Fixpoint joinValues (options : list jsstring) : jsstring :=
  match options with
  | [] => []
  | [o] => js "'" ++ o ++ js "'"
  | o :: rest => js "'" ++ o ++ js "' | " ++ joinValues rest
  end.

Definition z_enum (options : list jsstring) : ZodType jsstring :=
  fun path input =>
    match input with
    | Some (JString s) =>
        if decide (s ∈ options) then inr s
        else inl [invalid_enum_value path options s]
    | _ => inl [invalid_type path (joinValues options) (getParsedType input)]
    end.

Definition z_optional {A} (inner : ZodType A) : ZodType (option A) :=
  fun path input =>
    match input with
    | None => inr None
    | Some _ =>
        match inner path input with
        | inr a => inr (Some a)
        | inl issues => inl issues
        end
    end.

(** [inner.default(d)]: [undefined] parses as the default, here given as
    the value the default parses to. *)
Definition z_default {A} (inner : ZodType (option A)) (d : A) : ZodType A :=
  fun path input =>
    match input with
    | None => inr d
    | Some _ =>
        match inner path input with
        | inr (Some a) => inr a
        | inr None => inr d
        | inl issues => inl issues
        end
    end.

(** The items of an array parsed in order; the issues of all of them. *)
Fixpoint z_items {A} (item : ZodType A) (path : list path_segment)
    (index : nat) (items : list json) : list ZodIssue + list A :=
  match items with
  | [] => inr []
  | v :: rest =>
      match item (path ++ [PIndex index]) (Some v),
            z_items item path (S index) rest with
      | inr a, inr others => inr (a :: others)
      | inl issues, inr _ => inl issues
      | inr _, inl issues => inl issues
      | inl issues, inl more => inl (issues ++ more)
      end
  end.

Definition z_array {A} (item : ZodType A) : ZodType (list A) :=
  fun path input =>
    match input with
    | Some (JArray items) => z_items item path 0 items
    | _ => inl [invalid_type path (js "array") (getParsedType input)]
    end.

(** The keys of an object shape are parsed in shape order; unknown keys are
    dropped. *)
Definition shape (A : Type) : Type :=
  list path_segment -> list (jsstring * json) -> list ZodIssue + A.

Definition z_key {A} (key : string) (t : ZodType A) : shape A :=
  fun path fields => t (path ++ [PKey (js key)]) (get_field fields (js key)).

Definition z_and {A B} (s : shape (A -> B)) (k : shape A) : shape B :=
  fun path fields =>
    match s path fields, k path fields with
    | inr f, inr a => inr (f a)
    | inl issues, inr _ => inl issues
    | inr _, inl issues => inl issues
    | inl issues, inl more => inl (issues ++ more)
    end.

Definition z_build {A} (a : A) : shape A := fun _ _ => inr a.

Definition z_object {A} (s : shape A) : ZodType A :=
  fun path input =>
    match input with
    | Some (JObject fields) => s path fields
    | _ => inl [invalid_type path (js "object") (getParsedType input)]
    end.

Module GenerateThinkingArgs.
Record t : Type := mk { prompt : jsstring; outputDir : option jsstring }.
End GenerateThinkingArgs.

Module Image.
Record t : Type := mk { name : jsstring; data : jsstring }.
End Image.

Module SendEmailArgs.
Record t : Type := mk
  { to : jsstring; subjectPrompt : jsstring; text : jsstring;
    html : option jsstring; images : list Image.t }.
End SendEmailArgs.

Module AnalyzeDataArgs.
Record t : Type := mk
  { fileData : jsstring; fileName : jsstring; analysisType : jsstring;
    outputDir : option jsstring }.
End AnalyzeDataArgs.

Definition GenerateThinkingSchema : ZodType GenerateThinkingArgs.t :=
  z_object
    (z_and (z_and (z_build GenerateThinkingArgs.mk)
      (z_key "prompt" z_string))
      (z_key "outputDir" (z_optional z_string))).

Definition SendEmailSchema : ZodType SendEmailArgs.t :=
  z_object
    (z_and (z_and (z_and (z_and (z_and (z_build SendEmailArgs.mk)
      (z_key "to" z_string))
      (z_key "subjectPrompt" z_string))
      (z_key "text" z_string))
      (z_key "html" (z_optional z_string)))
      (z_key "images"
         (z_default
            (z_optional
               (z_array
                  (z_object (z_and (z_and (z_build Image.mk)
                     (z_key "name" z_string))
                     (z_key "data" z_string)))))
            []))).

Definition AnalyzeDataSchema : ZodType AnalyzeDataArgs.t :=
  z_object
    (z_and (z_and (z_and (z_and (z_build AnalyzeDataArgs.mk)
      (z_key "fileData" z_string))
      (z_key "fileName" z_string))
      (z_key "analysisType" (z_enum [js "basic"; js "detailed"])))
      (z_key "outputDir" (z_optional z_string))).

(** ** What a handler throws, returns and does *)

Inductive thrown : Type :=
  | ErrorObject (name message : jsstring)
  | ZodError (issues : list ZodIssue)
  | ThrownValue (text : jsstring).

Module ContentItem.
Record t : Type := mk { type : jsstring; text : jsstring }.
End ContentItem.

(** The response envelope [{ content: [...] }]. *)
Record ToolResult : Type := { content : list ContentItem.t }.

Definition text_result (text : jsstring) : ToolResult :=
  {| content := [ContentItem.mk (js "text") text] |}.

Module Attachment.
Record t : Type := mk
  { filename : jsstring; content : jsstring; encoding : jsstring;
    cid : jsstring; contentType : jsstring }.
End Attachment.

Module MailOptions.
Record t : Type := mk
  { from : jsstring; to : jsstring; subject : jsstring; text : jsstring;
    html : jsstring; attachments : list Attachment.t }.
End MailOptions.

(** The local file system: file contents by path, and the directories. *)
Record FileSystem : Type :=
  { files : gmap (list N) (list N); dirs : gset (list N) }.

(** The calls a handler makes to its collaborators, in order. *)
Inductive event : Type :=
  | Generated (prompt : jsstring) (result : thrown + jsstring)
  | MailSent (mail : MailOptions.t) (result : thrown + jsstring)
  | DirMade (path : jsstring)
  | FileWritten (path : jsstring) (data : list N).

Record State : Type := { fs : FileSystem; log : list event }.

(** A handler body: from a state, a thrown value or a result, and the state
    it leaves. *)
Definition Handler (A : Type) : Type := State -> (thrown + A) * State.

Definition ret {A} (a : A) : Handler A := fun st => (inr a, st).

Definition throw {A} (e : thrown) : Handler A := fun st => (inl e, st).

Definition bind {A B} (m : Handler A) (k : A -> Handler B) : Handler B :=
  fun st =>
    match m st with
    | (inr a, st') => k a st'
    | (inl e, st') => (inl e, st')
    end.

Notation "'let*' x ':=' m 'in' k" := (bind m (fun x => k))
  (at level 10, x name, m at level 100, k at level 200, only parsing).

(** [try { body } catch (error) { handler }]. *)
Definition try_catch {A} (body : Handler A) (handler : thrown -> Handler A)
    : Handler A :=
  fun st =>
    match body st with
    | (inr a, st') => (inr a, st')
    | (inl e, st') => handler e st'
    end.

(** [schema.parse(args)]. *)
Definition parse {A} (schema : ZodType A) (args : option json) : Handler A :=
  match schema [] args with
  | inr a => ret a
  | inl issues => throw (ZodError issues)
  end.

Definition emit (ev : event) : Handler unit :=
  fun st => (inr tt, {| fs := fs st; log := log st ++ [ev] |}).

(** A directory or a file is at [path]. *)
Definition present (disk : FileSystem) (path : jsstring) : bool :=
  bool_decide (path ∈ dirs disk) || bool_decide (is_Some (files disk !! path)).

(** [fs.existsSync(path)]. *)
Definition existsSync (path : jsstring) : Handler bool :=
  fun st => (inr (present (fs st) path), st).

(** [fs.mkdirSync(path)], with or without [recursive]. *)
Definition mkdirSync (path : jsstring) : Handler unit :=
  fun st =>
    (inr tt,
     {| fs := {| files := files (fs st); dirs := {[path]} ∪ dirs (fs st) |};
        log := log st ++ [DirMade path] |}).

(** [fs.writeFileSync(path, data)]. *)
Definition writeFileSync (path : jsstring) (data : list N) : Handler unit :=
  fun st =>
    (inr tt,
     {| fs := {| files := <[path := data]> (files (fs st)); dirs := dirs (fs st) |};
        log := log st ++ [FileWritten path data] |}).

(** The content a read of [path] finds; a missing file is an error. *)
Definition readFileSync (path : jsstring) : Handler (list N) :=
  fun st =>
    match files (fs st) !! path with
    | Some data => (inr data, st)
    | None =>
        (inl (ErrorObject (js "Error")
                (js "ENOENT: no such file or directory, open '" ++ path ++ js "'")),
         st)
    end.

Definition is_generated (ev : event) : bool :=
  match ev with Generated _ _ => true | _ => false end.

(** A JavaScript string in a condition: the empty string and [undefined]
    are false. *)
Definition truthy (s : option jsstring) : bool :=
  match s with
  | Some (_ :: _) => true
  | _ => false
  end.

(** ** The collaborators of the server *)

(** What the runtime and the libraries compute.  The pages and prompts of
    [generate-thinking] and [analyze-data] are kept as functions of what
    they are built from. *)
Record Platform : Type :=
  { (** [Number(s)] for a string *)
    StringToNumber : jsstring -> float;
    (** [path.join(a, b)] and [path.resolve(p)] *)
    path_join : jsstring -> jsstring -> jsstring;
    path_resolve : jsstring -> jsstring;
    (** [path.join(process.cwd(), 'output')] *)
    outputDir : jsstring;
    (** [Buffer.from(fileData, 'base64')] *)
    Buffer_from_base64 : jsstring -> list N;
    (** the rows [Papa.parse(csvContent, { header: true }).data] of a file
        read as UTF-8 *)
    Papa_parse : list N -> list DataRow;
    (** the rows [XLSX.utils.sheet_to_json] gives for the first sheet of a
        workbook file, or what [XLSX.readFile] throws *)
    XLSX_rows : list N -> thrown + list DataRow;
    (** the regular-expression rewriting of [responseText] to HTML *)
    htmlResponse : jsstring -> jsstring;
    (** [styledHtmlResponse] of prompt, HTML response and file path *)
    styledHtmlResponse : jsstring -> jsstring -> jsstring -> jsstring;
    (** [chartHtml] of a column, its bins and its counts *)
    chartHtml : jsstring -> list float -> list nat -> jsstring;
    (** [analysisPrompt] of the table, its statistics and the analysis type *)
    analysisPrompt : list DataRow -> Statistics -> jsstring -> jsstring;
    (** [htmlReport] of the statistics, the analysis text, the plot paths
        and the directory they are relative to *)
    htmlReport : Statistics -> jsstring -> list jsstring -> jsstring -> jsstring;
    (** the text returned by [analyze-data]: file name, analysis type,
        statistics, report path, analysis path, plots directory *)
    analysisSummary :
      jsstring -> jsstring -> Statistics -> jsstring -> jsstring -> jsstring
      -> jsstring;
    (** [error.message] of a [ZodError] *)
    ZodError_message : list ZodIssue -> jsstring }.

(** What one call meets outside the process: the answers of the model (to
    its [n]-th request of the call), of the mail transport, the clock and
    the environment. *)
Record World : Type :=
  { generateContent : nat -> jsstring -> thrown + jsstring;
    sendMail : MailOptions.t -> thrown + jsstring;
    Date_now : N;
    NODEMAILER_EMAIL : option jsstring;
    NODEMAILER_PASSWORD : option jsstring }.

(** ** The handlers

    [P] is the platform and [W] what the call meets outside the process. *)

Section Handlers.

Variable P : Platform.
Variable W : World.

(** [await model.generateContent(prompt)] and [result.response.text()]. *)
Definition generate (prompt : jsstring) : Handler jsstring :=
  fun st =>
    let n := length (List.filter is_generated (log st)) in
    let result := generateContent W n prompt in
    (result, {| fs := fs st; log := log st ++ [Generated prompt result] |}).

(** [await transporter.sendMail(mailOptions)], giving [info.messageId]. *)
Definition send (mailOptions : MailOptions.t) : Handler jsstring :=
  fun st =>
    let result := sendMail W mailOptions in
    (result, {| fs := fs st; log := log st ++ [MailSent mailOptions result] |}).

(** [if (!fs.existsSync(dir)) fs.mkdirSync(dir, ...)]. *)
Definition ensure_dir (dir : jsstring) : Handler unit :=
  let* present := existsSync dir in
  if present then ret tt else mkdirSync dir.

(** *** generate-thinking *)

Definition generate_thinking (args : option json) : Handler ToolResult :=
  let* a := parse GenerateThinkingSchema args in
  let prompt := GenerateThinkingArgs.prompt a in
  let customOutputDir := GenerateThinkingArgs.outputDir a in
  let saveDir :=
    if truthy customOutputDir
    then path_resolve P (default [] customOutputDir)
    else outputDir P in
  let* _ := ensure_dir saveDir in
  let* responseText := generate prompt in
  let timestamp := Date_now W in
  let filename := js "gemini_thinking_" ++ dec timestamp ++ js ".txt" in
  let filePath := path_join P saveDir filename in
  let* _ := writeFileSync filePath responseText in
  ret (text_result
         (styledHtmlResponse P prompt (htmlResponse P responseText) filePath)).

(** *** send-email *)

Definition enhancedPrompt (subjectPrompt : jsstring) : jsstring :=
  js "Create a single, professional email subject line (maximum 50-60 characters) for: "
    ++ subjectPrompt
    ++ js ". 
        The subject should be direct, clear, and professional. 
        Do not include numbering, asterisks, or formatting characters. 
        Do not provide multiple options - just give me one perfect subject line.
        Do not include phrases like "
    ++ dq
    ++ js "Subject line:"
    ++ dq
    ++ js " or "
    ++ dq
    ++ js "Email subject:"
    ++ dq
    ++ js " in your response.".

Definition fallbackPrompt (subjectPrompt : jsstring) : jsstring :=
  js "Create a brief, professional email subject line (30-50 characters only) about: "
    ++ subjectPrompt
    ++ js ". 
          Just return the subject line text alone with no formatting or explanation.".

(** The test that sends the subject to the fallback prompt. *)
Definition problematic (generatedSubject : jsstring) : bool :=
  (70 <? length generatedSubject)%nat
  || (length generatedSubject <? 10)%nat
  || includes generatedSubject (js "Option")
  || includes generatedSubject (js "**").

(** The final length check of the fallback branch. *)
Definition truncate_subject (generatedSubject : jsstring) : jsstring :=
  if (70 <? length generatedSubject)%nat
  then substring_0 generatedSubject 67 ++ js "..."
  else generatedSubject.

Definition generate_subject (subjectPrompt : jsstring) : Handler jsstring :=
  let* subjectResult := generate (enhancedPrompt subjectPrompt) in
  let generatedSubject := clean_subject subjectResult in
  if problematic generatedSubject then
    let* fallbackResult := generate (fallbackPrompt subjectPrompt) in
    ret (truncate_subject (clean_subject fallbackResult))
  else ret generatedSubject.

(** The longest split [pre ++ lit ++ post] of [s] with [post] not empty:
    how the greedy group before [lit] matches. *)
Fixpoint split_at_last (lit s : jsstring) : option (jsstring * jsstring) :=
  match s with
  | [] => None
  | c :: rest =>
      match split_at_last lit rest with
      | Some (pre, post) => Some (c :: pre, post)
      | None =>
          if starts_with lit s then
            match drop (length lit) s with
            | [] => None
            | post => Some ([], post)
            end
          else None
      end
  end.

(** [image.data.match(/^data:(.+);base64,(.+)$/)]: the two groups. *)
Definition match_data_url (data : jsstring) : option (jsstring * jsstring) :=
  if starts_with (js "data:") data then
    let body := drop 5 data in
    if forallb (fun c => negb (is_line_terminator c)) body then
      match split_at_last (js ";base64,") body with
      | Some (c :: type, base64Data) => Some (c :: type, base64Data)
      | _ => None
      end
    else None
  else None.

(** [images.map((image, index) => ...).filter(a => a !== null)]. *)
Fixpoint attachments_from (index : nat) (images : list Image.t)
    : list Attachment.t :=
  match images with
  | [] => []
  | image :: rest =>
      match match_data_url (Image.data image) with
      | Some (type, base64Data) =>
          Attachment.mk (Image.name image) base64Data (js "base64")
                        (js "image" ++ dec (N.of_nat index)) type
          :: attachments_from (S index) rest
      | None => attachments_from (S index) rest
      end
  end.

(** The HTML page built from the text when no HTML was given. *)
Definition htmlTemplate (generatedSubject text : jsstring) : jsstring :=
  js "<!DOCTYPE html>
<html lang="
    ++ dq
    ++ js "en"
    ++ dq
    ++ js ">
<head>
  <meta charset="
    ++ dq
    ++ js "UTF-8"
    ++ dq
    ++ js ">
  <meta name="
    ++ dq
    ++ js "viewport"
    ++ dq
    ++ js " content="
    ++ dq
    ++ js "width=device-width, initial-scale=1.0"
    ++ dq
    ++ js ">
  <title>"
    ++ generatedSubject
    ++ js "</title>
  <style>
    body {
      font-family: Arial, sans-serif;
      line-height: 1.6;
      color: #333;
      max-width: 650px;
      margin: 0 auto;
      padding: 20px;
    }
    .header {
      border-bottom: 2px solid #4169E1;
      padding-bottom: 10px;
      margin-bottom: 20px;
    }
    .header h1 {
      color: #4169E1;
      font-size: 24px;
      margin: 0;
    }
    .content {
      padding: 15px 0;
    }
    .footer {
      margin-top: 30px;
      padding-top: 10px;
      border-top: 1px solid #eee;
      font-size: 12px;
      color: #777;
    }
    p {
      margin: 0 0 15px;
    }
  </style>
</head>
<body>
  <div class="
    ++ dq
    ++ js "header"
    ++ dq
    ++ js ">
    <h1>"
    ++ generatedSubject
    ++ js "</h1>
  </div>
  <div class="
    ++ dq
    ++ js "content"
    ++ dq
    ++ js ">
    "
    ++ join_empty (map (fun line => js "<p>" ++ line ++ js "</p>") (split_lines text))
    ++ js "
  </div>
  <div class="
    ++ dq
    ++ js "footer"
    ++ dq
    ++ js ">
    <p>This email was sent using Gemini Email Subject Generator</p>
  </div>
</body>
</html>".

(** [let htmlContent = html; if (!htmlContent && text) { ... }]. *)
Definition htmlContent_of (html : option jsstring)
    (generatedSubject text : jsstring) : option jsstring :=
  if negb (truthy html) && truthy (Some text)
  then Some (htmlTemplate generatedSubject text)
  else html.

Definition mailOptions_of (emailUser : jsstring) (a : SendEmailArgs.t)
    (generatedSubject : jsstring) : MailOptions.t :=
  let text := SendEmailArgs.text a in
  let htmlContent := htmlContent_of (SendEmailArgs.html a) generatedSubject text in
  MailOptions.mk emailUser (SendEmailArgs.to a) generatedSubject text
    (if truthy htmlContent then default [] htmlContent else text)
    (attachments_from 0 (SendEmailArgs.images a)).

Definition sent_text (to generatedSubject messageId : jsstring) : jsstring :=
  js "<div style="
    ++ dq
    ++ js "font-family: Arial, sans-serif; padding: 20px; border-radius: 10px; border: 1px solid #e0e0e0; background-color: #f9f9f9; max-width: 600px; margin: 0 auto;"
    ++ dq
    ++ js ">
  <div style="
    ++ dq
    ++ js "background-color: #4CAF50; color: white; padding: 10px 15px; border-radius: 5px; margin-bottom: 15px;"
    ++ dq
    ++ js ">
    <h2 style="
    ++ dq
    ++ js "margin: 0; font-size: 18px;"
    ++ dq
    ++ js ">"
    ++ [9989%N]
    ++ js " Email Successfully Sent</h2>
  </div>
  
  <div style="
    ++ dq
    ++ js "padding: 10px; background-color: white; border-radius: 5px; margin-bottom: 15px;"
    ++ dq
    ++ js ">
    <p><strong>To:</strong> "
    ++ to
    ++ js "</p>
    <p><strong>Subject:</strong> "
    ++ dq
    ++ generatedSubject
    ++ dq
    ++ js "</p>
    <p><strong>Message ID:</strong> "
    ++ messageId
    ++ js "</p>
  </div>
  
  <div style="
    ++ dq
    ++ js "background-color: #f0f0f0; padding: 10px; border-radius: 5px; border-left: 3px solid #4CAF50;"
    ++ dq
    ++ js ">
    <p>The email has been delivered with your provided content.</p>
    <p style="
    ++ dq
    ++ js "font-style: italic; color: #666;"
    ++ dq
    ++ js ">Note: This is just a confirmation message displayed here, not the actual email content.</p>
  </div>
</div>".

(** [error instanceof Error ? error.message : String(error)]. *)
Definition error_text (error : thrown) : jsstring :=
  match error with
  | ErrorObject _ message => message
  | ZodError issues => ZodError_message P issues
  | ThrownValue text => text
  end.

Definition failed_text (error : thrown) : jsstring :=
  js "<div style="
    ++ dq
    ++ js "font-family: Arial, sans-serif; padding: 20px; border-radius: 10px; border: 1px solid #e0e0e0; background-color: #fff0f0; max-width: 600px; margin: 0 auto;"
    ++ dq
    ++ js ">
  <div style="
    ++ dq
    ++ js "background-color: #f44336; color: white; padding: 10px 15px; border-radius: 5px; margin-bottom: 15px;"
    ++ dq
    ++ js ">
    <h2 style="
    ++ dq
    ++ js "margin: 0; font-size: 18px;"
    ++ dq
    ++ js ">"
    ++ [10060%N]
    ++ js " Email Sending Failed</h2>
  </div>
  
  <div style="
    ++ dq
    ++ js "padding: 15px; background-color: white; border-radius: 5px;"
    ++ dq
    ++ js ">
    <p><strong>Error:</strong> "
    ++ error_text error
    ++ js "</p>
    <p>Please check your email credentials and try again.</p>
  </div>
</div>".

Definition send_email (args : option json) : Handler ToolResult :=
  let* a := parse SendEmailSchema args in
  let* generatedSubject := generate_subject (SendEmailArgs.subjectPrompt a) in
  let emailUser := NODEMAILER_EMAIL W in
  let emailPass := NODEMAILER_PASSWORD W in
  if negb (truthy emailUser) || negb (truthy emailPass) then
    throw (ErrorObject (js "Error")
             (js "Email credentials (NODEMAILER_EMAIL and NODEMAILER_PASSWORD) are not set in environment variables"))
  else
    let mailOptions := mailOptions_of (default [] emailUser) a generatedSubject in
    try_catch
      (let* messageId := send mailOptions in
       ret (text_result (sent_text (SendEmailArgs.to a) generatedSubject messageId)))
      (fun error => ret (text_result (failed_text error))).

(** *** analyze-data *)

(** One pass of the plotting loop: the chart page of a column, written
    under [plotsDir]. *)
Definition write_plot (data : list DataRow) (plotsDir : jsstring)
    (timestamp : N) (col : jsstring) : Handler jsstring :=
  let values := column_values (StringToNumber P) data col in
  let page := chartHtml P col (bins values) (counts values) in
  let plotPath :=
    path_join P plotsDir (col ++ js "_histogram_" ++ dec timestamp ++ js ".html") in
  let* _ := writeFileSync plotPath page in
  ret plotPath.

Fixpoint write_plots (data : list DataRow) (plotsDir : jsstring)
    (timestamp : N) (cols : list jsstring) : Handler (list jsstring) :=
  match cols with
  | [] => ret []
  | col :: rest =>
      let* plotPath := write_plot data plotsDir timestamp col in
      let* plots := write_plots data plotsDir timestamp rest in
      ret (plotPath :: plots)
  end.

(** The rows of the uploaded file, read back from [tempFilePath]. *)
Definition load (tempFilePath fileName : jsstring) : Handler (list DataRow) :=
  let* content := readFileSync tempFilePath in
  if endsWith fileName (js ".csv") then ret (Papa_parse P content)
  else
    match XLSX_rows P content with
    | inr data => ret data
    | inl e => throw e
    end.

(** The statistics, the chart pages, the analysis of the model and the
    report, for the rows [data] of the uploaded file. *)
Definition report_on (a : AnalyzeDataArgs.t) (saveDir : jsstring)
    (data : list DataRow) : Handler ToolResult :=
  let fileName := AnalyzeDataArgs.fileName a in
  let analysisType := AnalyzeDataArgs.analysisType a in
  match data, summarize (StringToNumber P) data with
  | row0 :: _, Some statistics =>
      let timestamp := Date_now W in
      let plotsDir := path_join P saveDir (js "plots") in
      let* _ := ensure_dir plotsDir in
      let* plots := write_plots data plotsDir timestamp (numericColumns row0) in
      let* analysisText := generate (analysisPrompt P data statistics analysisType) in
      let analysisPath :=
        path_join P saveDir (js "analysis_" ++ dec timestamp ++ js ".txt") in
      let* _ := writeFileSync analysisPath analysisText in
      let reportPath :=
        path_join P saveDir (js "report_" ++ dec timestamp ++ js ".html") in
      let* _ := writeFileSync reportPath
                  (htmlReport P statistics analysisText plots saveDir) in
      ret (text_result
             (analysisSummary P fileName analysisType statistics
                              reportPath analysisPath plotsDir))
  | _, _ =>
      (* [Object.keys(data[0])] on [undefined] *)
      throw (ErrorObject (js "TypeError")
               (js "Cannot convert undefined or null to object"))
  end.

Definition analyze_data (args : option json) : Handler ToolResult :=
  let* a := parse AnalyzeDataSchema args in
  let fileName := AnalyzeDataArgs.fileName a in
  let customOutputDir := AnalyzeDataArgs.outputDir a in
  let saveDir :=
    if truthy customOutputDir
    then path_resolve P (default [] customOutputDir)
    else path_join P (outputDir P) (js "analysis") in
  let* _ := ensure_dir saveDir in
  let buffer := Buffer_from_base64 P (AnalyzeDataArgs.fileData a) in
  let tempFilePath := path_join P saveDir fileName in
  let* _ := writeFileSync tempFilePath buffer in
  let* data := load tempFilePath fileName in
  report_on a saveDir data.

(** *** The [CallToolRequestSchema] handler *)

Definition call_tool (name : jsstring) (args : option json) : Handler ToolResult :=
  try_catch
    (if decide (name = js "generate-thinking") then generate_thinking args
     else if decide (name = js "send-email") then send_email args
     else if decide (name = js "analyze-data") then analyze_data args
     else throw (ErrorObject (js "Error") (js "Unknown tool: " ++ name)))
    (fun error => throw error).

(** One request served from a file system: what the caller gets, the file
    system left, and the calls made. *)
Definition handle_request (name : jsstring) (args : option json)
    (disk : FileSystem) : (thrown + ToolResult) * FileSystem * list event :=
  let '(outcome, st) := call_tool name args {| fs := disk; log := [] |} in
  (outcome, fs st, log st).

End Handlers.

(** The server on a sequence of requests, each with its own world: every
    request is handled from the file system the previous one left. *)
Fixpoint serve (P : Platform)
    (requests : list (World * jsstring * option json)) (disk : FileSystem)
    : list (thrown + ToolResult) * FileSystem :=
  match requests with
  | [] => ([], disk)
  | (W, name, args) :: rest =>
      let '(outcome, disk', _) := handle_request P W name args disk in
      let '(outcomes, disk'') := serve P rest disk' in
      (outcome :: outcomes, disk'')
  end.

(** ** The tools the server lists

    The [ListToolsRequestSchema] handler returns three tools, each with the
    JSON Schema of its arguments: a [type] with its keywords. *)

#[warnings="-register-all"]
Inductive JsonSchema : Type :=
  | SchemaString (enum : option (list string)) (description : string)
  | SchemaArray (items : JsonSchema) (description : string)
  | SchemaObject (properties : list (string * JsonSchema))
                 (required : list string).

Module Tool.
Record t : Type := mk
  { name : string; description : string; inputSchema : JsonSchema }.
End Tool.

Definition generate_thinking_tool : Tool.t :=
  Tool.mk "generate-thinking"
      "Generate detailed thinking process text using Gemini Flash 2 model"
      (SchemaObject
         [ ("prompt"%string,
            SchemaString None "Prompt for generating thinking process text");
           ("outputDir"%string,
            SchemaString None "Directory to save output responses (optional)") ]
         [ "prompt"%string ]).

Definition send_email_tool : Tool.t :=
  Tool.mk "send-email"
      "Send an email with AI-generated subject using Gemini Flash 2"
      (SchemaObject
         [ ("to"%string, SchemaString None "Recipient email address");
           ("subjectPrompt"%string,
            SchemaString None "Prompt for Gemini to generate email subject");
           ("text"%string, SchemaString None "Plain text version of the email");
           ("html"%string,
            SchemaString None "HTML version of the email (optional)");
           ("images"%string,
            SchemaArray
              (SchemaObject
                 [ ("name"%string, SchemaString None "Image filename");
                   ("data"%string,
                    SchemaString None
                      "Base64 encoded image data with mime type (data:image/jpeg;base64,...)") ]
                 [ "name"%string; "data"%string ])
              "Images to attach to the email (optional)") ]
         [ "to"%string; "subjectPrompt"%string; "text"%string ]).

Definition analyze_data_tool : Tool.t :=
  Tool.mk "analyze-data"
      "Analyze Excel/CSV data using EDA and Gemini AI"
      (SchemaObject
         [ ("fileData"%string, SchemaString None "Base64 encoded file data");
           ("fileName"%string,
            SchemaString None "Name of the file (must be .xlsx, .xls, or .csv)");
           ("analysisType"%string,
            SchemaString (Some [ "basic"%string; "detailed"%string ])
              "Type of analysis to perform");
           ("outputDir"%string,
            SchemaString None "Directory to save analysis results (optional)") ]
         [ "fileData"%string; "fileName"%string; "analysisType"%string ]).

(** The [tools] of the listing, in its order. *)
Definition tools : list Tool.t :=
  [ generate_thinking_tool; send_email_tool; analyze_data_tool ].

(** A JSON value is valid against a schema of the listing: it has the
    [type]; a string is one of the [enum] when there is one; every item of
    an array is valid against [items]; an object has every [required] key,
    and each of its [properties] that is there is valid. *)
Fixpoint validates (schema : JsonSchema) (instance : json) : bool :=
  match schema, instance with
  | SchemaString enum _, JString s =>
      match enum with
      | Some options => bool_decide (s ∈ map js options)
      | None => true
      end
  | SchemaArray items _, JArray l => forallb (validates items) l
  | SchemaObject properties required, JObject fields =>
      forallb (fun key => bool_decide (is_Some (get_field fields (js key))))
              required
      && (fix each (properties : list (string * JsonSchema)) : bool :=
            match properties with
            | [] => true
            | (key, s) :: rest =>
                match get_field fields (js key) with
                | Some v => validates s v
                | None => true
                end && each rest
            end) properties
  | _, _ => false
  end.

(** The calls and the result of [generate_subject] from an empty log, read
    off the answers of the model. *)
Definition subject_run (W : World) (subjectPrompt : jsstring)
    : (thrown + jsstring) * list event :=
  let p1 := enhancedPrompt subjectPrompt in
  let r1 := generateContent W 0 p1 in
  match r1 with
  | inl e => (inl e, [Generated p1 r1])
  | inr t1 =>
      if problematic (clean_subject t1) then
        let p2 := fallbackPrompt subjectPrompt in
        let r2 := generateContent W 1 p2 in
        match r2 with
        | inl e => (inl e, [Generated p1 r1; Generated p2 r2])
        | inr t2 =>
            (inr (truncate_subject (clean_subject t2)),
             [Generated p1 r1; Generated p2 r2])
        end
      else (inr (clean_subject t1), [Generated p1 r1])
  end.

Definition credentials_missing (W : World) : bool :=
  negb (truthy (NODEMAILER_EMAIL W)) || negb (truthy (NODEMAILER_PASSWORD W)).

Definition credentials_error : thrown :=
  ErrorObject (js "Error")
    (js "Email credentials (NODEMAILER_EMAIL and NODEMAILER_PASSWORD) are not set in environment variables").

(** ** The recognised fields of each tool, as the specification lists them *)

Inductive field_kind : Type :=
  | KString
  | KEnum (options : list jsstring)
  | KImages.

(** Name, kind and whether the field is required. *)
Definition recognized_fields (name : jsstring) : list (string * field_kind * bool) :=
  if decide (name = js "generate-thinking") then
    [ ("prompt"%string, KString, true); ("outputDir"%string, KString, false) ]
  else if decide (name = js "send-email") then
    [ ("to"%string, KString, true); ("subjectPrompt"%string, KString, true);
      ("text"%string, KString, true); ("html"%string, KString, false);
      ("images"%string, KImages, false) ]
  else if decide (name = js "analyze-data") then
    [ ("fileData"%string, KString, true); ("fileName"%string, KString, true);
      ("analysisType"%string, KEnum [js "basic"; js "detailed"], true);
      ("outputDir"%string, KString, false) ]
  else [].

(** An image: an object with a string [name] and a string [data]. *)
Definition is_image (v : json) : bool :=
  match v with
  | JObject fields =>
      match get_field fields (js "name"), get_field fields (js "data") with
      | Some (JString _), Some (JString _) => true
      | _, _ => false
      end
  | _ => false
  end.

Definition has_kind (k : field_kind) (v : json) : bool :=
  match k, v with
  | KString, JString _ => true
  | KEnum options, JString s => bool_decide (s ∈ options)
  | KImages, JArray items => forallb is_image items
  | _, _ => false
  end.

(** [key] is a recognised field of the tool that is required and missing,
    or present with a value of the wrong type or outside the enum. *)
Definition offending (name : jsstring) (fields : list (jsstring * json))
    (key : string) : Prop :=
  exists k required,
    In (key, k, required) (recognized_fields name) /\
    match get_field fields (js key) with
    | None => required = true
    | Some v => has_kind k v = false
    end.

(** Some issue of the list is located at or under the field [key]. *)
Definition flags (key : string) (issues : list ZodIssue) : Prop :=
  exists issue rest,
    In issue issues /\ issue_path issue = PKey (js key) :: rest.

(** ** The run of [analyze-data], read off its collaborators

    What the handler leaves on disk and the calls it makes, stage by stage,
    for validated arguments [a] and a disk [disk]. *)

Section AnalyzeRun.

Variable P : Platform.
Variable W : World.
Variable a : AnalyzeDataArgs.t.

Definition saveDir_of : jsstring :=
  if truthy (AnalyzeDataArgs.outputDir a)
  then path_resolve P (default [] (AnalyzeDataArgs.outputDir a))
  else path_join P (outputDir P) (js "analysis").

Definition buffer_of : list N :=
  Buffer_from_base64 P (AnalyzeDataArgs.fileData a).

Definition tempFilePath_of : jsstring :=
  path_join P saveDir_of (AnalyzeDataArgs.fileName a).

(** The rows the loader finds in the uploaded file. *)
Definition uploaded_rows : thrown + list DataRow :=
  if endsWith (AnalyzeDataArgs.fileName a) (js ".csv")
  then inr (Papa_parse P buffer_of)
  else XLSX_rows P buffer_of.

(** The disk after the upload is written, and the calls up to there. *)
Definition upload_disk (disk : FileSystem) : FileSystem :=
  {| files := <[tempFilePath_of := buffer_of]> (files disk);
     dirs := if present disk saveDir_of then dirs disk
             else {[saveDir_of]} ∪ dirs disk |}.

Definition upload_events (disk : FileSystem) : list event :=
  (if present disk saveDir_of then [] else [DirMade saveDir_of])
  ++ [FileWritten tempFilePath_of buffer_of].

Definition plotsDir_of : jsstring := path_join P saveDir_of (js "plots").

Definition plotPath_of (col : jsstring) : jsstring :=
  path_join P plotsDir_of
    (col ++ js "_histogram_" ++ dec (Date_now W) ++ js ".html").

Definition plot_page (data : list DataRow) (col : jsstring) : list N :=
  chartHtml P col (bins (column_values (StringToNumber P) data col))
                  (counts (column_values (StringToNumber P) data col)).

(** The disk after the chart pages of the columns [cols] are written, and
    the calls of that stage. *)
Definition plots_disk (disk : FileSystem) (data : list DataRow)
    (cols : list jsstring) : FileSystem :=
  {| files := fold_left (fun m col => <[plotPath_of col := plot_page data col]> m)
                        cols (files disk);
     dirs := if present disk plotsDir_of then dirs disk
             else {[plotsDir_of]} ∪ dirs disk |}.

Definition plots_events (disk : FileSystem) (data : list DataRow)
    (cols : list jsstring) : list event :=
  (if present disk plotsDir_of then [] else [DirMade plotsDir_of])
  ++ map (fun col => FileWritten (plotPath_of col) (plot_page data col)) cols.

Definition analysisPath_of : jsstring :=
  path_join P saveDir_of (js "analysis_" ++ dec (Date_now W) ++ js ".txt").

Definition reportPath_of : jsstring :=
  path_join P saveDir_of (js "report_" ++ dec (Date_now W) ++ js ".html").

(** The outcome of the report stage from the disk [disk], the disk it
    leaves and the calls it makes. *)
Definition report_run (disk : FileSystem) (data : list DataRow)
    : (thrown + ToolResult) * FileSystem * list event :=
  match data, summarize (StringToNumber P) data with
  | row0 :: _, Some statistics =>
      let cols := numericColumns row0 in
      let prompt :=
        analysisPrompt P data statistics (AnalyzeDataArgs.analysisType a) in
      match generateContent W 0 prompt with
      | inl e =>
          (inl e, plots_disk disk data cols,
           plots_events disk data cols ++ [Generated prompt (inl e)])
      | inr analysisText =>
          let report :=
            htmlReport P statistics analysisText (map plotPath_of cols) saveDir_of in
          (inr (text_result
                  (analysisSummary P (AnalyzeDataArgs.fileName a)
                     (AnalyzeDataArgs.analysisType a) statistics
                     reportPath_of analysisPath_of plotsDir_of)),
           {| files := <[reportPath_of := report]>
                         (<[analysisPath_of := analysisText]>
                            (files (plots_disk disk data cols)));
              dirs := dirs (plots_disk disk data cols) |},
           plots_events disk data cols
           ++ [Generated prompt (inr analysisText);
               FileWritten analysisPath_of analysisText;
               FileWritten reportPath_of report])
      end
  | _, _ =>
      (inl (ErrorObject (js "TypeError")
              (js "Cannot convert undefined or null to object")),
       disk, [])
  end.

End AnalyzeRun.

(** ** The run of [generate-thinking], read off its collaborators *)

Section ThinkingRun.

Variable P : Platform.
Variable W : World.
Variable a : GenerateThinkingArgs.t.

(** The directory [generate-thinking] saves under. *)
Definition thinkingDir_of : jsstring :=
  if truthy (GenerateThinkingArgs.outputDir a)
  then path_resolve P (default [] (GenerateThinkingArgs.outputDir a))
  else outputDir P.

Definition thinkingPath_of : jsstring :=
  path_join P thinkingDir_of
    (js "gemini_thinking_" ++ dec (Date_now W) ++ js ".txt").

(** The disk once the directory is there, and the call that made it. *)
Definition thinking_disk (disk : FileSystem) : FileSystem :=
  {| files := files disk;
     dirs := if present disk thinkingDir_of then dirs disk
             else {[thinkingDir_of]} ∪ dirs disk |}.

Definition thinking_events (disk : FileSystem) : list event :=
  if present disk thinkingDir_of then [] else [DirMade thinkingDir_of].

End ThinkingRun.

Definition introspection_error : thrown :=
  ErrorObject (js "TypeError") (js "Cannot convert undefined or null to object").

(** Order and NaN-freedom of number lists, for the statements below. *)


Definition nan_free (l : list float) : Prop :=
  Forall (fun x => is_nan x = false) l.


(** The table of the specification's example, and a [StringToNumber] to run
    it with (no string of it is coerced). *)
Definition example_table : list DataRow :=
  [ [(js "a", CNum 1); (js "b", CStr (js "x"))];
    [(js "a", CNum 2); (js "b", CStr (js "y"))];
    [(js "a", CNum 3); (js "b", CStr (js "z"))] ].

Definition no_numeric_strings (s : jsstring) : float := nan.

(** A table whose second row holds text in the numeric column [a]. *)
Definition mixed_table : list DataRow :=
  [ [(js "a", CNum 1); (js "b", CStr (js "x"))];
    [(js "a", CStr (js "n/a")); (js "b", CStr (js "y"))];
    [(js "a", CNum 3); (js "b", CStr (js "z"))] ].


(** The first row of [data] holds a number under [col]. *)
Definition first_row_numeric (data : list DataRow) (col : jsstring) : Prop :=
  exists row0 rest x, data = row0 :: rest /\ row_get row0 col = Some (CNum x).

(** ** Sample collaborators and requests *)

Definition empty_disk : FileSystem := {| files := ∅; dirs := ∅ |}.

(** A platform to run the samples on: POSIX joins of plain paths, file
    contents standing for their own decoding, an empty CSV file for no rows
    and any workbook for the example table, and pages cut down to one of
    their parts. *)
Definition sample_platform : Platform :=
  {| StringToNumber := no_numeric_strings;
     path_join := fun a b => a ++ js "/" ++ b;
     path_resolve := fun p => p;
     outputDir := js "/srv/mcp/output";
     Buffer_from_base64 := fun fileData => fileData;
     Papa_parse := fun content =>
       match content with [] => [] | _ => example_table end;
     XLSX_rows := fun _ => inr example_table;
     htmlResponse := fun responseText => responseText;
     styledHtmlResponse := fun _ html _ => html;
     chartHtml := fun col _ _ => col;
     analysisPrompt := fun _ _ analysisType => analysisType;
     htmlReport := fun _ analysisText _ _ => analysisText;
     analysisSummary := fun fileName _ _ _ _ _ => fileName;
     ZodError_message := fun _ => js "invalid arguments" |}.

(** A call in which every collaborator answers. *)
Definition sample_world : World :=
  {| generateContent := fun _ _ => inr (js "Quarterly Revenue Report for the Board");
     sendMail := fun _ => inr (js "<1@mail.example.com>");
     Date_now := 1730000000000%N;
     NODEMAILER_EMAIL := Some (js "bot@example.com");
     NODEMAILER_PASSWORD := Some (js "app-password") |}.



Definition model_unavailable : thrown :=
  ErrorObject (js "Error") (js "[503 Service Unavailable] The model is overloaded.").

(** The same call with the generative-language service failing. *)
Definition model_down_world : World :=
  {| generateContent := fun _ _ => inl model_unavailable;
     sendMail := sendMail sample_world;
     Date_now := Date_now sample_world;
     NODEMAILER_EMAIL := NODEMAILER_EMAIL sample_world;
     NODEMAILER_PASSWORD := NODEMAILER_PASSWORD sample_world |}.

Definition email_fields (text : jsstring) : list (jsstring * json) :=
  [ (js "to", JString (js "cfo@example.com"));
    (js "subjectPrompt", JString (js "the quarterly revenue report"));
    (js "text", JString text) ].

Definition analyze_fields (fileData fileName analysisType : string)
    : list (jsstring * json) :=
  [ (js "fileData", JString (js fileData));
    (js "fileName", JString (js fileName));
    (js "analysisType", JString (js analysisType)) ].

(** The disk after the start-up code of the server, which makes the output
    directory when it is not there. *)
Definition startup (P : Platform) (disk : FileSystem) : FileSystem :=
  if present disk (outputDir P) then disk
  else {| files := files disk; dirs := {[outputDir P]} ∪ dirs disk |}.

Definition sample_disk : FileSystem := startup sample_platform empty_disk.

(** A call with arguments that validate, for each of the two tools below. *)
Definition email_args (text : string) : option json :=
  Some (JObject (email_fields (js text))).

Definition analyze_args (fileData fileName analysisType : string) : option json :=
  Some (JObject (analyze_fields fileData fileName analysisType)).

(** A model whose first subject proposes options and whose second one is
    too long. *)
Definition wordy_world : World :=
  {| generateContent := fun n _ =>
       match n with
       | O => inr (js "Here are some options:
**Option 1:** Q3 Revenue Report
**Option 2:** Quarterly Numbers")
       | _ => inr (js "Subject: Third Quarter Revenue Report and Forecast for the Board of Directors Meeting")
       end;
     sendMail := sendMail sample_world;
     Date_now := Date_now sample_world;
     NODEMAILER_EMAIL := NODEMAILER_EMAIL sample_world;
     NODEMAILER_PASSWORD := NODEMAILER_PASSWORD sample_world |}.

(** Two values whose difference overflows, and 400 values in the subnormal
    range. *)
Definition overflow_values : list float :=
  [-0x1.fffffffffffffp+1023; 0x1.fffffffffffffp+1023].

Definition subnormal_values : list float :=
  repeat 0 399 ++ [0x0.000000000001ep-1022].

(** The call of [sample_world] without the password of the mail account. *)
Definition no_password_world : World :=
  {| generateContent := generateContent sample_world;
     sendMail := sendMail sample_world;
     Date_now := Date_now sample_world;
     NODEMAILER_EMAIL := NODEMAILER_EMAIL sample_world;
     NODEMAILER_PASSWORD := None |}.

Definition email_with_html (text html : string) : option json :=
  Some (JObject (email_fields (js text) ++ [(js "html", JString (js html))])).

(** A [generate-thinking] call with a prompt and no directory. *)
Definition thinking_args (prompt : string) : option json :=
  Some (JObject [ (js "prompt", JString (js prompt)) ]).

(** A table of names only, and a platform that finds it in every CSV file
    and whose workbook reader rejects every file. *)
Definition names_table : list DataRow :=
  [ [(js "name", CStr (js "Ada")); (js "city", CStr (js "London"))];
    [(js "name", CStr (js "Alan")); (js "city", CNum 7)] ].

Definition unreadable_workbook : thrown :=
  ErrorObject (js "Error") (js "File is password-protected").

Definition names_platform : Platform :=
  {| StringToNumber := StringToNumber sample_platform;
     path_join := path_join sample_platform;
     path_resolve := path_resolve sample_platform;
     outputDir := outputDir sample_platform;
     Buffer_from_base64 := Buffer_from_base64 sample_platform;
     Papa_parse := fun _ => names_table;
     XLSX_rows := fun _ => inl unreadable_workbook;
     htmlResponse := htmlResponse sample_platform;
     styledHtmlResponse := styledHtmlResponse sample_platform;
     chartHtml := chartHtml sample_platform;
     analysisPrompt := analysisPrompt sample_platform;
     htmlReport := htmlReport sample_platform;
     analysisSummary := analysisSummary sample_platform;
     ZodError_message := ZodError_message sample_platform |}.

(** ** Vocabulary of the proofs *)

(** The least exponent of binary64. *)
Definition emin64 : Z := (-1074)%Z.


(** The signed mantissa of a finite value at the exponent [ez]. *)
Definition aligned (s : bool) (m : positive) (e ez : Z) : Z :=
  cond_Zopp s (Zpos m * 2 ^ (e - ez))%Z.

(** Zero, a positive number or [+Infinity]. *)
Definition nonneg (x : spec_float) : Prop :=
  match x with
  | S754_zero false | S754_infinity false | S754_finite false _ _ => True
  | _ => False
  end.

(** The issues are not empty and all located at or under [path]. *)
Definition under (path : list path_segment) (issues : list ZodIssue) : Prop :=
  issues <> [] /\
  Forall (fun issue => exists rest, issue_path issue = path ++ rest) issues.

(** The schema of one image. *)
Definition image_schema : ZodType Image.t :=
  z_object (z_and (z_and (z_build Image.mk)
     (z_key "name" z_string))
     (z_key "data" z_string)).

(** No two white-space code units of [s] are next to each other. *)
Fixpoint single_spaced (s : jsstring) : bool :=
  match s with
  | [] => true
  | c :: rest =>
      match rest with
      | d :: _ => negb (is_space c && is_space d)
      | [] => true
      end && single_spaced rest
  end.

(** The first code unit of [s], if any, is no white space. *)
Definition starts_clean (s : jsstring) : Prop :=
  match s with c :: _ => is_space c = false | [] => True end.

(** A subject as the clean-up leaves it: no formatting marker, no white
    space but single spaces, none of them at either end. *)
Definition tidy (s : jsstring) : Prop :=
  ~ In 42%N s /\ ~ In 95%N s /\
  (forall c, In c s -> is_space c = true -> c = 32%N) /\
  single_spaced s = true /\
  starts_clean s /\ starts_clean (rev s).

(** The event is a change of the file system. *)
Definition is_disk_event (ev : event) : bool :=
  match ev with
  | DirMade _ | FileWritten _ _ => true
  | _ => false
  end.

Definition is_mail_sent (ev : event) : bool :=
  match ev with MailSent _ _ => true | _ => false end.

(** The place of a number on the integer line that orders the numbers: a
    finite number is its value in units of [2^-1074], and the infinities
    lie beyond every finite number. *)
Definition rank (x : spec_float) : Z :=
  match x with
  | S754_zero _ => 0
  | S754_infinity s => cond_Zopp s (2 ^ 2100)
  | S754_nan => 0
  | S754_finite s m e => cond_Zopp s (Zpos m * 2 ^ (e + 1074))
  end%Z.

(** NaN, zero, a positive number or [+Infinity]. *)
Definition not_negative (x : spec_float) : Prop := x = S754_nan \/ nonneg x.

(** A zero of either sign, a positive number or [+Infinity]. *)
Definition zero_or_positive (x : spec_float) : Prop :=
  match x with
  | S754_zero _ | S754_infinity false | S754_finite false _ _ => True
  | _ => False
  end.

(** A parse that gave a value. *)
Definition accepted {A} (r : list ZodIssue + A) : bool :=
  match r with inr _ => true | inl _ => false end.

(** * Properties *)

(** ** Binary64 facts

    What the statistics code relies on when it sorts with the comparator
    [(a, b) => a - b], filters with [isNaN] and divides by the bin width:
    derived from the specification of the primitive operations
    ([FloatAxioms]). *)

Module Binary64.
Local Open Scope Z_scope.

Lemma emin64_eq : SpecFloat.emin prec emax = emin64.
Proof. reflexivity. Qed.

Lemma fexp_eq e : fexp prec emax e = Z.max (e - 53) emin64.
Proof. reflexivity. Qed.

Lemma digits2_pos_bounds (m : positive) :
  2 ^ (Zpos (digits2_pos m) - 1) <= Zpos m < 2 ^ Zpos (digits2_pos m).
Proof.
  induction m as [m IH|m IH|]; cbn [digits2_pos].
  - rewrite Pos2Z.inj_succ.
    replace (Z.succ (Zpos (digits2_pos m)) - 1) with (Zpos (digits2_pos m) - 1 + 1) by lia.
    rewrite Z.pow_succ_r by lia.
    destruct (Z.eq_dec (Zpos (digits2_pos m)) 1) as [E|E].
    + rewrite E in *. simpl in *. lia.
    + rewrite Z.pow_add_r by lia. change (2 ^ 1) with 2. lia.
  - rewrite Pos2Z.inj_succ.
    replace (Z.succ (Zpos (digits2_pos m)) - 1) with (Zpos (digits2_pos m) - 1 + 1) by lia.
    rewrite Z.pow_succ_r by lia.
    rewrite Z.pow_add_r by lia. change (2 ^ 1) with 2. lia.
  - simpl. lia.
Qed.

(** Right shifts of the rounding machinery. *)
Lemma shr_1_m (r : shr_record) :
  0 <= shr_m r -> shr_m (shr_1 r) = shr_m r / 2.
Proof.
  destruct r as [m r s]; cbn [shr_m]; intros Hm.
  destruct m as [|p|p]; [reflexivity| |lia].
  destruct p as [p|p|]; cbn [shr_1 shr_m].
  - rewrite Pos2Z.inj_xI. apply Z.div_unique with (r := 1); lia.
  - rewrite Pos2Z.inj_xO. apply Z.div_unique with (r := 0); lia.
  - reflexivity.
Qed.

Lemma iter_shr_1_m (p : positive) : forall r : shr_record,
  0 <= shr_m r -> shr_m (SpecFloat.iter_pos shr_1 p r) = shr_m r / 2 ^ Zpos p.
Proof.
  assert (Hstep : forall r, 0 <= shr_m r -> 0 <= shr_m (shr_1 r)).
  { intros r Hr. rewrite shr_1_m by assumption. apply Z.div_pos; lia. }
  induction p as [p IH|p IH|]; intros r Hr; cbn [SpecFloat.iter_pos].
  - rewrite IH, IH, shr_1_m by (try rewrite IH; try apply Z.div_pos; auto; lia).
    rewrite !Z.div_div by lia.
    f_equal. rewrite (Pos2Z.inj_xI p).
    replace (2 * Zpos p + 1) with (1 + Zpos p + Zpos p) by lia.
    rewrite !Z.pow_add_r by lia. change (2 ^ 1) with 2. lia.
  - rewrite IH, IH by (try rewrite IH; try apply Z.div_pos; auto; lia).
    rewrite !Z.div_div by lia.
    f_equal. rewrite (Pos2Z.inj_xO p).
    replace (2 * Zpos p) with (Zpos p + Zpos p) by lia.
    rewrite !Z.pow_add_r by lia. lia.
  - rewrite shr_1_m by assumption. reflexivity.
Qed.

Lemma shr_record_of_loc_m m l : shr_m (shr_record_of_loc m l) = m.
Proof. destruct l as [|[]]; reflexivity. Qed.

Lemma Zdigits2_pos_bounds (m : Z) :
  0 < m -> 0 < Zdigits2 m /\ 2 ^ (Zdigits2 m - 1) <= m < 2 ^ Zdigits2 m.
Proof.
  destruct m as [|p|p]; try lia. intros _. cbn [Zdigits2].
  split; [lia | apply digits2_pos_bounds].
Qed.


Lemma round_nearest_even_ge m l : m <= round_nearest_even m l.
Proof.
  destruct l as [|[]]; cbn [round_nearest_even]; try lia.
  destruct (Z.even m); lia.
Qed.


Lemma iter_xO_val (m d : positive) :
  Zpos (Pos.iter xO m d) = Zpos m * 2 ^ Zpos d.
Proof.
  revert m. induction d as [|d IH] using Pos.peano_ind; intros m.
  - cbn [Pos.iter]. rewrite (Pos2Z.inj_xO m). change (2 ^ 1) with 2. lia.
  - rewrite Pos.iter_succ, (Pos2Z.inj_xO (Pos.iter xO m d)), IH, Pos2Z.inj_succ, Z.pow_succ_r; lia.
Qed.

Lemma shl_align_val (m : positive) (e e' : Z) :
  e' <= e -> Zpos (fst (shl_align m e e')) = Zpos m * 2 ^ (e - e').
Proof.
  intros H. unfold shl_align.
  destruct (e' - e) as [|d|d] eqn:E; cbn [fst]; try lia.
  - replace (e - e') with 0 by lia. lia.
  - rewrite iter_xO_val. f_equal. f_equal. lia.
Qed.

Lemma shl_align_exp (m : positive) (e e' : Z) :
  snd (shl_align m e e') = Z.min e e'.
Proof.
  unfold shl_align. destruct (e' - e) as [|d|d] eqn:E; cbn [snd]; lia.
Qed.


(** What validity says about a finite binary64 value. *)
Lemma bounded_inv (m : positive) (e : Z) :
  bounded prec emax m e = true ->
  emin64 <= e /\ Zpos (digits2_pos m) <= 53 /\
  (e = emin64 \/ Zpos (digits2_pos m) = 53).
Proof.
  unfold bounded, canonical_mantissa. rewrite fexp_eq.
  intros H. apply andb_true_iff in H as [H _]. apply Z.eqb_eq in H. lia.
Qed.

(** Magnitudes of two valid finite values, aligned at the smaller exponent,
    compare as [SFcompare] compares them: exponent first, then mantissa. *)
Lemma magnitude_compare (mx my : positive) (ex ey : Z) :
  bounded prec emax mx ex = true -> bounded prec emax my ey = true ->
  match ex ?= ey with
  | Lt => Lt
  | Gt => Gt
  | Eq => Pos.compare_cont Eq mx my
  end = (Zpos mx * 2 ^ (ex - Z.min ex ey) ?= Zpos my * 2 ^ (ey - Z.min ex ey)).
Proof.
  intros Bx By.
  destruct (bounded_inv _ _ Bx) as [Hex [Hdx Hcx]].
  destruct (bounded_inv _ _ By) as [Hey [Hdy Hcy]].
  pose proof (digits2_pos_bounds mx) as [Lx Ux].
  pose proof (digits2_pos_bounds my) as [Ly Uy].
  assert (P53 : forall d, d <= 53 -> 2 ^ d <= 2 ^ 53)
    by (intros; apply Z.pow_le_mono_r; lia).
  destruct (Z.compare_spec ex ey) as [E|L|G]; symmetry.
  - subst ey. rewrite Z.min_id, Z.sub_diag, !Z.mul_1_r. reflexivity.
  - rewrite Z.min_l, Z.sub_diag, Z.mul_1_r by lia.
    apply Z.compare_lt_iff.
    assert (Hd : Zpos (digits2_pos my) = 53) by lia. rewrite Hd in Ly.
    assert (2 ^ 1 <= 2 ^ (ey - ex)) by (apply Z.pow_le_mono_r; lia).
    change (2 ^ 1) with 2 in *. change (2 ^ (53 - 1)) with 4503599627370496 in Ly.
    specialize (P53 _ Hdx). change (2 ^ 53) with 9007199254740992 in P53. nia.
  - rewrite Z.min_r, Z.sub_diag, Z.mul_1_r by lia.
    apply Z.compare_gt_iff.
    assert (Hd : Zpos (digits2_pos mx) = 53) by lia. rewrite Hd in Lx.
    assert (2 ^ 1 <= 2 ^ (ex - ey)) by (apply Z.pow_le_mono_r; lia).
    change (2 ^ 1) with 2 in *. change (2 ^ (53 - 1)) with 4503599627370496 in Lx.
    specialize (P53 _ Hdy). change (2 ^ 53) with 9007199254740992 in P53. nia.
Qed.

Lemma SFcompare_aligned sx mx ex sy my ey :
  bounded prec emax mx ex = true -> bounded prec emax my ey = true ->
  SFcompare (S754_finite sx mx ex) (S754_finite sy my ey) =
  Some (aligned sx mx ex (Z.min ex ey) ?= aligned sy my ey (Z.min ex ey)).
Proof.
  intros Bx By. pose proof (magnitude_compare mx my ex ey Bx By) as M.
  assert (Px : 0 < Zpos mx * 2 ^ (ex - Z.min ex ey))
    by (apply Z.mul_pos_pos; [lia|apply Z.pow_pos_nonneg; lia]).
  assert (Py : 0 < Zpos my * 2 ^ (ey - Z.min ex ey))
    by (apply Z.mul_pos_pos; [lia|apply Z.pow_pos_nonneg; lia]).
  unfold aligned, SFcompare.
  destruct sx, sy; cbn [cond_Zopp]; f_equal.
  - rewrite Z.compare_opp, (Z.compare_antisym (Zpos mx * _)), <- M.
    destruct (ex ?= ey); reflexivity.
  - symmetry. apply Z.compare_lt_iff. lia.
  - symmetry. apply Z.compare_gt_iff. lia.
  - exact M.
Qed.


Lemma SFcompare_refl (x : spec_float) :
  x <> S754_nan -> SFcompare x x = Some Eq.
Proof.
  destruct x as [s|s| |s m e]; intros N; try congruence;
    try (destruct s; reflexivity).
  cbn [SFcompare]. rewrite Z.compare_refl, Pos.compare_cont_refl.
  destruct s; reflexivity.
Qed.

Lemma SFcompare_antisym (x y : spec_float) :
  SFcompare y x = option_map CompOpp (SFcompare x y).
Proof.
  destruct x as [sx|sx| |sx mx ex], y as [sy|sy| |sy my ey];
    try reflexivity; try (destruct sx, sy; reflexivity);
    try (destruct sx; reflexivity); try (destruct sy; reflexivity).
  cbn [SFcompare option_map].
  change (Pos.compare_cont Eq my mx) with (Pos.compare_cont (CompOpp Eq) my mx).
  rewrite (Z.compare_antisym ex ey), <- (Pos.compare_cont_antisym mx my Eq).
  destruct sx, sy; cbn [CompOpp]; try reflexivity;
    destruct (ex ?= ey); cbn [CompOpp]; try reflexivity;
    destruct (Pos.compare_cont Eq mx my); reflexivity.
Qed.

Lemma SFcompare_nan_free (x y : spec_float) :
  x <> S754_nan -> y <> S754_nan -> exists c, SFcompare x y = Some c.
Proof.
  destruct x as [sx|sx| |sx mx ex], y as [sy|sy| |sy my ey];
    intros Nx Ny; try congruence; cbn [SFcompare]; eauto.
Qed.

Lemma SFltb_SFleb (x y : spec_float) :
  x <> S754_nan -> y <> S754_nan -> SFltb y x = negb (SFleb x y).
Proof.
  intros Nx Ny. unfold SFltb, SFleb. rewrite (SFcompare_antisym x y).
  destruct (SFcompare_nan_free x y Nx Ny) as [c ->]. destruct c; reflexivity.
Qed.

(** *** Rounding and division

    What the histogram relies on when it divides the range of a column
    into bins and a distance by the bin width. *)

Lemma Zdigits2_le (a d : Z) : 0 <= d -> 0 <= a < 2 ^ d -> Zdigits2 a <= d.
Proof.
  intros Hd [Ha Hlt].
  destruct (Z.eq_dec a 0) as [->|Hne]; [cbn; lia|].
  destruct (Zdigits2_pos_bounds a ltac:(lia)) as [Hp [Hlo _]].
  assert (2 ^ (Zdigits2 a - 1) < 2 ^ d) by lia.
  apply Z.pow_lt_mono_r_iff in H; lia.
Qed.

Lemma Zdigits2_ge (a d : Z) : 0 <= d -> 2 ^ d <= a -> d < Zdigits2 a.
Proof.
  intros Hd Hle.
  assert (0 < a) by (pose proof (Z.pow_pos_nonneg 2 d); lia).
  destruct (Zdigits2_pos_bounds a H) as [Hp [_ Hhi]].
  assert (2 ^ d < 2 ^ Zdigits2 a) by lia.
  apply Z.pow_lt_mono_r_iff in H0; lia.
Qed.

Lemma shr_fexp_spec (m e : Z) (l : location) :
  0 <= m ->
  snd (shr_fexp prec emax m e l) = Z.max (fexp prec emax (Zdigits2 m + e)) e /\
  shr_m (fst (shr_fexp prec emax m e l))
  = m / 2 ^ (Z.max (fexp prec emax (Zdigits2 m + e)) e - e).
Proof.
  intros Hm. unfold shr_fexp, shr.
  destruct (fexp prec emax (Zdigits2 m + e) - e) as [|p|p] eqn:En; cbn [fst snd].
  - rewrite shr_record_of_loc_m. replace (Z.max _ e - e) with 0 by lia.
    rewrite Z.div_1_r. split; lia.
  - rewrite iter_shr_1_m by (rewrite shr_record_of_loc_m; lia).
    rewrite shr_record_of_loc_m.
    replace (Z.max (fexp prec emax (Zdigits2 m + e)) e - e) with (Zpos p) by lia.
    split; [lia|reflexivity].
  - rewrite shr_record_of_loc_m. replace (Z.max _ e - e) with 0 by lia.
    rewrite Z.div_1_r. split; lia.
Qed.

Lemma round_nearest_even_le m l : round_nearest_even m l <= m + 1.
Proof.
  destruct l as [|[]]; cbn [round_nearest_even]; try lia.
  destruct (Z.even m); lia.
Qed.

(** Digits of a quotient by a power of two. *)
Lemma Zdigits2_shift (m k : Z) :
  0 <= m -> 0 <= k -> Zdigits2 (m / 2 ^ k) <= Z.max 0 (Zdigits2 m - k).
Proof.
  intros Hm Hk.
  destruct (Z.eq_dec m 0) as [->|Hne].
  { rewrite Z.div_0_l by (apply Z.pow_nonzero; lia). cbn. lia. }
  destruct (Zdigits2_pos_bounds m ltac:(lia)) as [Hp [Hlo Hhi]].
  assert (P : 0 < 2 ^ k) by (apply Z.pow_pos_nonneg; lia).
  destruct (Z_lt_le_dec (Zdigits2 m) k) as [L|L].
  - assert (m / 2 ^ k = 0).
    { apply Z.div_small. split; [lia|].
      eapply Z.lt_le_trans; [exact Hhi|]. apply Z.pow_le_mono_r; lia. }
    rewrite H. cbn. lia.
  - apply Zdigits2_le; [lia|]. split; [apply Z.div_pos; lia|].
    apply Z.div_lt_upper_bound; [lia|].
    replace (Z.max 0 (Zdigits2 m - k)) with (Zdigits2 m - k) by lia.
    rewrite <- Z.pow_add_r by lia.
    replace (k + (Zdigits2 m - k)) with (Zdigits2 m) by lia. exact Hhi.
Qed.

Lemma Zdigits2_small (m : Z) : 0 <= m -> Zdigits2 m <= 53 -> m < 2 ^ 53.
Proof.
  intros Hm Hd. destruct (Z.eq_dec m 0) as [->|Hne]; [reflexivity|].
  destruct (Zdigits2_pos_bounds m ltac:(lia)) as [Hp [_ Hhi]].
  eapply Z.lt_le_trans; [exact Hhi|]. apply Z.pow_le_mono_r; lia.
Qed.

(** What rounding to nearest makes of a mantissa [m >= 0] at exponent [e],
    whatever the location: the floor [m1] of the mantissa at the exponent
    [e1] of the format, or one more. *)
Lemma binary_round_aux_bounds (m e : Z) (l : location) :
  0 <= m ->
  let e1 := Z.max (fexp prec emax (Zdigits2 m + e)) e in
  let m1 := m / 2 ^ (e1 - e) in
  match binary_round_aux prec emax false m e l with
  | S754_zero s => s = false /\ m1 = 0
  | S754_infinity s => s = false
  | S754_nan => False
  | S754_finite s mr er =>
      s = false /\ (er = e1 \/ er = e1 + 1) /\
      m1 <= Zpos mr * 2 ^ (er - e1) <= m1 + 1
  end.
Proof.
  intros Hm e1 m1. unfold binary_round_aux.
  destruct (shr_fexp_spec m e l Hm) as [He1 Hm1].
  destruct (shr_fexp prec emax m e l) as [mrs' e'] eqn:E1. cbn [fst snd] in *.
  fold e1 in He1, Hm1. fold m1 in Hm1. subst e'.
  assert (He : e <= e1) by (unfold e1; lia).
  assert (Hm1pos : 0 <= m1) by (apply Z.div_pos; [lia|apply Z.pow_pos_nonneg; lia]).
  assert (Hd1 : Zdigits2 m1 <= 53).
  { pose proof (Zdigits2_shift m (e1 - e) Hm ltac:(lia)) as H. fold m1 in H.
    unfold e1 in *. rewrite fexp_eq in *. lia. }
  assert (Hemin : emin64 <= e1) by (unfold e1; rewrite fexp_eq; lia).
  pose proof (Zdigits2_small m1 Hm1pos Hd1) as Hsmall.
  set (m2 := round_nearest_even (shr_m mrs') (loc_of_shr_record mrs')).
  assert (Hm2 : m1 <= m2 <= m1 + 1).
  { unfold m2. rewrite Hm1. split;
      [apply round_nearest_even_ge|apply round_nearest_even_le]. }
  destruct (shr_fexp_spec m2 e1 loc_Exact ltac:(lia)) as [He2 Hm3].
  destruct (shr_fexp prec emax m2 e1 loc_Exact) as [mrs'' e''] eqn:E2.
  cbn [fst snd] in *. rewrite fexp_eq in He2, Hm3.
  destruct (Z.eq_dec m2 (2 ^ 53)) as [Htop|Hnot].
  - rewrite Htop in He2, Hm3. change (Zdigits2 (2 ^ 53)) with 54 in He2, Hm3.
    assert (He'' : e'' = e1 + 1) by (unfold emin64 in *; lia).
    replace (Z.max (Z.max (54 + e1 - 53) emin64) e1 - e1) with 1 in Hm3
      by (unfold emin64 in *; lia).
    change (2 ^ 53 / 2 ^ 1) with 4503599627370496 in Hm3. rewrite Hm3.
    destruct (e'' <=? emax - prec); [|reflexivity].
    split; [reflexivity|]. split; [now right|].
    rewrite He''. replace (e1 + 1 - e1) with 1 by lia.
    change (4503599627370496 * 2 ^ 1) with (2 ^ 53). lia.
  - assert (Hd2 : Zdigits2 m2 <= 53) by (apply Zdigits2_le; lia).
    assert (He'' : e'' = e1) by lia.
    replace (Z.max (Z.max (Zdigits2 m2 + e1 - 53) emin64) e1 - e1) with 0 in Hm3 by lia.
    rewrite Z.div_1_r in Hm3. rewrite Hm3.
    destruct m2 as [|p|p]; [split; [reflexivity|lia]| |lia].
    destruct (e'' <=? emax - prec); [|reflexivity].
    split; [reflexivity|]. split; [now left|].
    rewrite He'', Z.sub_diag, Z.mul_1_r. exact Hm2.
Qed.

Lemma SFdiv_core_binary_spec (mx my : positive) (ex ey : Z) :
  let e' := Z.min (fexp prec emax (Zdigits2 (Zpos mx) + ex - (Zdigits2 (Zpos my) + ey)))
                  (ex - ey) in
  exists l,
    SFdiv_core_binary prec emax (Zpos mx) ex (Zpos my) ey
    = (Zpos mx * 2 ^ (ex - ey - e') / Zpos my, e', l).
Proof.
  intros e'. unfold SFdiv_core_binary. fold e'.
  assert (Hs : 0 <= ex - ey - e') by (unfold e'; lia).
  set (m' := match ex - ey - e' with
             | 0 => Zpos mx
             | Zpos _ => Z.shiftl (Zpos mx) (ex - ey - e')
             | Zneg _ => 0
             end).
  assert (Hm' : m' = Zpos mx * 2 ^ (ex - ey - e')).
  { unfold m'. destruct (ex - ey - e') as [|p|p] eqn:E; [lia| |lia].
    now rewrite Z.shiftl_mul_pow2 by lia. }
  rewrite <- Hm'. unfold Z.div.
  destruct (Z.div_eucl m' (Zpos my)) as [q r]. eauto.
Qed.

(** The quotient of two positive finite numbers: the result of the
    division is the floor [m1] of the exact quotient at the exponent [e1]
    of the format, or one unit more; [m1] has 53 digits unless [e1] is the
    least exponent. *)
Lemma SFdiv_bounds (mx my : positive) (ex ey : Z) :
  exists s d m1 : Z,
    0 <= s /\ 0 <= d /\ 0 <= m1 /\
    m1 * (Zpos my * 2 ^ d) <= Zpos mx * 2 ^ s < (m1 + 1) * (Zpos my * 2 ^ d) /\
    (ex - ey - s + d = emin64 \/ 2 ^ 52 <= m1) /\
    emin64 <= ex - ey - s + d /\
    match SFdiv prec emax (S754_finite false mx ex) (S754_finite false my ey) with
    | S754_zero sg => sg = false /\ m1 = 0
    | S754_infinity sg => sg = false
    | S754_nan => False
    | S754_finite sg mr er =>
        sg = false /\
        (er = ex - ey - s + d \/ er = ex - ey - s + d + 1) /\
        m1 <= Zpos mr * 2 ^ (er - (ex - ey - s + d)) <= m1 + 1
    end.
Proof.
  set (d1 := Zdigits2 (Zpos mx)). set (d2 := Zdigits2 (Zpos my)).
  set (e' := Z.min (fexp prec emax (d1 + ex - (d2 + ey))) (ex - ey)).
  destruct (SFdiv_core_binary_spec mx my ex ey) as [l Hcore].
  fold d1 d2 e' in Hcore.
  set (s := ex - ey - e') in *.
  set (q := Zpos mx * 2 ^ s / Zpos my) in *.
  set (e1 := Z.max (fexp prec emax (Zdigits2 q + e')) e').
  set (m1 := q / 2 ^ (e1 - e')).
  assert (Hs : 0 <= s) by (unfold s, e'; lia).
  assert (Hd : 0 <= e1 - e') by (unfold e1; lia).
  assert (P2s : 0 < 2 ^ s) by (apply Z.pow_pos_nonneg; lia).
  assert (P2d : 0 < 2 ^ (e1 - e')) by (apply Z.pow_pos_nonneg; lia).
  assert (Hq : 0 <= q) by (apply Z.div_pos; lia).
  assert (Hm1 : 0 <= m1) by (apply Z.div_pos; lia).
  exists s, (e1 - e'), m1.
  replace (ex - ey - s + (e1 - e')) with e1 by (unfold s; lia).
  split; [exact Hs|]. split; [exact Hd|]. split; [exact Hm1|].
  assert (Hm1eq : m1 = Zpos mx * 2 ^ s / (Zpos my * 2 ^ (e1 - e')))
    by (unfold m1, q; rewrite Z.div_div by lia; reflexivity).
  assert (Hpos : 0 < Zpos my * 2 ^ (e1 - e')) by lia.
  split.
  { rewrite Hm1eq.
    pose proof (Z.mul_div_le (Zpos mx * 2 ^ s) _ Hpos).
    pose proof (Z.mul_succ_div_gt (Zpos mx * 2 ^ s) _ Hpos). lia. }
  assert (Hemin : emin64 <= e1) by (unfold e1; rewrite fexp_eq; lia).
  split; [|split; [exact Hemin|]].
  - (* normalised unless at the least exponent *)
    destruct (Z.eq_dec e1 emin64) as [E|NE]; [now left|right].
    destruct (Zdigits2_pos_bounds (Zpos mx) ltac:(lia)) as [Hd1 [Lx Ux]].
    destruct (Zdigits2_pos_bounds (Zpos my) ltac:(lia)) as [Hd2 [Ly Uy]].
    fold d1 in Hd1, Lx, Ux. fold d2 in Hd2, Ly, Uy.
    assert (Hdq : 53 <= Zdigits2 q /\ e1 = Zdigits2 q + e' - 53).
    { destruct (Z_le_gt_dec e' emin64) as [Le|Gt].
      - unfold e1 in *. rewrite fexp_eq in *. lia.
      - assert (Hs0 : 53 - d1 + d2 <= s).
        { unfold s, e' in *. rewrite fexp_eq in *. lia. }
        assert (Hq52 : 2 ^ 52 <= q).
        { unfold q. apply Z.div_le_lower_bound; [lia|].
          assert (2 ^ (52 + d2) <= Zpos mx * 2 ^ s).
          { destruct (Z_le_gt_dec (53 - d1 + d2) 0) as [Neg|Pos].
            - assert (2 ^ (52 + d2) <= 2 ^ (d1 - 1)) by (apply Z.pow_le_mono_r; lia).
              nia.
            - assert (2 ^ (53 - d1 + d2) <= 2 ^ s) by (apply Z.pow_le_mono_r; lia).
              replace (52 + d2) with ((d1 - 1) + (53 - d1 + d2)) by lia.
              rewrite Z.pow_add_r by lia.
              assert (0 < 2 ^ (d1 - 1)) by (apply Z.pow_pos_nonneg; lia).
              assert (0 < 2 ^ (53 - d1 + d2)) by (apply Z.pow_pos_nonneg; lia).
              nia. }
          rewrite Z.pow_add_r in H by lia.
          assert (0 < 2 ^ 52) by reflexivity. nia. }
        pose proof (Zdigits2_ge q 52 ltac:(lia) Hq52).
        unfold e1 in *. rewrite fexp_eq in *. lia. }
    destruct Hdq as [Hdq He1].
    assert (Hqpos : 0 < q).
    { destruct (Z.eq_dec q 0) as [E0|]; [rewrite E0 in Hdq; cbn in Hdq; lia|lia]. }
    destruct (Zdigits2_pos_bounds q Hqpos) as [_ [Lq _]].
    unfold m1. replace (e1 - e') with (Zdigits2 q - 53) by lia.
    apply Z.div_le_lower_bound; [apply Z.pow_pos_nonneg; lia|].
    rewrite <- Z.pow_add_r by lia.
    replace (Zdigits2 q - 53 + 52) with (Zdigits2 q - 1) by lia. exact Lq.
  - unfold SFdiv. rewrite Hcore. cbn [xorb].
    exact (binary_round_aux_bounds q e' l Hq).
Qed.

Lemma shr_fexp_noshift (m e : Z) (l : location) :
  fexp prec emax (Zdigits2 m + e) <= e ->
  shr_fexp prec emax m e l = (shr_record_of_loc m l, e).
Proof.
  intros H. unfold shr_fexp, shr.
  destruct (fexp prec emax (Zdigits2 m + e) - e) eqn:E; try reflexivity. lia.
Qed.

(** A mantissa of 53 digits at an exponent of the format is kept as it
    is. *)
Lemma binary_round_aux_exact (m : positive) (e : Z) :
  Zdigits2 (Zpos m) = 53 -> emin64 <= e <= emax - prec ->
  binary_round_aux prec emax false (Zpos m) e loc_Exact = S754_finite false m e /\
  bounded prec emax m e = true.
Proof.
  intros Hd He.
  assert (Hf : fexp prec emax (Zdigits2 (Zpos m) + e) = e)
    by (rewrite fexp_eq, Hd; lia).
  split.
  - unfold binary_round_aux.
    rewrite shr_fexp_noshift by lia. cbn [shr_record_of_loc shr_m loc_of_shr_record
                                          round_nearest_even].
    rewrite shr_fexp_noshift by lia. cbn [shr_record_of_loc shr_m].
    destruct (Z.leb_spec e (emax - prec)); [reflexivity|lia].
  - unfold bounded, canonical_mantissa. cbn [Zdigits2] in Hf. rewrite Hf.
    rewrite Z.eqb_refl. apply Z.leb_le. lia.
Qed.

(** The binary64 value of an integer below [2^53]: exact. *)
Lemma binary_normalize_exact (q : Z) :
  0 < q < 2 ^ 53 ->
  exists mq : positive,
    binary_normalize prec emax q 0 false = S754_finite false mq (Zdigits2 q - 53) /\
    Zpos mq = q * 2 ^ (53 - Zdigits2 q) /\
    bounded prec emax mq (Zdigits2 q - 53) = true.
Proof.
  intros [Hq Hlt]. destruct q as [|p|p]; try lia.
  destruct (Zdigits2_pos_bounds (Zpos p) Hq) as [Hd [Lo Hi]].
  assert (Hd53 : Zdigits2 (Zpos p) <= 53) by (apply Zdigits2_le; lia).
  unfold binary_normalize, binary_round.
  change (Zpos (digits2_pos p)) with (Zdigits2 (Zpos p)).
  set (dq := Zdigits2 (Zpos p)) in *.
  assert (Hf : fexp prec emax (dq + 0) = dq - 53)
    by (rewrite fexp_eq; unfold emin64; lia).
  rewrite Hf.
  pose proof (shl_align_val p 0 (dq - 53) ltac:(lia)) as Hv.
  pose proof (shl_align_exp p 0 (dq - 53)) as Hx.
  destruct (shl_align p 0 (dq - 53)) as [mz ez]. cbn [fst snd] in Hv, Hx.
  replace (0 - (dq - 53)) with (53 - dq) in Hv by lia.
  subst ez. replace (Z.min 0 (dq - 53)) with (dq - 53) by lia.
  assert (Hdz : Zdigits2 (Zpos mz) = 53).
  { assert (2 ^ 52 <= Zpos mz < 2 ^ 53).
    { rewrite Hv. split.
      - replace 52 with ((dq - 1) + (53 - dq)) by lia.
        rewrite Z.pow_add_r by lia.
        apply Z.mul_le_mono_nonneg_r; [apply Z.pow_nonneg; lia|exact Lo].
      - replace 53 with (dq + (53 - dq)) at 2 by lia.
        rewrite Z.pow_add_r by lia.
        apply Z.mul_lt_mono_pos_r; [apply Z.pow_pos_nonneg; lia|exact Hi]. }
    pose proof (Zdigits2_le (Zpos mz) 53 ltac:(lia) ltac:(lia)).
    pose proof (Zdigits2_ge (Zpos mz) 52 ltac:(lia) ltac:(lia)). lia. }
  destruct (binary_round_aux_exact mz (dq - 53) Hdz) as [Hr Hb].
  { unfold emin64. change (emax - prec) with 971. lia. }
  exists mz. rewrite Hr. repeat split; assumption.
Qed.

Lemma binary_round_aux_nonneg (m e : Z) (l : location) :
  0 <= m -> nonneg (binary_round_aux prec emax false m e l).
Proof.
  intros Hm. pose proof (binary_round_aux_bounds m e l Hm) as H. cbv zeta in H.
  destruct (binary_round_aux prec emax false m e l) as [s|s| |s mr er];
    cbn [nonneg]; [destruct H as [-> _]|subst s|destruct H|destruct H as [-> _]];
    exact I.
Qed.

Lemma binary_normalize_nonneg (z : Z) :
  0 <= z -> nonneg (binary_normalize prec emax z 0 false).
Proof.
  intros Hz. destruct z as [|p|p]; [exact I| |lia].
  unfold binary_normalize, binary_round.
  destruct (shl_align p 0 _) as [mz ez].
  apply binary_round_aux_nonneg. lia.
Qed.

Lemma SFsqrt_nonneg (x : spec_float) :
  nonneg x -> nonneg (SFsqrt prec emax x).
Proof.
  destruct x as [[]|[]| |[] m e]; cbn [nonneg SFsqrt]; try tauto. intros _.
  unfold SFsqrt_core_binary.
  set (m' := match _ with 0 => Zpos m | Zpos _ => _ | Zneg _ => 0 end).
  assert (Hm' : 0 <= m').
  { unfold m'. destruct (e - 2 * _) eqn:E; try lia.
    apply Z.shiftl_nonneg. lia. }
  pose proof (Z.sqrtrem_spec m' Hm') as Hs.
  destruct (Z.sqrtrem m') as [q r].
  apply binary_round_aux_nonneg. lia.
Qed.

Lemma pow2_rescale (A B p q p' q' : Z) :
  (0 <= p -> 0 <= q -> 0 <= p' -> 0 <= q' -> p - q = p' - q' ->
   A * 2 ^ p <= B * 2 ^ q -> A * 2 ^ p' <= B * 2 ^ q')%Z.
Proof.
  intros Hp Hq Hp' Hq' E H.
  assert (Pq : (0 < 2 ^ q)%Z) by (apply Z.pow_pos_nonneg; lia).
  assert (Pq' : (0 < 2 ^ q')%Z) by (apply Z.pow_pos_nonneg; lia).
  apply (Z.mul_le_mono_pos_r _ _ (2 ^ q)); [exact Pq|].
  rewrite <- !Z.mul_assoc, <- !Z.pow_add_r by lia.
  replace (p' + q)%Z with (p + q')%Z by lia.
  replace (q' + q)%Z with (q + q')%Z by lia.
  rewrite !Z.pow_add_r, !Z.mul_assoc by lia.
  apply Z.mul_le_mono_pos_r; assumption.
Qed.

(** A sign of a rounded result is the sign asked for. *)
Lemma binary_round_aux_sign_of (s : bool) (m e : Z) (l : location) :
  match binary_round_aux prec emax s m e l with
  | S754_zero s' | S754_infinity s' | S754_finite s' _ _ => s' = s
  | S754_nan => True
  end.
Proof.
  unfold binary_round_aux.
  destruct (shr_fexp prec emax m e l) as [mrs' e'].
  destruct (shr_fexp prec emax _ e' loc_Exact) as [mrs'' e''].
  destruct (shr_m mrs''); try reflexivity.
  destruct (e'' <=? emax - prec)%Z; reflexivity.
Qed.

(** The quotient [x / w] of a positive number by the rounded [w = x / k]
    is at least [k - 1], for [k] from 1 to 20 and [w] with a mantissa of at
    least [k]. *)
Lemma quotient_by_width (mx mk mw : positive) (ex ek ew k : Z) :
  (1 <= k <= 20)%Z -> (0 <= - ek)%Z -> Zpos mk = (k * 2 ^ (- ek))%Z ->
  SFdiv prec emax (S754_finite false mx ex) (S754_finite false mk ek)
  = S754_finite false mw ew ->
  (k <= Zpos mw)%Z ->
  let t := SFdiv prec emax (S754_finite false mx ex) (S754_finite false mw ew) in
  nonneg t /\
  match t with
  | S754_zero _ => (k - 1 = 0)%Z
  | S754_finite _ mt et => (0 <= et)%Z \/ ((k - 1) * 2 ^ (- et) <= Zpos mt)%Z
  | _ => True
  end.
Proof.
  intros Hk Ha Hmk Ew Hmw t.
  set (a := (- ek)%Z) in *.
  (* the width *)
  destruct (SFdiv_bounds mx mk ex ek)
    as (s & d & m1 & Hs & Hd & Hm1 & [H1 _] & _ & _ & Hres).
  rewrite Ew in Hres. destruct Hres as (_ & Hew & Hb).
  set (e1 := (ex - ek - s + d)%Z) in *.
  set (c := (ew - e1)%Z) in *.
  assert (Hc : (0 <= c)%Z) by lia.
  assert (Pc : (1 <= 2 ^ c)%Z) by (pose proof (Z.pow_pos_nonneg 2 c); lia).
  assert (Pad : (0 < 2 ^ a * 2 ^ d)%Z)
    by (apply Z.mul_pos_pos; apply Z.pow_pos_nonneg; lia).
  assert (HA : ((k - 1) * Zpos mw * 2 ^ (c + a + d) <= Zpos mx * 2 ^ s)%Z).
  { set (M := (Zpos mw * 2 ^ c)%Z) in *.
    assert (HkM : (k <= M)%Z).
    { unfold M. nia. }
    assert (H2 : ((M - 1) * (k * (2 ^ a * 2 ^ d)) <= Zpos mx * 2 ^ s)%Z).
    { eapply Z.le_trans; [|exact H1]. rewrite Hmk.
      rewrite <- (Z.mul_assoc k). apply Z.mul_le_mono_nonneg_r; [nia|lia]. }
    rewrite !Z.pow_add_r by lia. unfold M in *. nia. }
  (* the quotient by the width *)
  destruct (SFdiv_bounds mx mw ex ew)
    as (s2 & d2 & m1' & Hs2 & Hd2 & Hm1' & [_ H2u] & N2 & _ & Hres2).
  fold t in Hres2.
  set (e1' := (ex - ew - s2 + d2)%Z) in *.
  assert (Hj : (e1' <= 0 -> (k - 1) * 2 ^ (- e1') <= m1')%Z).
  { intros He.
    assert (H3 : ((k - 1) * Zpos mw * 2 ^ (- e1' + d2) <= Zpos mx * 2 ^ s2)%Z).
    { apply (pow2_rescale _ _ (c + a + d) s); first [lia | exact HA]. }
    assert (P : (0 < Zpos mw * 2 ^ d2)%Z)
      by (apply Z.mul_pos_pos; [lia|apply Z.pow_pos_nonneg; lia]).
    assert (H4 : ((k - 1) * 2 ^ (- e1') * (Zpos mw * 2 ^ d2)
                  < (m1' + 1) * (Zpos mw * 2 ^ d2))%Z).
    { eapply Z.le_lt_trans; [|exact H2u].
      rewrite Z.pow_add_r in H3 by lia. lia. }
    apply Z.mul_lt_mono_pos_r in H4; [lia|exact P]. }
  assert (Hbig : (0 < e1' -> 2 ^ 52 <= m1')%Z)
    by (intros He; destruct N2 as [N2|N2]; [unfold emin64 in N2; lia|exact N2]).
  destruct t as [sg|sg| |sg mt et]; cbn [nonneg].
  - destruct Hres2 as [-> Hz]. split; [exact I|].
    destruct (Z_le_gt_dec e1' 0) as [He|He].
    + specialize (Hj He). rewrite Hz in Hj.
      pose proof (Z.pow_pos_nonneg 2 (- e1') ltac:(lia) ltac:(lia)). nia.
    + specialize (Hbig ltac:(lia)). rewrite Hz in Hbig.
      exfalso. apply Hbig. reflexivity.
  - subst sg. now split.
  - destruct Hres2.
  - destruct Hres2 as (-> & Het & Hbt). split; [exact I|].
    destruct (Z_le_gt_dec 0 et) as [Pos|Neg]; [now left|right].
    assert (He : (e1' <= 0)%Z) by lia. specialize (Hj He).
    destruct Het as [->| ->].
    + rewrite Z.sub_diag, Z.mul_1_r in Hbt. lia.
    + replace (e1' + 1 - e1')%Z with 1%Z in Hbt by lia.
      replace (- e1')%Z with (- (e1' + 1) + 1)%Z in Hj by lia.
      rewrite Z.pow_add_r in Hj by lia. change (2 ^ 1)%Z with 2%Z in *. lia.
Qed.

Local Open Scope float_scope.

(** [isNaN] of the source, and the facts above on primitive floats. *)
Lemma is_nan_spec (x : float) : is_nan x = true <-> Prim2SF x = S754_nan.
Proof.
  unfold is_nan. rewrite FloatAxioms.eqb_spec. unfold SFeqb. split.
  - intros H. destruct (Prim2SF x) eqn:E; try reflexivity;
      rewrite SFcompare_refl in H by discriminate; discriminate.
  - intros ->. reflexivity.
Qed.

Lemma is_nan_false (x : float) : is_nan x = false <-> Prim2SF x <> S754_nan.
Proof.
  rewrite <- is_nan_spec. destruct (is_nan x); split; congruence.
Qed.


Lemma ltb_negb_leb (a b : float) :
  is_nan a = false -> is_nan b = false -> (b <? a) = negb (a <=? b).
Proof.
  intros Na Nb. rewrite FloatAxioms.ltb_spec, FloatAxioms.leb_spec.
  apply is_nan_false in Na, Nb. now apply SFltb_SFleb.
Qed.


Lemma leb_nan_free (a b : float) :
  (a <=? b) = true -> is_nan a = false /\ is_nan b = false.
Proof.
  rewrite FloatAxioms.leb_spec, !is_nan_false. unfold SFleb.
  destruct (Prim2SF a), (Prim2SF b); cbn; try discriminate; split; discriminate.
Qed.

Lemma eqb_of_leb (a b : float) :
  (a <=? b) = true -> (a <? b) = false -> (a =? b) = true.
Proof.
  rewrite FloatAxioms.leb_spec, FloatAxioms.ltb_spec, FloatAxioms.eqb_spec. unfold SFleb, SFltb, SFeqb.
  destruct (SFcompare _ _) as [[]|]; congruence.
Qed.

Lemma eqb_refl (a : float) : is_nan a = false -> (a =? a) = true.
Proof. unfold is_nan. now destruct (a =? a). Qed.

Lemma ltb_not_eqb (a b : float) : (a <? b) = true -> (a =? b) = false.
Proof.
  rewrite FloatAxioms.ltb_spec, FloatAxioms.eqb_spec. unfold SFltb, SFeqb.
  destruct (SFcompare _ _) as [[]|]; congruence.
Qed.

Lemma eqb_nan_l (b : float) : (nan =? b) = false.
Proof. rewrite FloatAxioms.eqb_spec. reflexivity. Qed.

Lemma ltb_infinity_false (a : float) :
  is_nan a = false -> (a <? infinity) = false -> a = infinity.
Proof.
  intros Na H. apply is_nan_false in Na. rewrite FloatAxioms.ltb_spec in H.
  apply Prim2SF_inj. change (Prim2SF infinity) with (S754_infinity false) in *.
  destruct (Prim2SF a) as [s|[]| |s m e]; cbn in H; try congruence;
    destruct s; discriminate.
Qed.

Lemma is_zero_spec (a : float) :
  is_zero a = true -> exists s, Prim2SF a = S754_zero s.
Proof.
  unfold is_zero. rewrite FloatAxioms.eqb_spec.
  change (Prim2SF PrimFloat.zero) with (S754_zero false).
  destruct (Prim2SF a) as [s|[]| |[] m e]; cbn; try discriminate. eauto.
Qed.

Lemma zeros_eqb (a b : float) :
  is_zero a = true -> is_zero b = true -> (a =? b) = true.
Proof.
  intros [sa Ha]%is_zero_spec [sb Hb]%is_zero_spec.
  now rewrite FloatAxioms.eqb_spec, Ha, Hb.
Qed.

Lemma zeros_leb (a b : float) :
  is_zero a = true -> is_zero b = true -> (a <=? b) = true.
Proof.
  intros [sa Ha]%is_zero_spec [sb Hb]%is_zero_spec.
  now rewrite FloatAxioms.leb_spec, Ha, Hb.
Qed.

Lemma sqrt_nonneg (x : float) :
  nonneg (Prim2SF x) -> nonneg (Prim2SF (sqrt x)).
Proof. rewrite sqrt_spec. apply SFsqrt_nonneg. Qed.

Lemma nonneg_not_nan (x : float) : nonneg (Prim2SF x) -> is_nan x = false.
Proof.
  intros H. apply is_nan_false. destruct (Prim2SF x); [| |destruct H|]; discriminate.
Qed.

(** A finite number at least 20 times the least positive one has a
    mantissa of at least 20. *)
Lemma width_inv (w : float) :
  (0x1.4p-1070 <=? w) = true -> (w <? infinity) = true ->
  exists mw ew,
    Prim2SF w = S754_finite false mw ew /\ (20 <= Zpos mw)%Z.
Proof.
  rewrite FloatAxioms.leb_spec, FloatAxioms.ltb_spec. unfold SFleb, SFltb.
  change (Prim2SF 0x1.4p-1070) with (S754_finite false 20 (-1074)).
  change (Prim2SF infinity) with (S754_infinity false).
  pose proof (Prim2SF_valid w) as Hv.
  destruct (Prim2SF w) as [s|[]| |[] mw ew]; cbn [SFcompare valid_binary] in *;
    try discriminate.
  intros Hlo _. exists mw, ew. split; [reflexivity|].
  destruct (bounded_inv _ _ Hv) as (Hemin & Hd & Hc).
  destruct (Z.compare_spec (-1074) ew) as [E|L|G]; [| |discriminate].
  - change (Pos.compare_cont Eq 20 mw) with (20 ?= Zpos mw)%Z in Hlo.
    destruct (Z.compare_spec 20 (Zpos mw)); try discriminate; lia.
  - destruct Hc as [Hc|Hc]; [unfold emin64 in Hc; lia|].
    pose proof (digits2_pos_bounds mw) as [Lo _]. rewrite Hc in Lo.
    change (2 ^ (53 - 1))%Z with 4503599627370496%Z in Lo. lia.
Qed.

End Binary64.

(** ** Sorting with the comparator of the source *)

Lemma sort_insert_perm compareFn a l :
  Permutation (sort_insert compareFn a l) (a :: l).
Proof.
  induction l as [|b l IH]; cbn [sort_insert]; [reflexivity|].
  destruct (0 <? compareFn a b); [|reflexivity].
  rewrite IH. apply perm_swap.
Qed.

Lemma Array_sort_perm compareFn l : Permutation (Array_sort compareFn l) l.
Proof.
  induction l as [|a l IH]; cbn; [reflexivity|].
  rewrite sort_insert_perm. now constructor.
Qed.

Lemma Array_sort_length compareFn l :
  length (Array_sort compareFn l) = length l.
Proof. apply Permutation_length, Array_sort_perm. Qed.




(** ** Properties of the statistics *)

Section StatisticsFacts.

Variable StringToNumber : jsstring -> float.

Local Abbreviation Number := (Number StringToNumber).
Local Abbreviation column_values := (column_values StringToNumber).
Local Abbreviation summarize := (summarize StringToNumber).


Lemma column_values_app data1 data2 col :
  column_values (data1 ++ data2) col =
  column_values data1 col ++ column_values data2 col.
Proof. unfold column_values. now rewrite map_app, List.filter_app. Qed.

Lemma column_values_cons row data col :
  column_values (row :: data) col =
  if isNaN (Number (row_get row col)) then column_values data col
  else Number (row_get row col) :: column_values data col.
Proof.
  unfold column_values. cbn [map List.filter].
  now destruct (isNaN (Number (row_get row col))).
Qed.

Lemma row_get_Some_keys row col v :
  row_get row col = Some v -> In col (Object_keys row).
Proof.
  induction row as [|[k w] row IH]; cbn; [discriminate|].
  destruct (decide (k = col)); auto.
Qed.

Lemma numericColumns_spec row0 col :
  In col (numericColumns row0) <-> exists x, row_get row0 col = Some (CNum x).
Proof.
  unfold numericColumns. rewrite List.filter_In. split.
  - intros [_ H]. destruct (row_get row0 col) as [[x|s]|]; try discriminate.
    now exists x.
  - intros [x H]. split; [eapply row_get_Some_keys; eauto|].
    now rewrite H.
Qed.

Lemma fold_insert_lookup {V} (f : list N -> V) (cols : list (list N))
    (m : gmap (list N) V) (col : list N) :
  fold_left (fun stats c => <[c := f c]> stats) cols m !! col =
  if decide (col ∈ cols) then Some (f col) else m !! col.
Proof.
  revert m. induction cols as [|c cols IH]; intros m; cbn [fold_left].
  - destruct (decide (col ∈ [])) as [H|]; [|reflexivity].
    now apply not_elem_of_nil in H.
  - rewrite IH. destruct (decide (col ∈ cols)) as [Hin|Hin].
    + destruct (decide (col ∈ c :: cols)) as [|Hn]; [reflexivity|].
      exfalso. apply Hn. now right.
    + destruct (decide (c = col)) as [->|Hne].
      * rewrite lookup_insert_eq.
        destruct (decide (col ∈ col :: cols)) as [|Hn]; [reflexivity|].
        exfalso. apply Hn. now left.
      * rewrite lookup_insert_ne by exact Hne.
        destruct (decide (col ∈ c :: cols)) as [Hc|]; [|reflexivity].
        apply elem_of_cons in Hc as [?|?]; congruence.
Qed.

Lemma summarize_lookup row0 rest stats col :
  summarize (row0 :: rest) = Some stats ->
  numericStats stats !! col =
  if decide (col ∈ numericColumns row0)
  then Some (numeric_stats (column_values (row0 :: rest) col))
  else None.
Proof.
  intros [= <-]. cbn [numericStats].
  rewrite (fold_insert_lookup
             (fun c => numeric_stats (column_values (row0 :: rest) c))).
  now rewrite lookup_empty.
Qed.

End StatisticsFacts.

(** [lia] with quotients and remainders by constants. *)
Ltac divlia := zify; Z.to_euclidean_division_equations; lia.

Section ColumnSummaries.

Variable StringToNumber : jsstring -> float.

Local Abbreviation Number := (Number StringToNumber).
Local Abbreviation column_values := (column_values StringToNumber).
Local Abbreviation summarize := (summarize StringToNumber).


Lemma aget_nat {A} (arr : list A) (i : nat) :
  aget arr (Z.of_nat i) = nth_error arr i.
Proof.
  unfold aget. destruct (Z.ltb_spec (Z.of_nat i) 0); [lia|].
  now rewrite Nat2Z.id.
Qed.

Lemma nth_error_in_range {A} (arr : list A) (i : nat) :
  (i < length arr)%nat -> exists x, nth_error arr i = Some x.
Proof.
  intros H. destruct (nth_error arr i) as [x|] eqn:E; [now exists x|].
  apply nth_error_None in E. lia.
Qed.


(** The median of the source on a sorted array of odd length. *)
Lemma median_of_odd (S : list float) :
  Nat.even (length S) = false ->
  exists mid, nth_error S (length S / 2) = Some mid /\ median_of S = mid.
Proof.
  intros Ho. rewrite <- Nat.negb_odd in Ho. apply negb_false_iff in Ho.
  apply Nat.odd_spec in Ho as [k Hk].
  destruct (nth_error_in_range S (length S / 2)) as [mid Hmid]; [divlia|].
  exists mid. split; auto. unfold median_of.
  replace (Z.of_nat (length S) mod 2 =? 0)%Z with false
    by (symmetry; apply Z.eqb_neq; divlia).
  replace (Z.of_nat (length S) / 2)%Z with (Z.of_nat (length S / 2)) by divlia.
  now rewrite aget_nat, Hmid.
Qed.


Lemma summarize_dom data stats col :
  summarize data = Some stats ->
  (is_Some (numericStats stats !! col) <-> first_row_numeric data col).
Proof.
  intros Hs. destruct data as [|row0 rest]; [discriminate|].
  rewrite (summarize_lookup _ _ _ _ _ Hs).
  destruct (decide (col ∈ numericColumns row0)) as [Hin|Hn].
  - split; [intros _|eauto].
    apply list_elem_of_In, numericColumns_spec in Hin as [x Hx].
    now exists row0, rest, x.
  - split; [intros [? ?]; discriminate|].
    intros (r & t & x & [= <- <-] & Hx). exfalso.
    apply Hn, list_elem_of_In, numericColumns_spec. eauto.
Qed.

Lemma summarize_entry data stats col s :
  summarize data = Some stats ->
  numericStats stats !! col = Some s ->
  s = numeric_stats (column_values data col).
Proof.
  intros Hs. destruct data as [|row0 rest]; [discriminate|].
  rewrite (summarize_lookup _ _ _ _ _ Hs).
  destruct (decide (col ∈ numericColumns row0)); congruence.
Qed.

Lemma column_values_drop before row after col :
  isNaN (Number (row_get row col)) = true ->
  column_values (before ++ row :: after) col =
  column_values (before ++ after) col.
Proof.
  intros H. now rewrite !column_values_app, column_values_cons, H.
Qed.

Lemma column_values_keep before row after col :
  isNaN (Number (row_get row col)) = false ->
  column_values (before ++ row :: after) col =
  column_values before col ++ Number (row_get row col) :: column_values after col.
Proof.
  intros H. now rewrite !column_values_app, column_values_cons, H.
Qed.

End ColumnSummaries.




(** C2.  A column is numeric exactly when the first row holds a number
    under it; its entry summarises the coerced values of all rows, and a
    row whose value does not coerce to a number is left out of that
    sequence (it adds no value, in particular no zero). *)
Theorem C2_numeric_columns_and_filtering (StringToNumber : jsstring -> float)
    (data : list DataRow) (stats : Statistics) :
  summarize StringToNumber data = Some stats ->
  (forall col,
     is_Some (numericStats stats !! col) <-> first_row_numeric data col) /\
  (forall col s,
     numericStats stats !! col = Some s ->
     s = numeric_stats (column_values StringToNumber data col)) /\
  (forall col before row after,
     data = before ++ row :: after ->
     isNaN (Number StringToNumber (row_get row col)) = true ->
     column_values StringToNumber data col =
     column_values StringToNumber (before ++ after) col) /\
  (forall col before row after,
     data = before ++ row :: after ->
     isNaN (Number StringToNumber (row_get row col)) = false ->
     column_values StringToNumber data col =
     column_values StringToNumber before col
       ++ Number StringToNumber (row_get row col)
       :: column_values StringToNumber after col).
Proof.
  intros Hs. split; [|split; [|split]].
  - intros col. now apply (summarize_dom StringToNumber).
  - intros col s. now apply (summarize_entry StringToNumber).
  - intros col before row after -> H. now apply column_values_drop.
  - intros col before row after -> H. now apply column_values_keep.
Qed.

Lemma C2_numeric_columns_and_filtering_witness :
  exists stats,
    summarize no_numeric_strings mixed_table = Some stats /\
    (is_Some (numericStats stats !! js "a") /\
     numericStats stats !! js "b" = None) /\
    column_values no_numeric_strings mixed_table (js "a") = [1; 3].
Proof.
  eexists. split; [reflexivity|].
  pose proof (C2_numeric_columns_and_filtering no_numeric_strings
                mixed_table _ eq_refl) as (Hdom & _ & Hdrop & _).
  split; [split|].
  - apply Hdom. eexists _, _, 1. split; reflexivity.
  - vm_compute. reflexivity.
  - rewrite (Hdrop (js "a") [hd [] mixed_table] (nth 1 mixed_table [])
                   [nth 2 mixed_table []] eq_refl eq_refl).
    reflexivity.
Defined.

(** ** The clamp of the histogram *)

(** [Math.min(a, f)] on numbers that are not NaN. *)
Lemma Math_min_pair (a f : float) :
  is_nan a = false -> is_nan f = false ->
  Math_min [a; f] =
  if is_neg_zero f && is_pos_zero a then neg_zero
  else if f <? a then f else a.
Proof.
  intros Na Nf. unfold Math_min. cbn [existsb fold_left].
  rewrite Na, Nf. cbn [orb].
  change (is_pos_zero infinity) with false. rewrite andb_false_r.
  destruct (a <? infinity) eqn:E; [reflexivity|].
  now rewrite <- (Binary64.ltb_infinity_false a Na E).
Qed.

Lemma Math_min_pair_nan (a f : float) :
  is_nan a || is_nan f = true -> Math_min [a; f] = nan.
Proof.
  intros H. unfold Math_min. cbn [existsb]. rewrite orb_false_r.
  now rewrite H.
Qed.

(** [Math.min(a, f)] is [a] exactly when [a <= f]. *)
Lemma Math_min_pair_is_first (a f : float) :
  (Math_min [a; f] =? a) = true <-> (a <=? f) = true.
Proof.
  destruct (is_nan a || is_nan f) eqn:N.
  - rewrite (Math_min_pair_nan a f N), Binary64.eqb_nan_l. split; [discriminate|].
    intros H. apply Binary64.leb_nan_free in H as [Na Nf].
    rewrite Na, Nf in N. discriminate.
  - apply orb_false_iff in N as [Na Nf]. rewrite (Math_min_pair a f Na Nf).
    destruct (is_neg_zero f && is_pos_zero a) eqn:Z.
    + apply andb_true_iff in Z as [Zf Za].
      apply andb_true_iff in Zf as [Zf _]. apply andb_true_iff in Za as [Za _].
      split; intros _.
      * now apply Binary64.zeros_leb.
      * now apply Binary64.zeros_eqb.
    + rewrite (Binary64.ltb_negb_leb a f Na Nf).
      destruct (a <=? f) eqn:L; cbn [negb].
      * split; [reflexivity|]. intros _. now apply Binary64.eqb_refl.
      * split; [|discriminate]. intros H.
        assert (Hlt : (f <? a) = true)
          by (rewrite (Binary64.ltb_negb_leb a f Na Nf), L; reflexivity).
        apply Binary64.ltb_not_eqb in Hlt. congruence.
Qed.

Section LastBin.

Import Binary64.

Lemma float_of_nat_nonneg (n : nat) : nonneg (Prim2SF (float_of_nat n)).
Proof.
  unfold float_of_nat. rewrite of_uint63_spec.
  apply binary_normalize_nonneg. apply Uint63.to_Z_bounded.
Qed.

(** The number an integer [0 < q < 2^53] is. *)
Lemma float_of_Z_spec (q : Z) :
  (0 < q < 2 ^ 53)%Z ->
  exists mq : positive,
    Prim2SF (float_of_Z q) = S754_finite false mq (Zdigits2 q - 53) /\
    Zpos mq = (q * 2 ^ (53 - Zdigits2 q))%Z /\
    bounded prec emax mq (Zdigits2 q - 53) = true.
Proof.
  intros Hq. destruct (binary_normalize_exact q Hq) as (mq & Hn & Hv & Hb).
  exists mq. unfold float_of_Z. rewrite Hn.
  rewrite Prim2SF_SF2Prim by exact Hb. auto.
Qed.

(** Integers below [2^53] compare as the numbers they are. *)
Lemma float_of_Z_compare (a b : Z) :
  (0 < a < 2 ^ 53)%Z -> (0 < b < 2 ^ 53)%Z ->
  SFcompare (Prim2SF (float_of_Z a)) (Prim2SF (float_of_Z b)) = Some (a ?= b)%Z.
Proof.
  intros Ha Hb.
  destruct (float_of_Z_spec a Ha) as (ma & -> & Hma & Ba).
  destruct (float_of_Z_spec b Hb) as (mb & -> & Hmb & Bb).
  rewrite (SFcompare_aligned _ _ _ _ _ _ Ba Bb). f_equal.
  unfold aligned. cbn [cond_Zopp].
  set (da := Zdigits2 a) in *. set (db := Zdigits2 b) in *.
  assert (Hda : (0 < da <= 53)%Z).
  { destruct (Zdigits2_pos_bounds a ltac:(lia)) as [H _].
    pose proof (Zdigits2_le a 53 ltac:(lia) ltac:(lia)). unfold da. lia. }
  assert (Hdb : (0 < db <= 53)%Z).
  { destruct (Zdigits2_pos_bounds b ltac:(lia)) as [H _].
    pose proof (Zdigits2_le b 53 ltac:(lia) ltac:(lia)). unfold db. lia. }
  set (mn := Z.min (da - 53) (db - 53)).
  rewrite Hma, Hmb, <- !Z.mul_assoc, <- !Z.pow_add_r by lia.
  replace (53 - da + (da - 53 - mn))%Z with (- mn)%Z by lia.
  replace (53 - db + (db - 53 - mn))%Z with (- mn)%Z by lia.
  assert (P : (0 < 2 ^ (- mn))%Z) by (apply Z.pow_pos_nonneg; lia).
  destruct (Z.compare_spec a b) as [E|L|G].
  - apply Z.compare_eq_iff. now rewrite E.
  - apply Z.compare_lt_iff. nia.
  - apply Z.compare_gt_iff. nia.
Qed.

(** [Math.floor] of a number that is not negative. *)
Lemma Math_floor_spec (x : float) :
  nonneg (Prim2SF x) ->
  nonneg (Prim2SF (Math_floor x)) /\
  match Prim2SF x with
  | S754_finite _ m e =>
      if (0 <=? e)%Z then Math_floor x = x
      else
        let q := (Zpos m / 2 ^ (- e))%Z in
        (q = 0%Z /\ Math_floor x = PrimFloat.zero) \/
        ((0 < q < 2 ^ 53)%Z /\ Math_floor x = float_of_Z q)
  | _ => Math_floor x = x
  end.
Proof.
  intros Hx. unfold Math_floor.
  pose proof (Prim2SF_valid x) as Hv.
  destruct (Prim2SF x) as [s|s| |s m e] eqn:E; try (rewrite E; now split).
  destruct s; [destruct Hx|]. cbn [cond_Zopp valid_binary] in *.
  destruct (Z.leb_spec 0 e) as [He|He]; [rewrite E; now split|].
  rewrite Z.shiftr_div_pow2 by lia.
  set (q := (Zpos m / 2 ^ (- e))%Z).
  assert (P : (0 < 2 ^ (- e))%Z) by (apply Z.pow_pos_nonneg; lia).
  assert (Hq : (0 <= q)%Z) by (apply Z.div_pos; lia).
  assert (Hq53 : (q < 2 ^ 53)%Z).
  { destruct (bounded_inv _ _ Hv) as (_ & Hd & _).
    pose proof (Zdigits2_small (Zpos m) ltac:(lia) Hd).
    assert (q <= Zpos m)%Z; [|lia].
    unfold q. apply Z.div_le_upper_bound; [lia|]. nia. }
  destruct (Z.eqb_spec q 0) as [E0|N0].
  - split; [exact I|]. now left.
  - assert (Hq' : (0 < q < 2 ^ 53)%Z) by lia.
    destruct (float_of_Z_spec q Hq') as (mq & Hm & _).
    split; [now rewrite Hm|]. now right.
Qed.

Lemma twenty_spec :
  Prim2SF 20 = S754_finite false 5629499534213120 (-48) /\
  is_nan 20 = false /\ is_pos_zero 20 = false /\ float_of_Z 20 = 20.
Proof. repeat split; vm_compute; reflexivity. Qed.

(** [binCount] is zero or one of the integers 1 to 20. *)
Lemma binCount_cases (V : list float) :
  (exists s, Prim2SF (binCount V) = S754_zero s) \/
  (exists k, (1 <= k <= 20)%Z /\ binCount V = float_of_Z k).
Proof.
  unfold binCount, Math_sqrt.
  set (x := sqrt (float_of_nat (length V))).
  assert (Hx : nonneg (Prim2SF x)) by apply sqrt_nonneg, float_of_nat_nonneg.
  destruct (Math_floor_spec x Hx) as [HF Hcases].
  destruct twenty_spec as (H20 & N20 & Z20 & F20).
  rewrite (Math_min_pair 20 (Math_floor x) N20 (nonneg_not_nan _ HF)).
  rewrite Z20, andb_false_r.
  destruct (Math_floor x <? 20) eqn:Lt; [|right; exists 20%Z; split; [lia|now rewrite F20]].
  rewrite FloatAxioms.ltb_spec, H20 in Lt. unfold SFltb in Lt.
  destruct (Prim2SF x) as [s|s| |s m e] eqn:E.
  - left. exists s. now rewrite Hcases.
  - rewrite Hcases, E in Lt. destruct s; [destruct Hx|discriminate].
  - destruct Hx.
  - destruct s; [destruct Hx|].
    destruct (Z.leb_spec 0 e) as [He|He].
    + rewrite Hcases, E in Lt. cbn [SFcompare] in Lt.
      destruct (Z.compare_spec e (-48)); try lia; discriminate.
    + destruct Hcases as [[_ ->]|[Hq HFq]].
      * left. exists false. reflexivity.
      * right. set (q := (Zpos m / 2 ^ (- e))%Z) in *.
        exists q. split; [|exact HFq].
        rewrite HFq, <- H20, <- F20 in Lt.
        rewrite (float_of_Z_compare q 20 Hq ltac:(lia)) in Lt.
        destruct (Z.compare_spec q 20); try discriminate. lia.
Qed.

(** [Math.floor] keeps a number at or above an integer it is at or
    above. *)
Lemma Math_floor_ge (t : float) (j : Z) :
  (0 <= j < 2 ^ 52)%Z -> nonneg (Prim2SF t) ->
  match Prim2SF t with
  | S754_zero _ => j = 0%Z
  | S754_finite _ mt et => (0 <= et)%Z \/ (j * 2 ^ (- et) <= Zpos mt)%Z
  | _ => True
  end ->
  (float_of_Z j <=? Math_floor t) = true.
Proof.
  intros Hj Ht Hval. destruct (Math_floor_spec t Ht) as [HF Hcases].
  rewrite FloatAxioms.leb_spec. unfold SFleb.
  destruct (Z.eq_dec j 0%Z) as [->|Hj0].
  { change (Prim2SF (float_of_Z 0%Z)) with (S754_zero false).
    destruct (Prim2SF (Math_floor t)) as [s|[]| |[] m e]; cbn in HF |- *;
      tauto. }
  assert (Hj' : (0 < j < 2 ^ 53)%Z) by lia.
  destruct (float_of_Z_spec j Hj') as (mj & Ej & Hmj & Bj).
  assert (Hdj : (Zdigits2 j <= 52)%Z) by (apply Zdigits2_le; lia).
  destruct (Prim2SF t) as [s|s| |s mt et] eqn:E.
  - contradiction.
  - rewrite Hcases, E, Ej. destruct s; [destruct Ht|reflexivity].
  - destruct Ht.
  - destruct s; [destruct Ht|].
    destruct (Z.leb_spec 0 et) as [He|He].
    + rewrite Hcases, E, Ej. cbn [SFcompare].
      destruct (Z.compare_spec (Zdigits2 j - 53) et); try lia; reflexivity.
    + destruct Hval as [Hval|Hval]; [lia|].
      assert (P : (0 < 2 ^ (- et))%Z) by (apply Z.pow_pos_nonneg; lia).
      assert (Hq : (j <= Zpos mt / 2 ^ (- et))%Z)
        by (apply Z.div_le_lower_bound; lia).
      destruct Hcases as [[Hq0 _]|[Hq53 ->]]; [lia|].
      rewrite (float_of_Z_compare _ _ Hj' Hq53).
      destruct (Z.compare_spec j (Zpos mt / 2 ^ (- et))); try lia; reflexivity.
Qed.

Lemma minus_one (k : Z) :
  (1 <= k <= 20)%Z -> float_of_Z k - 1 = float_of_Z (k - 1).
Proof.
  intros Hk.
  assert (H : In k [1; 2; 3; 4; 5; 6; 7; 8; 9; 10; 11; 12; 13; 14; 15; 16; 17;
                    18; 19; 20]%Z).
  { cbn [In]. lia. }
  cbn [In] in H.
  repeat (destruct H as [<-|H]; [vm_compute; reflexivity|]). destruct H.
Qed.

End LastBin.

(** The clamp puts the maximum in the last bin exactly when the floored
    quotient [(max - min) / binWidth], as computed, reaches
    [binCount - 1]. *)
Lemma max_bin_index_iff (V : list float) :
  (binIndex V (Math_max V) =? binCount V - 1) = true <->
  (binCount V - 1 <=? Math_floor ((Math_max V - Math_min V) / binWidth V)) = true.
Proof. unfold binIndex. apply Math_min_pair_is_first. Qed.

(** C3.  When the bin width is finite and at least 20 times the least
    positive number ([20 * 2^-1074]; every normal number is), the bin index
    of the maximum is [binCount - 1]. *)
Theorem C3_max_bin_index (V : list float) :
  (0x1.4p-1070 <=? binWidth V) = true -> (binWidth V <? infinity) = true ->
  (binIndex V (Math_max V) =? binCount V - 1) = true.
Proof.
  intros Hlo Hhi.
  destruct (Binary64.width_inv _ Hlo Hhi) as (mw & ew & Ew & Hmw).
  apply max_bin_index_iff.
  set (x := Math_max V - Math_min V).
  assert (Ediv : Prim2SF (binWidth V)
                 = SFdiv prec emax (Prim2SF x) (Prim2SF (binCount V)))
    by (unfold binWidth; now rewrite div_spec).
  rewrite Ew in Ediv.
  destruct (binCount_cases V) as [[s Hn]|(k & Hk & Hn)].
  { rewrite Hn in Ediv.
    destruct (Prim2SF x) as [sx|sx| |sx mx ex]; discriminate Ediv. }
  destruct (float_of_Z_spec k ltac:(lia)) as (mk & Ek & Hmk & _).
  rewrite Hn, Ek in Ediv.
  assert (Hdk : (Zdigits2 k <= 53)%Z) by (apply Binary64.Zdigits2_le; lia).
  destruct (Prim2SF x) as [sx|sx| |sx mx ex] eqn:Ex; try discriminate Ediv.
  destruct sx.
  { cbn [SFdiv xorb] in Ediv.
    destruct (SFdiv_core_binary _ _ _ _ _ _) as [[mz ez] lz].
    pose proof (Binary64.binary_round_aux_sign_of true mz ez lz) as Hsg.
    rewrite <- Ediv in Hsg. discriminate Hsg. }
  destruct (Binary64.quotient_by_width mx mk mw ex (Zdigits2 k - 53) ew k Hk)
    as [Hnn Hval]; try (symmetry; exact Ediv); try assumption; try lia.
  { rewrite Hmk. f_equal. f_equal. lia. }
  rewrite Hn, (minus_one k Hk).
  apply Math_floor_ge; [lia| |]; rewrite div_spec, Ex, Ew; assumption.
Qed.

Lemma C3_max_bin_index_witness :
  (binIndex [1; 2; 3; 4] (Math_max [1; 2; 3; 4]) =? binCount [1; 2; 3; 4] - 1)
  = true.
Proof. apply C3_max_bin_index; vm_compute; reflexivity. Defined.

(** The maximum of two values whose difference overflows gets no bin: the
    bin width is infinite and the index NaN. *)
Lemma C3_max_bin_index_counterexample :
  (0 <? binWidth overflow_values) = true /\
  binCount overflow_values - 1 = 0 /\
  binIndex overflow_values (Math_max overflow_values) = nan /\
  (binIndex overflow_values (Math_max overflow_values)
   =? binCount overflow_values - 1) = false.
Proof. repeat split; vm_compute; reflexivity. Qed.

(** On 400 values between 0 and 30 times the least positive number, the
    width of the 20 bins rounds up to twice that number, and the maximum
    falls in bin 15 of 0..19. *)
Lemma max_bin_index_subnormal :
  (0 <? binWidth subnormal_values) = true /\
  binWidth subnormal_values = 0x0.0000000000002p-1022 /\
  binCount subnormal_values - 1 = 19 /\
  binIndex subnormal_values (Math_max subnormal_values) = 15.
Proof. repeat split; vm_compute; reflexivity. Qed.

(** Where the quotient is exact the maximum is in the last bin. *)
Lemma max_bin_index_example :
  binCount [1; 2; 3; 4] = 2 /\ binWidth [1; 2; 3; 4] = 1.5 /\
  binIndex [1; 2; 3; 4] (Math_max [1; 2; 3; 4]) = 1.
Proof. repeat split; vm_compute; reflexivity. Qed.

(** ** Runs of the handlers *)

Lemma try_catch_rethrow {A} (m : Handler A) (st : State) :
  try_catch m (fun error => throw error) st = m st.
Proof. unfold try_catch, throw. now destruct (m st) as [[e|a] st']. Qed.

Lemma bind_run {A B} (m : Handler A) (k : A -> Handler B) (st : State) :
  bind m k st =
  match m st with
  | (inr a, st') => k a st'
  | (inl e, st') => (inl e, st')
  end.
Proof. reflexivity. Qed.

Section Runs.

Variable P : Platform.
Variable W : World.

Lemma call_tool_generate_thinking args st :
  call_tool P W (js "generate-thinking") args st = generate_thinking P W args st.
Proof.
  unfold call_tool. rewrite try_catch_rethrow.
  destruct (decide _) as [_|E]; [reflexivity|]. now exfalso.
Qed.

Lemma call_tool_send_email args st :
  call_tool P W (js "send-email") args st = send_email P W args st.
Proof.
  unfold call_tool. rewrite try_catch_rethrow.
  destruct (decide _) as [E|_]; [vm_compute in E; discriminate|].
  destruct (decide _) as [_|E]; [reflexivity|]. now exfalso.
Qed.

Lemma call_tool_analyze_data args st :
  call_tool P W (js "analyze-data") args st = analyze_data P W args st.
Proof.
  unfold call_tool. rewrite try_catch_rethrow.
  destruct (decide _) as [E|_]; [vm_compute in E; discriminate|].
  destruct (decide _) as [E|_]; [vm_compute in E; discriminate|].
  destruct (decide _) as [_|E]; [reflexivity|]. now exfalso.
Qed.

Lemma generate_subject_run subjectPrompt disk :
  generate_subject W subjectPrompt {| fs := disk; log := [] |} =
  (fst (subject_run W subjectPrompt),
   {| fs := disk; log := snd (subject_run W subjectPrompt) |}).
Proof.
  unfold generate_subject, subject_run. rewrite bind_run.
  unfold generate at 1. cbn [log fs List.filter length app].
  destruct (generateContent W 0 _) as [e|t1]; [reflexivity|].
  destruct (problematic (clean_subject t1)); [|reflexivity].
  rewrite bind_run. unfold generate. cbn [log fs List.filter is_generated length app].
  now destruct (generateContent W 1 _) as [e|t2].
Qed.

(** Every run of [send-email], by what validation, the model, the
    environment and the mail transport answer. *)
Lemma send_email_run args disk :
  handle_request P W (js "send-email") args disk =
  match SendEmailSchema [] args with
  | inl issues => (inl (ZodError issues), disk, [])
  | inr a =>
      match subject_run W (SendEmailArgs.subjectPrompt a) with
      | (inl e, calls) => (inl e, disk, calls)
      | (inr generatedSubject, calls) =>
          if credentials_missing W then (inl credentials_error, disk, calls)
          else
            let mail :=
              mailOptions_of (default [] (NODEMAILER_EMAIL W)) a generatedSubject in
            (match sendMail W mail with
             | inr messageId =>
                 inr (text_result
                        (sent_text (SendEmailArgs.to a) generatedSubject messageId))
             | inl error => inr (text_result (failed_text P error))
             end,
             disk, calls ++ [MailSent mail (sendMail W mail)])
      end
  end.
Proof.
  unfold handle_request. rewrite call_tool_send_email.
  unfold send_email. rewrite bind_run. unfold parse.
  destruct (SendEmailSchema [] args) as [issues|a]; [reflexivity|].
  cbn [ret]. rewrite bind_run, generate_subject_run.
  destruct (subject_run W (SendEmailArgs.subjectPrompt a)) as [[e|subject] calls];
    cbn [fst snd]; [reflexivity|].
  fold (credentials_missing W).
  destruct (credentials_missing W); [reflexivity|].
  unfold try_catch. rewrite bind_run. unfold send. cbn [fs log].
  now destruct (sendMail W _) as [error|messageId].
Qed.

End Runs.

(** ** The generated subject *)

Lemma collapse_spaces_from_chars in_run s c :
  In c (collapse_spaces_from in_run s) -> c = 32%N \/ is_space c = false.
Proof.
  revert in_run. induction s as [|d s IH]; intros in_run H; cbn in H; [easy|].
  destruct (is_space d) eqn:E.
  - destruct in_run; [now apply IH in H|].
    destruct H as [<-|H]; [now left|now apply IH in H].
  - destruct H as [<-|H]; [now right|now apply IH in H].
Qed.

Lemma drop_spaces_incl s c : In c (drop_spaces s) -> In c s.
Proof.
  induction s as [|d s IH]; cbn; [easy|].
  destruct (is_space d); [auto|]. now intros H.
Qed.

Lemma trim_incl s c : In c (trim s) -> In c s.
Proof.
  unfold trim. intros H. apply in_rev in H. apply drop_spaces_incl in H.
  apply in_rev in H. now apply drop_spaces_incl in H.
Qed.

Lemma line_terminator_is_space c :
  is_line_terminator c = true -> is_space c = true.
Proof.
  unfold is_line_terminator. intros H.
  repeat (apply orb_true_iff in H as [H|H]);
    apply N.eqb_eq in H; subst c; reflexivity.
Qed.

Lemma one_line_no_newline s : one_line s -> ~ In 10%N s.
Proof.
  intros H Hin. apply (proj1 (List.Forall_forall _ _) H) in Hin. discriminate.
Qed.

Lemma clean_subject_one_line raw : one_line (clean_subject raw).
Proof.
  apply List.Forall_forall. intros c H.
  unfold clean_subject, collapse_spaces in H. apply trim_incl in H.
  apply collapse_spaces_from_chars in H as [->|H]; [reflexivity|].
  destruct (is_line_terminator c) eqn:E; [|reflexivity].
  apply line_terminator_is_space in E. congruence.
Qed.

Lemma firstn_In {A} (n : nat) (l : list A) (x : A) :
  In x (firstn n l) -> In x l.
Proof.
  revert l. induction n as [|n IH]; intros [|y l]; cbn; try easy.
  intros [->|H]; [now left|right; now apply IH].
Qed.

Lemma truncate_subject_one_line s : one_line s -> one_line (truncate_subject s).
Proof.
  intros Hs. unfold truncate_subject, substring_0.
  destruct (70 <? length s)%nat; [|exact Hs].
  apply List.Forall_forall. intros c H. apply in_app_or in H as [H|H].
  - apply firstn_In in H. now apply (proj1 (List.Forall_forall _ _) Hs).
  - cbn in H. destruct H as [<-|[<-|[<-|[]]]]; reflexivity.
Qed.

Lemma truncate_subject_length s : (length (truncate_subject s) <= 70)%nat.
Proof.
  unfold truncate_subject, substring_0.
  destruct (Nat.ltb_spec 70 (length s)) as [H|H]; [|exact H].
  rewrite length_app, firstn_length_le by lia. cbn. lia.
Qed.

Lemma not_problematic_length s : problematic s = false -> (length s <= 70)%nat.
Proof.
  unfold problematic. intros H.
  repeat (apply orb_false_iff in H as [H _]).
  now apply Nat.ltb_ge in H.
Qed.

(** At most two requests to the model, and a subject of one line of at most
    70 code units. *)
Lemma subject_run_spec (W : World) subjectPrompt :
  (length (List.filter is_generated (snd (subject_run W subjectPrompt))) <= 2)%nat /\
  Forall (fun ev => is_generated ev = true) (snd (subject_run W subjectPrompt)) /\
  forall generatedSubject,
    fst (subject_run W subjectPrompt) = inr generatedSubject ->
    one_line generatedSubject /\ (length generatedSubject <= 70)%nat.
Proof.
  unfold subject_run.
  destruct (generateContent W 0 _) as [e|t1]; cbn [fst snd].
  { split; [cbn; lia|]. split; [repeat constructor|]. intros ? [=]. }
  destruct (problematic (clean_subject t1)) eqn:Pb.
  - destruct (generateContent W 1 _) as [e|t2]; cbn [fst snd];
      (split; [cbn; lia|]); (split; [repeat constructor|]); intros ? [=]. subst.
    split; [apply truncate_subject_one_line, clean_subject_one_line
           |apply truncate_subject_length].
  - cbn [fst snd]. split; [cbn; lia|]. split; [repeat constructor|].
    intros ? [= <-]. split; [apply clean_subject_one_line
                            |now apply not_problematic_length].
Qed.

(** ** Dispatch and [send-email] *)

(** C5.  A tool name other than [generate-thinking], [send-email] and
    [analyze-data] fails with the unknown-tool error; the call makes no
    directory, writes no file and calls no collaborator. *)
Theorem C5_unknown_tool (P : Platform) (W : World) (name : jsstring)
    (args : option json) (disk : FileSystem) :
  name <> js "generate-thinking" ->
  name <> js "send-email" ->
  name <> js "analyze-data" ->
  handle_request P W name args disk =
  (inl (ErrorObject (js "Error") (js "Unknown tool: " ++ name)), disk, []).
Proof.
  intros H1 H2 H3. unfold handle_request, call_tool.
  rewrite try_catch_rethrow.
  repeat (destruct (decide _) as [E|_]; [congruence|]). reflexivity.
Qed.

Lemma C5_unknown_tool_witness :
  handle_request sample_platform sample_world (js "delete-everything")
                 (Some (JObject [])) sample_disk =
  (inl (ErrorObject (js "Error") (js "Unknown tool: delete-everything")),
   sample_disk, []).
Proof.
  apply (C5_unknown_tool sample_platform sample_world (js "delete-everything"));
    vm_compute; discriminate.
Defined.


Lemma generated_not_sent calls mail result :
  Forall (fun ev => is_generated ev = true) calls ->
  ~ In (MailSent mail result) calls.
Proof.
  intros F H. apply (proj1 (List.Forall_forall _ _) F) in H. discriminate.
Qed.



(** Case analysis on the fields of an object schema, in shape order. *)
Ltac split_shape H :=
  unfold z_object, z_and, z_build in H;
  repeat match type of H with
         | context [match z_key ?k ?t ?p ?f with _ => _ end] =>
             let E := fresh "Ekey" in
             destruct (z_key k t p f) eqn:E
         end.

Lemma z_key_string_inv key path fields s :
  z_key key z_string path fields = inr s ->
  get_field fields (js key) = Some (JString s).
Proof.
  unfold z_key, z_string.
  destruct (get_field fields (js key)) as [[]|]; congruence.
Qed.

Lemma z_key_optional_string_inv key path fields o :
  z_key key (z_optional z_string) path fields = inr o ->
  get_field fields (js key) = option_map JString o.
Proof.
  unfold z_key, z_optional, z_string.
  destruct (get_field fields (js key)) as [[]|]; try discriminate;
    intros [= <-]; reflexivity.
Qed.

(** What a validated [send-email] argument record holds. *)
Lemma SendEmailSchema_inv fields a :
  SendEmailSchema [] (Some (JObject fields)) = inr a ->
  get_field fields (js "to") = Some (JString (SendEmailArgs.to a)) /\
  get_field fields (js "subjectPrompt") = Some (JString (SendEmailArgs.subjectPrompt a)) /\
  get_field fields (js "text") = Some (JString (SendEmailArgs.text a)) /\
  get_field fields (js "html") = option_map JString (SendEmailArgs.html a).
Proof.
  intros H. unfold SendEmailSchema in H. split_shape H; try discriminate.
  injection H as <-.
  cbn [SendEmailArgs.to SendEmailArgs.subjectPrompt SendEmailArgs.text
       SendEmailArgs.html].
  repeat split; eauto using z_key_string_inv, z_key_optional_string_inv.
Qed.

Lemma htmlTemplate_not_empty generatedSubject text :
  htmlTemplate generatedSubject text <> [].
Proof. unfold htmlTemplate. discriminate. Qed.

(** A mail handed to the transport by a validated call: its subject is the
    generated one and its body is built from the arguments. *)
Lemma send_email_mail (P : Platform) (W : World) args disk outcome disk' events
    mail result :
  handle_request P W (js "send-email") args disk = (outcome, disk', events) ->
  In (MailSent mail result) events ->
  exists a,
    SendEmailSchema [] args = inr a /\
    fst (subject_run W (SendEmailArgs.subjectPrompt a)) = inr (MailOptions.subject mail) /\
    mail = mailOptions_of (default [] (NODEMAILER_EMAIL W)) a (MailOptions.subject mail) /\
    events = snd (subject_run W (SendEmailArgs.subjectPrompt a)) ++ [MailSent mail result].
Proof.
  intros Hrun Hin. rewrite send_email_run in Hrun.
  destruct (SendEmailSchema [] args) as [issues|a].
  { injection Hrun as <- <- <-. destruct Hin. }
  pose proof (subject_run_spec W (SendEmailArgs.subjectPrompt a)) as (_ & Hgen & _).
  destruct (subject_run W _) as [[e|subject] calls] eqn:Esub; cbn [fst snd] in *.
  { injection Hrun as <- <- <-. now apply generated_not_sent in Hin. }
  destruct (credentials_missing W).
  { injection Hrun as <- <- <-. now apply generated_not_sent in Hin. }
  cbv zeta in Hrun. injection Hrun as <- <- <-.
  apply in_app_or in Hin as [Hin|[Hin|[]]]; [now apply generated_not_sent in Hin|].
  injection Hin as <- <-. exists a. cbn [MailOptions.subject mailOptions_of].
  rewrite Esub. repeat split; reflexivity.
Qed.

(** C9.  When a validated [send-email] call has a [text] and no [html], the
    mail handed to the transport has as HTML body the page the handler's
    template builds from the subject and the text, which is not empty,
    provided the text is not empty; for an empty text the body is empty. *)
Theorem C9_text_only_mail_html (P : Platform) (W : World)
    (fields : list (jsstring * json)) (disk disk' : FileSystem)
    (outcome : thrown + ToolResult) (events : list event)
    (mail : MailOptions.t) (result : thrown + jsstring) (text : jsstring) :
  handle_request P W (js "send-email") (Some (JObject fields)) disk
    = (outcome, disk', events) ->
  In (MailSent mail result) events ->
  get_field fields (js "text") = Some (JString text) ->
  get_field fields (js "html") = None ->
  (text <> [] ->
   MailOptions.html mail = htmlTemplate (MailOptions.subject mail) text /\
   MailOptions.html mail <> []) /\
  (text = [] -> MailOptions.html mail = []).
Proof.
  intros Hrun Hin Htext Hhtml.
  destruct (send_email_mail _ _ _ _ _ _ _ _ _ Hrun Hin) as (a & Ha & _ & Hmail & _).
  apply SendEmailSchema_inv in Ha as (_ & _ & Ht & Hh).
  rewrite Htext in Ht. injection Ht as Ht.
  rewrite Hhtml in Hh. destruct (SendEmailArgs.html a) as [h|] eqn:Eh; [discriminate|].
  assert (E : MailOptions.html mail =
              match text with
              | [] => []
              | _ :: _ => htmlTemplate (MailOptions.subject mail) text
              end).
  { rewrite Hmail at 1. cbn [MailOptions.html mailOptions_of].
    unfold htmlContent_of. rewrite Eh, <- Ht. now destruct text. }
  split.
  - intros Hne. destruct text as [|c text]; [congruence|].
    split; [exact E|]. rewrite E. apply htmlTemplate_not_empty.
  - intros ->. exact E.
Qed.

(** C10.  A [send-email] call asks the model at most twice, and the subject
    of a mail it hands to the transport holds no line feed (nor any other
    line terminator) and at most 70 code units. *)
Theorem C10_subject_is_one_short_line (P : Platform) (W : World)
    (args : option json) (disk disk' : FileSystem)
    (outcome : thrown + ToolResult) (events : list event) :
  handle_request P W (js "send-email") args disk = (outcome, disk', events) ->
  (length (List.filter is_generated events) <= 2)%nat /\
  forall mail result,
    In (MailSent mail result) events ->
    ~ In 10%N (MailOptions.subject mail) /\
    one_line (MailOptions.subject mail) /\
    (length (MailOptions.subject mail) <= 70)%nat.
Proof.
  intros Hrun. split.
  - rewrite send_email_run in Hrun.
    destruct (SendEmailSchema [] args) as [issues|a].
    { injection Hrun as <- <- <-. cbn. lia. }
    pose proof (subject_run_spec W (SendEmailArgs.subjectPrompt a)) as (Hn & _ & _).
    destruct (subject_run W _) as [[e|subject] calls]; cbn [snd] in Hn.
    { now injection Hrun as <- <- <-. }
    destruct (credentials_missing W).
    { now injection Hrun as <- <- <-. }
    cbv zeta in Hrun. injection Hrun as <- <- <-.
    rewrite List.filter_app. cbn. rewrite length_app. cbn. lia.
  - intros mail result Hin.
    destruct (send_email_mail _ _ _ _ _ _ _ _ _ Hrun Hin) as (a & _ & Hs & _).
    destruct (subject_run_spec W (SendEmailArgs.subjectPrompt a)) as (_ & _ & H).
    destruct (H _ Hs) as [Hline Hlen].
    split; [now apply one_line_no_newline|]. now split.
Qed.

(** ** Validation *)

Lemma under_singleton path issue :
  issue_path issue = path -> under path [issue].
Proof.
  intros H. split; [discriminate|]. constructor; [|constructor].
  exists []. now rewrite app_nil_r.
Qed.

Lemma under_app path issues more :
  under path issues -> under path more -> under path (issues ++ more).
Proof.
  intros [N1 F1] [N2 F2]. split.
  - destruct issues; [congruence|discriminate].
  - apply Forall_app. now split.
Qed.

Lemma under_longer path segment issues :
  under (path ++ [segment]) issues -> under path issues.
Proof.
  intros [N F]. split; [exact N|].
  eapply List.Forall_impl; [|exact F]. intros issue [rest H].
  exists (segment :: rest). now rewrite H, <- app_assoc.
Qed.

Lemma under_flags key issues : under [PKey (js key)] issues -> flags key issues.
Proof.
  intros [N F]. destruct issues as [|issue issues]; [congruence|].
  apply Forall_cons_iff in F as [[rest H] _].
  exists issue, rest. split; [now left|exact H].
Qed.

Lemma flags_app_l key issues more : flags key issues -> flags key (issues ++ more).
Proof.
  intros (issue & rest & Hin & Hp). exists issue, rest.
  split; [apply in_or_app; now left|exact Hp].
Qed.

Lemma flags_app_r key issues more : flags key more -> flags key (issues ++ more).
Proof.
  intros (issue & rest & Hin & Hp). exists issue, rest.
  split; [apply in_or_app; now right|exact Hp].
Qed.

(** A failing field fails the shape, with its issues among those reported. *)
Lemma z_and_fail_r {A B} (s : shape (A -> B)) (k : shape A) path fields key :
  (exists issues, k path fields = inl issues /\ flags key issues) ->
  exists issues, z_and s k path fields = inl issues /\ flags key issues.
Proof.
  intros (issues & Hk & Hf). unfold z_and. rewrite Hk.
  destruct (s path fields) as [more|f]; eauto using flags_app_r.
Qed.

Lemma z_and_fail_l {A B} (s : shape (A -> B)) (k : shape A) path fields key :
  (exists issues, s path fields = inl issues /\ flags key issues) ->
  exists issues, z_and s k path fields = inl issues /\ flags key issues.
Proof.
  intros (issues & Hs & Hf). unfold z_and. rewrite Hs.
  destruct (k path fields) as [more|a]; eauto using flags_app_l.
Qed.

Lemma z_string_fails path input :
  match input with Some v => has_kind KString v = false | None => True end ->
  exists issues, z_string path input = inl issues /\ under path issues.
Proof.
  unfold z_string. destruct input as [[]|]; cbn; intros H; try discriminate;
    eexists; (split; [reflexivity|now apply under_singleton]).
Qed.

Lemma z_enum_fails options path input :
  match input with Some v => has_kind (KEnum options) v = false | None => True end ->
  exists issues, z_enum options path input = inl issues /\ under path issues.
Proof.
  unfold z_enum. destruct input as [[| | |s| |]|]; cbn; intros H;
    try (eexists; split; [reflexivity|now apply under_singleton]).
  destruct (decide (s ∈ options)) as [Hin|Hn].
  - apply bool_decide_eq_false in H. contradiction.
  - eexists. split; [reflexivity|now apply under_singleton].
Qed.

Lemma z_optional_fails {A} (inner : ZodType A) path v :
  (exists issues, inner path (Some v) = inl issues /\ under path issues) ->
  exists issues, z_optional inner path (Some v) = inl issues /\ under path issues.
Proof. intros (issues & H & U). unfold z_optional. rewrite H. eauto. Qed.

Lemma image_schema_spec path v :
  match image_schema path (Some v) with
  | inr _ => is_image v = true
  | inl issues => under path issues
  end.
Proof.
  unfold image_schema, z_object.
  destruct v as [| | | | |fields]; try (now apply under_singleton).
  unfold z_and, z_build, z_key, z_string, is_image.
  destruct (get_field fields (js "name")) as [[]|];
    destruct (get_field fields (js "data")) as [[]|]; try reflexivity;
    repeat first
      [ apply under_app
      | eapply (under_longer path), under_singleton; reflexivity ].
Qed.

Lemma z_items_spec path index items :
  match z_items image_schema path index items with
  | inr _ => forallb is_image items = true
  | inl issues => under path issues
  end.
Proof.
  revert index. induction items as [|v items IH]; intros index; cbn [z_items forallb].
  - reflexivity.
  - pose proof (image_schema_spec (path ++ [PIndex index]) v) as Hv.
    specialize (IH (S index)).
    destruct (image_schema _ (Some v)) as [issues|img],
             (z_items image_schema path (S index) items) as [more|imgs].
    + apply under_app; [eapply under_longer; eauto|exact IH].
    + eapply under_longer; eauto.
    + exact IH.
    + now rewrite Hv, IH.
Qed.

Lemma images_fail path v :
  has_kind KImages v = false ->
  exists issues,
    z_default (z_optional (z_array image_schema)) [] path (Some v) = inl issues /\
    under path issues.
Proof.
  intros H. unfold z_default, z_optional, z_array.
  destruct v as [| | | |items|]; try (eexists; split; [reflexivity|now apply under_singleton]).
  cbn in H. pose proof (z_items_spec path 0 items) as Hs.
  destruct (z_items image_schema path 0 items) as [issues|imgs]; [eauto|congruence].
Qed.

(** A field of the wrong kind, or a required one that is missing, fails its
    key with issues located at or under it. *)
Lemma z_key_string_fails key fields :
  match get_field fields (js key) with
  | Some v => has_kind KString v = false
  | None => True
  end ->
  exists issues, z_key key z_string [] fields = inl issues /\ flags key issues.
Proof.
  intros H. unfold z_key.
  destruct (z_string_fails [PKey (js key)] (get_field fields (js key)))
    as (issues & E & U); [exact H|].
  exists issues. split; [exact E|now apply under_flags].
Qed.

Lemma z_key_optional_string_fails key fields v :
  get_field fields (js key) = Some v -> has_kind KString v = false ->
  exists issues,
    z_key key (z_optional z_string) [] fields = inl issues /\ flags key issues.
Proof.
  intros Hg H. unfold z_key. rewrite Hg.
  destruct (z_optional_fails z_string [PKey (js key)] v) as (issues & E & U).
  { apply (z_string_fails _ (Some v)). exact H. }
  exists issues. split; [exact E|now apply under_flags].
Qed.

Lemma z_key_enum_fails key options fields :
  match get_field fields (js key) with
  | Some v => has_kind (KEnum options) v = false
  | None => True
  end ->
  exists issues,
    z_key key (z_enum options) [] fields = inl issues /\ flags key issues.
Proof.
  intros H. unfold z_key.
  destruct (z_enum_fails options [PKey (js key)] (get_field fields (js key)))
    as (issues & E & U); [exact H|].
  exists issues. split; [exact E|now apply under_flags].
Qed.

Lemma z_key_images_fail fields v :
  get_field fields (js "images") = Some v -> has_kind KImages v = false ->
  exists issues,
    z_key "images" (z_default (z_optional (z_array image_schema)) []) [] fields
      = inl issues /\ flags "images" issues.
Proof.
  intros Hg H. unfold z_key. rewrite Hg.
  destruct (images_fail [PKey (js "images")] v H) as (issues & E & U).
  exists issues. split; [exact E|now apply under_flags].
Qed.

(** A call whose arguments fail the schema of its tool throws the
    [ZodError] with the issues found, before anything else is done. *)
Lemma generate_thinking_invalid (P : Platform) (W : World) args issues disk :
  GenerateThinkingSchema [] args = inl issues ->
  handle_request P W (js "generate-thinking") args disk
  = (inl (ZodError issues), disk, []).
Proof.
  intros H. unfold handle_request. rewrite call_tool_generate_thinking.
  unfold generate_thinking. rewrite bind_run. unfold parse. now rewrite H.
Qed.

Lemma send_email_invalid (P : Platform) (W : World) args issues disk :
  SendEmailSchema [] args = inl issues ->
  handle_request P W (js "send-email") args disk
  = (inl (ZodError issues), disk, []).
Proof. intros H. now rewrite send_email_run, H. Qed.

Lemma analyze_data_invalid (P : Platform) (W : World) args issues disk :
  AnalyzeDataSchema [] args = inl issues ->
  handle_request P W (js "analyze-data") args disk
  = (inl (ZodError issues), disk, []).
Proof.
  intros H. unfold handle_request. rewrite call_tool_analyze_data.
  unfold analyze_data. rewrite bind_run. unfold parse. now rewrite H.
Qed.

(** A request without an arguments object fails at the root of the
    schema. *)
Lemma missing_arguments_object {A} (s : shape A) :
  z_object s [] None = inl [invalid_type [] (js "object") zt_undefined].
Proof. reflexivity. Qed.

(** The failing key of a shape, looked for from the last key backwards. *)
Ltac failing_key Hv :=
  first
    [ eapply z_and_fail_r;
      first
        [ apply z_key_string_fails;
          destruct (get_field _ _); [exact Hv|exact I]
        | apply z_key_enum_fails;
          destruct (get_field _ _); [exact Hv|exact I]
        | destruct (get_field _ _) eqn:Hget; [|discriminate Hv];
          first [ eapply z_key_optional_string_fails; eassumption
                | eapply z_key_images_fail; eassumption ] ]
    | eapply z_and_fail_l; failing_key Hv ].

Lemma schema_rejects_offending name fields key :
  offending name fields key ->
  (name = js "generate-thinking" ->
   exists issues,
     GenerateThinkingSchema [] (Some (JObject fields)) = inl issues /\ flags key issues) /\
  (name = js "send-email" ->
   exists issues,
     SendEmailSchema [] (Some (JObject fields)) = inl issues /\ flags key issues) /\
  (name = js "analyze-data" ->
   exists issues,
     AnalyzeDataSchema [] (Some (JObject fields)) = inl issues /\ flags key issues).
Proof.
  intros (k & required & Hin & Hv). unfold recognized_fields in Hin.
  repeat split; intros ->.
  - destruct (decide _) as [_|E]; [|now exfalso].
    unfold GenerateThinkingSchema, z_object.
    cbn [In] in Hin. repeat destruct Hin as [[= <- <- <-]|Hin]; try destruct Hin;
      failing_key Hv.
  - destruct (decide _) as [E|_]; [vm_compute in E; discriminate|].
    destruct (decide _) as [_|E]; [|now exfalso].
    unfold SendEmailSchema, z_object.
    cbn [In] in Hin. repeat destruct Hin as [[= <- <- <-]|Hin]; try destruct Hin;
      failing_key Hv.
  - destruct (decide _) as [E|_]; [vm_compute in E; discriminate|].
    destruct (decide _) as [E|_]; [vm_compute in E; discriminate|].
    destruct (decide _) as [_|E]; [|now exfalso].
    unfold AnalyzeDataSchema, z_object.
    cbn [In] in Hin. repeat destruct Hin as [[= <- <- <-]|Hin]; try destruct Hin;
      failing_key Hv.
Qed.

(** C4.  A tool call in which a recognised field is required and missing,
    or has a value of the wrong type, or an [analysisType] outside the enum,
    throws the validation error to the caller, with an issue located at the
    offending field, and does nothing else: no default stands in for the
    field and no collaborator is called. *)
Theorem C4_invalid_arguments_fail (P : Platform) (W : World)
    (name : jsstring) (fields : list (jsstring * json)) (disk : FileSystem)
    (key : string) :
  offending name fields key ->
  exists issues,
    handle_request P W name (Some (JObject fields)) disk
      = (inl (ZodError issues), disk, []) /\
    flags key issues.
Proof.
  intros H. pose proof (schema_rejects_offending name fields key H) as (H1 & H2 & H3).
  destruct H as (k & required & Hin & _). unfold recognized_fields in Hin.
  destruct (decide (name = js "generate-thinking")) as [->|_].
  { destruct (H1 eq_refl) as (issues & E & F). exists issues.
    split; [now apply generate_thinking_invalid|exact F]. }
  destruct (decide (name = js "send-email")) as [->|_].
  { destruct (H2 eq_refl) as (issues & E & F). exists issues.
    split; [now apply send_email_invalid|exact F]. }
  destruct (decide (name = js "analyze-data")) as [->|_]; [|destruct Hin].
  destruct (H3 eq_refl) as (issues & E & F). exists issues.
  split; [now apply analyze_data_invalid|exact F].
Qed.

(** ** Runs of [analyze-data] *)

Section AnalyzeRuns.

Variable P : Platform.
Variable W : World.

Lemma ensure_dir_run dir fl ds lg :
  ensure_dir dir {| fs := {| files := fl; dirs := ds |}; log := lg |} =
  (inr tt,
   {| fs := {| files := fl;
               dirs := if present {| files := fl; dirs := ds |} dir then ds
                       else {[dir]} ∪ ds |};
      log := lg ++ (if present {| files := fl; dirs := ds |} dir then []
                    else [DirMade dir]) |}).
Proof.
  unfold ensure_dir. rewrite bind_run. unfold existsSync. cbn [fs].
  destruct (present _ dir); cbn; [now rewrite app_nil_r|reflexivity].
Qed.

Lemma write_plots_run data plotsDir cols fl ds lg :
  write_plots P data plotsDir (Date_now W) cols
    {| fs := {| files := fl; dirs := ds |}; log := lg |} =
  let plotPath col :=
    path_join P plotsDir (col ++ js "_histogram_" ++ dec (Date_now W) ++ js ".html") in
  let page col :=
    chartHtml P col (bins (column_values (StringToNumber P) data col))
                    (counts (column_values (StringToNumber P) data col)) in
  (inr (map plotPath cols),
   {| fs := {| files := fold_left (fun m col => <[plotPath col := page col]> m) cols fl;
               dirs := ds |};
      log := lg ++ map (fun col => FileWritten (plotPath col) (page col)) cols |}).
Proof.
  cbv zeta. revert fl lg. induction cols as [|col cols IH]; intros fl lg.
  - cbn. now rewrite app_nil_r.
  - cbn [write_plots]. rewrite bind_run. unfold write_plot at 1.
    rewrite bind_run. unfold writeFileSync at 1. cbn [fs log files dirs ret].
    rewrite bind_run, IH. cbn [ret map fold_left].
    now rewrite <- app_assoc.
Qed.

Lemma no_calls_in_writes (f : jsstring -> jsstring) (g : jsstring -> list N) cols :
  List.filter is_generated (map (fun col => FileWritten (f col) (g col)) cols) = [].
Proof. induction cols; cbn; auto. Qed.

Lemma upload_events_no_call a disk :
  List.filter is_generated (upload_events P a disk) = [].
Proof. unfold upload_events. now destruct (present disk _). Qed.

Lemma plots_events_no_call a disk data cols :
  List.filter is_generated (plots_events P W a disk data cols) = [].
Proof.
  unfold plots_events. rewrite List.filter_app, no_calls_in_writes.
  now destruct (present _ _).
Qed.

(** The report stage, from a state whose log holds no call to the model. *)
Lemma report_on_run a data fl ds lg :
  List.filter is_generated lg = [] ->
  report_on P W a (saveDir_of P a) data
    {| fs := {| files := fl; dirs := ds |}; log := lg |} =
  let '(outcome, disk', events) :=
    report_run P W a {| files := fl; dirs := ds |} data in
  (outcome, {| fs := disk'; log := lg ++ events |}).
Proof.
  intros Hlg. unfold report_on, report_run.
  destruct data as [|row0 rest]; [unfold throw; now rewrite app_nil_r|].
  destruct (summarize (StringToNumber P) (row0 :: rest)) as [statistics|];
    [|unfold throw; now rewrite app_nil_r].
  rewrite bind_run, ensure_dir_run, bind_run, write_plots_run.
  cbv beta iota zeta.
  rewrite bind_run. unfold generate at 1. cbn [log fs].
  replace (length (List.filter is_generated _)) with 0%nat.
  2:{ rewrite !List.filter_app, Hlg, no_calls_in_writes.
      now destruct (present _ _). }
  fold (plotsDir_of P a).
  destruct (generateContent W 0 _) as [e|analysisText].
  - unfold plots_disk, plots_events, plotPath_of, plot_page. cbn [files dirs].
    now rewrite <- !app_assoc.
  - rewrite bind_run. unfold writeFileSync at 1. cbn [fs log files dirs].
    rewrite bind_run. unfold writeFileSync at 1. cbn [fs log files dirs ret].
    unfold plots_disk, plots_events, plotPath_of, plot_page, analysisPath_of,
      reportPath_of. cbn [files dirs].
    now rewrite <- !app_assoc.
Qed.

(** Every run of [analyze-data]. *)
Lemma analyze_data_run args disk :
  handle_request P W (js "analyze-data") args disk =
  match AnalyzeDataSchema [] args with
  | inl issues => (inl (ZodError issues), disk, [])
  | inr a =>
      match uploaded_rows P a with
      | inl e => (inl e, upload_disk P a disk, upload_events P a disk)
      | inr data =>
          let '(outcome, disk', events) :=
            report_run P W a (upload_disk P a disk) data in
          (outcome, disk', upload_events P a disk ++ events)
      end
  end.
Proof.
  unfold handle_request. rewrite call_tool_analyze_data.
  unfold analyze_data. rewrite bind_run. unfold parse.
  destruct (AnalyzeDataSchema [] args) as [issues|a]; [reflexivity|].
  cbn [ret]. destruct disk as [fl ds].
  fold (saveDir_of P a) (buffer_of P a). fold (tempFilePath_of P a).
  rewrite bind_run, ensure_dir_run.
  rewrite bind_run. unfold writeFileSync at 1. cbn [fs log files dirs].
  rewrite bind_run. unfold load. rewrite bind_run. unfold readFileSync.
  cbn [fs files]. rewrite lookup_insert_eq.
  unfold uploaded_rows. fold (buffer_of P a).
  assert (Hlog : List.filter is_generated
                   (([] ++ (if present {| files := fl; dirs := ds |} (saveDir_of P a)
                            then [] else [DirMade (saveDir_of P a)]))
                    ++ [FileWritten (tempFilePath_of P a) (buffer_of P a)]) = [])
    by (now destruct (present _ _)).
  unfold upload_disk, upload_events. cbn [files dirs].
  destruct (endsWith _ _).
  - cbn [ret]. rewrite (report_on_run a _ _ _ _ Hlog).
    now destruct (report_run P W a _ _) as [[outcome disk'] events].
  - destruct (XLSX_rows P (buffer_of P a)) as [e|data]; [reflexivity|].
    cbn [ret]. rewrite (report_on_run a _ _ _ _ Hlog).
    now destruct (report_run P W a _ _) as [[outcome disk'] events].
Qed.

Lemma not_generated_of_filter (l : list event) :
  List.filter is_generated l = [] ->
  Forall (fun ev => is_generated ev = false) l.
Proof.
  induction l as [|ev l IH]; cbn; [constructor|].
  destruct (is_generated ev) eqn:E; [discriminate|]. intros H.
  constructor; auto.
Qed.

Lemma not_generated_not_in (l : list event) prompt result :
  List.filter is_generated l = [] -> ~ In (Generated prompt result) l.
Proof.
  intros H Hin. apply not_generated_of_filter in H.
  apply (proj1 (List.Forall_forall _ _) H) in Hin. discriminate.
Qed.


End AnalyzeRuns.


(** C8.  When the uploaded file parses to a table with no rows, the call
    fails with the [TypeError] of the column introspection, before any call
    to the model; the server goes on with the requests that follow, from the
    disk this call left. *)
Theorem C8_empty_table_fails (P : Platform) (W : World) (args : option json)
    (a : AnalyzeDataArgs.t) (disk : FileSystem)
    (following : list (World * jsstring * option json)) :
  AnalyzeDataSchema [] args = inr a ->
  uploaded_rows P a = inr [] ->
  handle_request P W (js "analyze-data") args disk
    = (inl introspection_error, upload_disk P a disk, upload_events P a disk) /\
  Forall (fun ev => is_generated ev = false) (upload_events P a disk) /\
  serve P ((W, js "analyze-data", args) :: following) disk
    = (inl introspection_error :: fst (serve P following (upload_disk P a disk)),
       snd (serve P following (upload_disk P a disk))).
Proof.
  intros Ha Hrows.
  assert (Hrun : handle_request P W (js "analyze-data") args disk
                 = (inl introspection_error, upload_disk P a disk, upload_events P a disk)).
  { rewrite analyze_data_run, Ha, Hrows. unfold report_run.
    now rewrite app_nil_r. }
  split; [exact Hrun|]. split.
  - apply not_generated_of_filter, upload_events_no_call.
  - cbn [serve]. rewrite Hrun.
    now destruct (serve P following (upload_disk P a disk)).
Qed.

(** ** Sample calls *)

Lemma C4_invalid_arguments_fail_witness :
  exists issues,
    handle_request sample_platform sample_world (js "analyze-data")
      (analyze_args "UEsDBAoAAAAAAA==" "data.xlsx" "wrong") sample_disk
      = (inl (ZodError issues), sample_disk, []) /\
    flags "analysisType" issues.
Proof.
  apply (C4_invalid_arguments_fail sample_platform sample_world
           (js "analyze-data") _ sample_disk "analysisType").
  exists (KEnum [js "basic"; js "detailed"]), true. split.
  - vm_compute. right. right. left. reflexivity.
  - vm_compute. reflexivity.
Defined.

(** [analysisType: "wrong"]: one issue, at the field, naming the options
    and the value received. *)
Lemma analysisType_wrong_issue :
  handle_request sample_platform sample_world (js "analyze-data")
    (analyze_args "UEsDBAoAAAAAAA==" "data.xlsx" "wrong") sample_disk
  = (inl (ZodError [invalid_enum_value [PKey (js "analysisType")]
                      [js "basic"; js "detailed"] (js "wrong")]),
     sample_disk, []).
Proof. vm_compute. reflexivity. Qed.

(** [send-email] without [text]: one issue, at the field. *)
Lemma text_missing_issue :
  handle_request sample_platform sample_world (js "send-email")
    (Some (JObject [ (js "to", JString (js "cfo@example.com"));
                     (js "subjectPrompt", JString (js "the report")) ]))
    sample_disk
  = (inl (ZodError [invalid_type [PKey (js "text")] (js "string") zt_undefined]),
     sample_disk, []).
Proof. vm_compute. reflexivity. Qed.



Lemma C8_empty_table_fails_witness :
  handle_request sample_platform sample_world (js "analyze-data")
    (analyze_args "" "empty.csv" "basic") sample_disk
  = (inl introspection_error,
     upload_disk sample_platform
       (AnalyzeDataArgs.mk [] (js "empty.csv") (js "basic") None) sample_disk,
     upload_events sample_platform
       (AnalyzeDataArgs.mk [] (js "empty.csv") (js "basic") None) sample_disk).
Proof.
  apply (C8_empty_table_fails sample_platform sample_world
           (analyze_args "" "empty.csv" "basic")
           (AnalyzeDataArgs.mk [] (js "empty.csv") (js "basic") None)
           sample_disk []).
  - vm_compute. reflexivity.
  - vm_compute. reflexivity.
Defined.

(** With an empty [text] and no [html] the mail handed to the transport has
    an empty HTML body. *)
Lemma C9_empty_text_counterexample :
  let fields := email_fields [] in
  let '(outcome, disk', events) :=
    handle_request sample_platform sample_world (js "send-email")
      (Some (JObject fields)) sample_disk in
  get_field fields (js "text") = Some (JString []) /\
  get_field fields (js "html") = None /\
  exists a mail result,
    SendEmailSchema [] (Some (JObject fields)) = inr a /\
    In (MailSent mail result) events /\
    MailOptions.html mail = [].
Proof.
  vm_compute. split; [reflexivity|]. split; [reflexivity|].
  eexists _, _, _. split; [reflexivity|]. split.
  - right. left. reflexivity.
  - reflexivity.
Qed.

Lemma C9_text_only_mail_html_witness :
  exists mail result,
    In (MailSent mail result)
       (snd (handle_request sample_platform sample_world (js "send-email")
               (email_args "Figures attached.") sample_disk)) /\
    MailOptions.html mail
      = htmlTemplate (MailOptions.subject mail) (js "Figures attached.") /\
    MailOptions.html mail <> [].
Proof.
  destruct (handle_request sample_platform sample_world (js "send-email")
              (email_args "Figures attached.") sample_disk)
    as [[outcome disk'] events] eqn:Hrun.
  assert (Hin : exists mail result, In (MailSent mail result) events).
  { apply (f_equal snd) in Hrun. vm_compute in Hrun. subst events.
    eexists _, _. right. left. reflexivity. }
  destruct Hin as (mail & result & Hin). exists mail, result.
  split; [exact Hin|].
  refine (proj1 (C9_text_only_mail_html _ _ _ _ _ _ _ _ _ _ Hrun Hin _ _) _).
  - vm_compute. reflexivity.
  - vm_compute. reflexivity.
  - discriminate.
Defined.

Lemma C10_subject_is_one_short_line_witness :
  exists mail result,
    In (MailSent mail result)
       (snd (handle_request sample_platform wordy_world (js "send-email")
               (email_args "Figures attached.") sample_disk)) /\
    MailOptions.subject mail
      = js "Third Quarter Revenue Report and Forecast for the Board of Director..." /\
    ~ In 10%N (MailOptions.subject mail) /\
    one_line (MailOptions.subject mail) /\
    (length (MailOptions.subject mail) <= 70)%nat.
Proof.
  destruct (handle_request sample_platform wordy_world (js "send-email")
              (email_args "Figures attached.") sample_disk)
    as [[outcome disk'] events] eqn:Hrun.
  assert (Hin : exists mail result,
             In (MailSent mail result) events /\
             MailOptions.subject mail
             = js "Third Quarter Revenue Report and Forecast for the Board of Director...").
  { apply (f_equal snd) in Hrun. vm_compute in Hrun. subst events.
    eexists _, _. split; [right; right; left; reflexivity|]. reflexivity. }
  destruct Hin as (mail & result & Hin & Hs). exists mail, result.
  split; [exact Hin|]. split; [exact Hs|].
  exact (proj2 (C10_subject_is_one_short_line _ _ _ _ _ _ _ Hrun) mail result Hin).
Defined.

(** * Further properties *)

(** ** Attachments of [send-email] *)

Lemma split_at_last_without (lit s : jsstring) (h : N) (lit' : jsstring) :
  lit = h :: lit' -> ~ In h s -> split_at_last lit s = None.
Proof.
  intros -> Hs. induction s as [|c s IH]; [reflexivity|].
  cbn [split_at_last]. rewrite IH by (intros H; apply Hs; now right).
  cbn [starts_with].
  destruct (N.eqb_spec h c) as [->|_]; [exfalso; apply Hs; now left|reflexivity].
Qed.

Lemma starts_with_app (lit s : jsstring) : starts_with lit (lit ++ s) = true.
Proof.
  induction lit as [|c lit IH]; [reflexivity|].
  cbn. now rewrite N.eqb_refl, IH.
Qed.

Lemma split_at_last_app (lit pre post : jsstring) (h : N) (lit' : jsstring) :
  lit = h :: lit' -> ~ In h lit' -> ~ In h post -> post <> [] ->
  split_at_last lit (pre ++ lit ++ post) = Some (pre, post).
Proof.
  intros -> Hl Hp Hne. induction pre as [|c pre IH].
  - cbn [app split_at_last].
    rewrite (split_at_last_without (h :: lit') (lit' ++ post) h lit' eq_refl).
    2:{ intros H. apply in_app_or in H as [H|H]; auto. }
    change (h :: lit' ++ post) with ((h :: lit') ++ post).
    rewrite starts_with_app, drop_app_length.
    destruct post; [congruence|reflexivity].
  - rewrite <- app_comm_cons. cbn [split_at_last]. now rewrite IH.
Qed.

(** X1.  A data URL [data:<type>;base64,<data>] built from a type and data
    without line terminators, the data without [;], reads back as that type
    and that data. *)
Theorem data_url_round_trip (type base64Data : jsstring) :
  type <> [] -> base64Data <> [] ->
  forallb (fun c => negb (is_line_terminator c)) type = true ->
  forallb (fun c => negb (is_line_terminator c)) base64Data = true ->
  ~ In 59%N base64Data ->
  match_data_url (js "data:" ++ type ++ js ";base64," ++ base64Data)
  = Some (type, base64Data).
Proof.
  intros Ht Hd Lt Ld Hsemi. unfold match_data_url.
  rewrite starts_with_app.
  replace (drop 5 (js "data:" ++ type ++ js ";base64," ++ base64Data))
    with (type ++ js ";base64," ++ base64Data) by reflexivity.
  rewrite !forallb_app, Lt, Ld. cbn [andb].
  replace (forallb _ (js ";base64,")) with true by reflexivity. cbn [andb].
  rewrite (split_at_last_app (js ";base64,") type base64Data 59%N (js "base64,"));
    try assumption; try reflexivity.
  - destruct type; [congruence|reflexivity].
  - vm_compute. intros H. repeat destruct H as [H|H]; try discriminate H. exact H.
Qed.

Lemma data_url_round_trip_witness :
  match_data_url (js "data:image/png;base64,iVBORw0KGgo=")
  = Some (js "image/png", js "iVBORw0KGgo=").
Proof.
  apply (data_url_round_trip (js "image/png") (js "iVBORw0KGgo="));
    try discriminate; try reflexivity.
  vm_compute. intros H. repeat destruct H as [H|H]; try discriminate H. exact H.
Defined.

(** A string that does not start with [data:] is no data URL. *)
Lemma not_a_data_url (data : jsstring) :
  starts_with (js "data:") data = false -> match_data_url data = None.
Proof. unfold match_data_url. now intros ->. Qed.

Lemma attachments_from_In (k : nat) (images : list Image.t) (att : Attachment.t) :
  In att (attachments_from k images) <->
  exists i image type base64Data,
    nth_error images i = Some image /\
    match_data_url (Image.data image) = Some (type, base64Data) /\
    att = Attachment.mk (Image.name image) base64Data (js "base64")
                        (js "image" ++ dec (N.of_nat (k + i))) type.
Proof.
  revert k. induction images as [|image images IH]; intros k.
  - cbn. split; [easy|]. intros (i & ? & ? & ? & H & _). now destruct i.
  - cbn [attachments_from].
    destruct (match_data_url (Image.data image)) as [[type base64Data]|] eqn:E.
    + cbn [In]. rewrite IH. split.
      * intros [<-|(i & im & t & d & Hn & Hm & ->)].
        -- exists 0%nat, image, type, base64Data. rewrite Nat.add_0_r. auto.
        -- exists (S i), im, t, d. rewrite Nat.add_succ_r. auto.
      * intros ([|i] & im & t & d & Hn & Hm & ->); cbn in Hn.
        -- injection Hn as <-. rewrite E in Hm. injection Hm as <- <-.
           left. now rewrite Nat.add_0_r.
        -- right. exists i, im, t, d. rewrite Nat.add_succ_r. auto.
    + rewrite IH. split.
      * intros (i & im & t & d & Hn & Hm & ->).
        exists (S i), im, t, d. rewrite Nat.add_succ_r. auto.
      * intros ([|i] & im & t & d & Hn & Hm & ->); cbn in Hn.
        -- injection Hn as <-. congruence.
        -- exists i, im, t, d. rewrite Nat.add_succ_r. auto.
Qed.

Lemma attachments_from_length (k : nat) (images : list Image.t) :
  (length (attachments_from k images) <= length images)%nat.
Proof.
  revert k. induction images as [|image images IH]; intros k; cbn; [lia|].
  destruct (match_data_url _) as [[]|]; cbn; specialize (IH (S k)); lia.
Qed.

(** X2.  The attachments are the images whose data is a data URL, each under
    its file name, with the type and the base64 text of the URL, and with
    the content id [image<i>] of its position [i] among all the images of
    the call; the other images are left out. *)
Theorem attachments_of_images (images : list Image.t) :
  (forall att,
     In att (attachments_from 0 images) <->
     exists i image type base64Data,
       nth_error images i = Some image /\
       match_data_url (Image.data image) = Some (type, base64Data) /\
       att = Attachment.mk (Image.name image) base64Data (js "base64")
                           (js "image" ++ dec (N.of_nat i)) type) /\
  (length (attachments_from 0 images) <= length images)%nat /\
  (Forall (fun image => match_data_url (Image.data image) = None) images ->
   attachments_from 0 images = []).
Proof.
  split; [|split].
  - intros att. apply (attachments_from_In 0).
  - apply attachments_from_length.
  - intros H. destruct (attachments_from 0 images) as [|att l] eqn:E; [reflexivity|].
    assert (Hin : In att (attachments_from 0 images)) by (rewrite E; now left).
    apply attachments_from_In in Hin as (i & im & t & d & Hn & Hm & _).
    apply nth_error_In in Hn.
    apply (proj1 (List.Forall_forall _ _) H) in Hn. congruence.
Qed.

(** ** The clean-up of the subject *)

Lemma remove_markers_chars (s : jsstring) (c : N) :
  In c (remove_markers s) -> In c s /\ c <> 42%N /\ c <> 95%N.
Proof.
  remember (length s) as n eqn:Hn. revert s Hn.
  induction n as [n IH] using lt_wf_ind. intros s Hn H.
  destruct s as [|d s]; [destruct H|]. cbn [remove_markers] in H.
  destruct ((d =? 42)%N || (d =? 95)%N) eqn:M.
  - destruct s as [|d' s']; [destruct H|].
    destruct (d' =? d)%N.
    + apply (IH (length s')) in H; [|cbn in Hn; lia|reflexivity].
      destruct H as (H & ?). split; [right; right; exact H|tauto].
    + apply (IH (length (d' :: s'))) in H; [|cbn in Hn |- *; lia|reflexivity].
      destruct H as (H & ?). split; [right; exact H|tauto].
  - destruct H as [<-|H].
    + apply orb_false_iff in M as [M1 M2].
      apply N.eqb_neq in M1, M2. split; [now left|tauto].
    + apply (IH (length s)) in H; [|cbn in Hn; lia|reflexivity].
      destruct H as (H & ?). split; [right; exact H|tauto].
Qed.

Lemma strip_prefix_i_incl (prefix s rest : jsstring) (c : N) :
  strip_prefix_i prefix s = Some rest -> In c rest -> In c s.
Proof.
  revert s. induction prefix as [|p prefix IH]; intros s H Hin.
  - destruct s; cbn in H; injection H as <-; exact Hin.
  - destruct s as [|d s]; [discriminate|]. cbn in H.
    destruct (upper p =? upper d)%N; [|discriminate].
    right. now apply (IH s).
Qed.

Lemma after_label_incl (rest r : jsstring) (c : N) :
  after_label rest = Some r -> In c r -> In c rest.
Proof.
  unfold after_label. destruct rest as [|d rest]; [discriminate|].
  destruct (d =? 58)%N.
  - intros [= <-] H. right. now apply drop_spaces_incl.
  - destruct (is_space d); [|discriminate].
    destruct rest as [|e rest]; [discriminate|].
    destruct (e =? 45)%N; [|discriminate].
    intros [= <-] H. right. right. now apply drop_spaces_incl.
Qed.

Lemma remove_label_as_incl (label : string) (s r : jsstring) (c : N) :
  remove_label_as label s = Some r -> In c r -> In c s.
Proof.
  unfold remove_label_as.
  destruct (strip_prefix_i (js label) s) as [rest|] eqn:E; [|discriminate].
  intros H Hin. eapply strip_prefix_i_incl; [exact E|].
  eapply after_label_incl; eassumption.
Qed.

Lemma remove_label_incl (s : jsstring) (c : N) :
  In c (remove_label s) -> In c s.
Proof.
  unfold remove_label.
  destruct (remove_label_as "subject" s) eqn:E1;
    [exact (remove_label_as_incl _ _ _ _ E1)|].
  destruct (remove_label_as "subject line" s) eqn:E2;
    [exact (remove_label_as_incl _ _ _ _ E2)|].
  destruct (remove_label_as "email subject" s) eqn:E3;
    [exact (remove_label_as_incl _ _ _ _ E3)|].
  destruct (remove_label_as "title" s) eqn:E4;
    [exact (remove_label_as_incl _ _ _ _ E4)|].
  auto.
Qed.

Lemma remove_quotes_incl (s : jsstring) (c : N) :
  In c (remove_quotes s) -> In c s.
Proof.
  unfold remove_quotes. destruct s as [|q rest]; [auto|].
  destruct (rev rest) as [|q' rev_middle] eqn:E; [auto|].
  destruct (_ && _); [|auto].
  intros H. right. apply in_rev. rewrite E. right. now apply in_rev.
Qed.

Lemma newlines_to_spaces_chars (s : jsstring) (c : N) :
  In c (newlines_to_spaces s) -> c = 32%N \/ In c s.
Proof.
  unfold newlines_to_spaces. intros H. apply in_map_iff in H as (d & Hd & Hin).
  destruct (d =? 10)%N; subst; auto.
Qed.

Lemma collapse_spaces_from_incl (in_run : bool) (s : jsstring) (c : N) :
  In c (collapse_spaces_from in_run s) -> c = 32%N \/ In c s.
Proof.
  revert in_run. induction s as [|d s IH]; intros in_run H; cbn in H; [easy|].
  destruct (is_space d).
  - destruct in_run.
    + apply IH in H as [H|H]; [now left|right; now right].
    + destruct H as [<-|H]; [now left|].
      apply IH in H as [H|H]; [now left|right; now right].
  - destruct H as [<-|H]; [right; now left|].
    apply IH in H as [H|H]; [now left|right; now right].
Qed.

(** A code unit of a cleaned subject is a space or a code unit of the
    answer that is no formatting marker. *)
Lemma clean_subject_chars (raw : jsstring) (c : N) :
  In c (clean_subject raw) ->
  c = 32%N \/ (In c raw /\ c <> 42%N /\ c <> 95%N).
Proof.
  unfold clean_subject, collapse_spaces. intros H.
  apply trim_incl, collapse_spaces_from_incl in H as [H|H]; [now left|].
  apply newlines_to_spaces_chars in H as [H|H]; [now left|].
  apply remove_quotes_incl, remove_label_incl, remove_markers_chars in H.
  now right.
Qed.

Lemma includes_In (s needle : jsstring) (c : N) :
  includes s (c :: needle) = true -> In c s.
Proof.
  induction s as [|d s IH]; cbn; [discriminate|].
  destruct (c =? d)%N eqn:E.
  - apply N.eqb_eq in E. auto.
  - cbn. auto.
Qed.

(** A cleaned subject holds no asterisk and no underscore. *)
Lemma clean_subject_no_markers (raw : jsstring) :
  ~ In 42%N (clean_subject raw) /\ ~ In 95%N (clean_subject raw).
Proof.
  split; intros H.
  - apply clean_subject_chars in H as [H|(_ & H & _)]; [discriminate|auto].
  - apply clean_subject_chars in H as [H|(_ & _ & H)]; [discriminate|auto].
Qed.

(** X3.  After the clean-up a subject holds no asterisk and no underscore,
    so the test for [**] that sends a subject to the fallback prompt never
    fires: a subject is problematic exactly when it is longer than 70,
    shorter than 10 or holds [Option]. *)
Theorem problematic_after_cleanup (raw : jsstring) :
  ~ In 42%N (clean_subject raw) /\ ~ In 95%N (clean_subject raw) /\
  includes (clean_subject raw) (js "**") = false /\
  problematic (clean_subject raw)
  = ((70 <? length (clean_subject raw))%nat
     || (length (clean_subject raw) <? 10)%nat
     || includes (clean_subject raw) (js "Option")).
Proof.
  destruct (clean_subject_no_markers raw) as [H42 H95].
  assert (Hinc : includes (clean_subject raw) (js "**") = false).
  { destruct (includes _ _) eqn:E; [|reflexivity].
    apply includes_In in E. contradiction. }
  repeat split; try assumption.
  unfold problematic. now rewrite Hinc, orb_false_r.
Qed.

(** ** The subject that is mailed *)

Lemma drop_spaces_suffix (s : jsstring) :
  exists sp, s = sp ++ drop_spaces s.
Proof.
  induction s as [|c s [sp IH]]; [now exists []|]. cbn.
  destruct (is_space c); [|now exists []].
  exists (c :: sp). cbn. now f_equal.
Qed.

Lemma drop_spaces_starts_clean (s : jsstring) : starts_clean (drop_spaces s).
Proof.
  induction s as [|c s IH]; cbn; [exact I|].
  destruct (is_space c) eqn:E; [exact IH|exact E].
Qed.

Lemma trim_infix (s : jsstring) :
  exists a b, s = a ++ trim s ++ b /\ drop_spaces s = trim s ++ b.
Proof.
  unfold trim. destruct (drop_spaces_suffix s) as [a Ha].
  destruct (drop_spaces_suffix (rev (drop_spaces s))) as [sp Hsp].
  exists a, (rev sp). split.
  - rewrite Ha at 1. f_equal.
    rewrite <- (rev_involutive (drop_spaces s)) at 1.
    rewrite Hsp at 1. now rewrite rev_app_distr.
  - rewrite <- (rev_involutive (drop_spaces s)) at 1.
    rewrite Hsp at 1. now rewrite rev_app_distr.
Qed.

Lemma single_spaced_suffix (a b : jsstring) :
  single_spaced (a ++ b) = true -> single_spaced b = true.
Proof.
  induction a as [|c a IH]; [auto|]. cbn [app single_spaced].
  intros H. apply andb_true_iff in H as [_ H]. auto.
Qed.

Lemma single_spaced_prefix (a b : jsstring) :
  single_spaced (a ++ b) = true -> single_spaced a = true.
Proof.
  induction a as [|c a IH]; [auto|]. cbn [app single_spaced].
  intros H. apply andb_true_iff in H as [H1 H2]. rewrite (IH H2), andb_true_r.
  destruct a as [|d a]; [reflexivity|exact H1].
Qed.

Lemma single_spaced_app (a b : jsstring) :
  single_spaced a = true -> single_spaced b = true -> starts_clean b ->
  single_spaced (a ++ b) = true.
Proof.
  intros Ha Hb Hc. induction a as [|c a IH]; [exact Hb|].
  cbn [app single_spaced] in *. apply andb_true_iff in Ha as [H1 H2].
  rewrite (IH H2), andb_true_r.
  destruct a as [|d a]; [|exact H1]. cbn [app].
  destruct b as [|d b]; [reflexivity|]. cbn in Hc. now rewrite Hc, andb_false_r.
Qed.

Lemma collapse_spaces_from_single (in_run : bool) (s : jsstring) :
  single_spaced (collapse_spaces_from in_run s) = true /\
  (in_run = true -> starts_clean (collapse_spaces_from in_run s)).
Proof.
  revert in_run. induction s as [|c s IH]; intros in_run; [now split|].
  cbn [collapse_spaces_from]. destruct (is_space c) eqn:E.
  - destruct in_run.
    + apply IH.
    + split; [|discriminate]. destruct (IH true) as [H1 H2].
      cbn [single_spaced]. rewrite H1, andb_true_r.
      specialize (H2 eq_refl).
      destruct (collapse_spaces_from true s) as [|d r]; [reflexivity|].
      cbn in H2. now rewrite H2, andb_false_r.
  - destruct (IH false) as [H1 _]. split; [|intros _; exact E].
    cbn [single_spaced]. rewrite H1, andb_true_r, E.
    now destruct (collapse_spaces_from false s).
Qed.

Lemma trim_starts_clean (s : jsstring) :
  starts_clean (trim s) /\ starts_clean (rev (trim s)).
Proof.
  split.
  - destruct (trim_infix s) as (a & b & _ & H).
    pose proof (drop_spaces_starts_clean s) as Hc. rewrite H in Hc.
    now destruct (trim s).
  - unfold trim. rewrite rev_involutive. apply drop_spaces_starts_clean.
Qed.

Lemma clean_subject_tidy (raw : jsstring) : tidy (clean_subject raw).
Proof.
  destruct (clean_subject_no_markers raw) as [H42 H95].
  split; [exact H42|]. split; [exact H95|]. split; [|split].
  - intros c Hin Hsp. unfold clean_subject, collapse_spaces in Hin.
    apply trim_incl, collapse_spaces_from_chars in Hin as [H|H]; [exact H|].
    congruence.
  - unfold clean_subject.
    destruct (trim_infix (collapse_spaces (newlines_to_spaces
                (remove_quotes (remove_label (remove_markers raw))))))
      as (a & b & H & _).
    pose proof (proj1 (collapse_spaces_from_single false
                  (newlines_to_spaces (remove_quotes (remove_label
                     (remove_markers raw)))))) as Hs.
    fold (collapse_spaces (newlines_to_spaces (remove_quotes (remove_label
            (remove_markers raw))))) in Hs.
    rewrite H in Hs. apply single_spaced_suffix in Hs.
    now apply single_spaced_prefix in Hs.
  - apply trim_starts_clean.
Qed.

Lemma truncate_subject_tidy (s : jsstring) : tidy s -> tidy (truncate_subject s).
Proof.
  intros (H42 & H95 & Hsp & Hss & Hh & Ht). unfold truncate_subject, substring_0.
  destruct (Nat.ltb_spec 70 (length s)) as [L|L]; [|repeat split; assumption].
  assert (Hin : forall c, In c (firstn 67 s ++ js "...") -> In c s \/ c = 46%N).
  { intros c H. apply in_app_or in H as [H|H]; [left; now apply firstn_In in H|].
    right. cbn in H. destruct H as [<-|[<-|[<-|[]]]]; reflexivity. }
  split; [|split; [|split; [|split; [|split]]]].
  - intros H. apply Hin in H as [H|H]; [auto|discriminate].
  - intros H. apply Hin in H as [H|H]; [auto|discriminate].
  - intros c H Hc. apply Hin in H as [H|H]; [auto|subst; discriminate].
  - apply single_spaced_app; [|reflexivity|reflexivity].
    rewrite <- (firstn_skipn 67 s) in Hss. now apply single_spaced_prefix in Hss.
  - destruct s as [|c s]; [cbn in L; lia|]. exact Hh.
  - rewrite rev_app_distr. reflexivity.
Qed.

Lemma subject_run_tidy (W : World) (subjectPrompt generatedSubject : jsstring) :
  fst (subject_run W subjectPrompt) = inr generatedSubject -> tidy generatedSubject.
Proof.
  unfold subject_run.
  destruct (generateContent W 0 _) as [e|t1]; cbn [fst]; [discriminate|].
  destruct (problematic (clean_subject t1)).
  - destruct (generateContent W 1 _) as [e|t2]; cbn [fst]; [discriminate|].
    intros [= <-]. apply truncate_subject_tidy, clean_subject_tidy.
  - cbn [fst]. intros [= <-]. apply clean_subject_tidy.
Qed.

(** X4.  The subject of a mail handed to the transport holds no asterisk and
    no underscore, no white space other than single spaces, and none at
    its start or its end. *)
Theorem mailed_subject_is_tidy (P : Platform) (W : World)
    (args : option json) (disk disk' : FileSystem)
    (outcome : thrown + ToolResult) (events : list event)
    (mail : MailOptions.t) (result : thrown + jsstring) :
  handle_request P W (js "send-email") args disk = (outcome, disk', events) ->
  In (MailSent mail result) events ->
  tidy (MailOptions.subject mail).
Proof.
  intros Hrun Hin.
  destruct (send_email_mail _ _ _ _ _ _ _ _ _ Hrun Hin) as (a & _ & Hs & _).
  exact (subject_run_tidy W _ _ Hs).
Qed.

(** ** The effects of [send-email] *)

Lemma generated_not_disk (calls : list event) :
  Forall (fun ev => is_generated ev = true) calls ->
  Forall (fun ev => is_disk_event ev = false) calls /\
  List.filter is_mail_sent calls = [].
Proof.
  induction 1 as [|ev calls Hev _ [IH1 IH2]]; [now split|].
  destruct ev; try discriminate. split; [now constructor|exact IH2].
Qed.

(** X5.  [send-email] leaves the file system as it is, whatever happens, and
    hands at most one mail to the transport, as the last thing it does. *)
Theorem send_email_effects (P : Platform) (W : World)
    (args : option json) (disk disk' : FileSystem)
    (outcome : thrown + ToolResult) (events : list event) :
  handle_request P W (js "send-email") args disk = (outcome, disk', events) ->
  disk' = disk /\
  Forall (fun ev => is_disk_event ev = false) events /\
  (length (List.filter is_mail_sent events) <= 1)%nat /\
  forall mail result,
    In (MailSent mail result) events ->
    exists calls,
      events = calls ++ [MailSent mail result] /\
      Forall (fun ev => is_generated ev = true) calls.
Proof.
  intros Hrun. rewrite send_email_run in Hrun.
  destruct (SendEmailSchema [] args) as [issues|a].
  { injection Hrun as <- <- <-. split; [reflexivity|]. split; [constructor|].
    split; [cbn; lia|]. intros ? ? []. }
  pose proof (subject_run_spec W (SendEmailArgs.subjectPrompt a)) as (_ & Hgen & _).
  destruct (generated_not_disk _ Hgen) as [Hd Hm].
  destruct (subject_run W _) as [[e|subject] calls]; cbn [snd] in *.
  { injection Hrun as <- <- <-. rewrite Hm. split; [reflexivity|].
    split; [exact Hd|]. split; [cbn; lia|].
    intros mail result Hin. now apply generated_not_sent in Hin. }
  destruct (credentials_missing W).
  { injection Hrun as <- <- <-. rewrite Hm. split; [reflexivity|].
    split; [exact Hd|]. split; [cbn; lia|].
    intros mail result Hin. now apply generated_not_sent in Hin. }
  cbv zeta in Hrun. injection Hrun as <- <- <-.
  split; [reflexivity|]. split; [|split].
  - apply Forall_app. split; [exact Hd|]. now repeat constructor.
  - rewrite List.filter_app, Hm. cbn. lia.
  - intros mail result Hin.
    apply in_app_or in Hin as [Hin|[Hin|[]]]; [now apply generated_not_sent in Hin|].
    injection Hin as <- <-. now exists calls.
Qed.

(** X6.  A failure of the model while the subject is generated is thrown to
    the caller: no mail is sent, and the failed request is the last thing
    the call does. *)
Theorem subject_failure_is_thrown (P : Platform) (W : World)
    (args : option json) (disk disk' : FileSystem)
    (outcome : thrown + ToolResult) (events : list event)
    (prompt : jsstring) (e : thrown) :
  handle_request P W (js "send-email") args disk = (outcome, disk', events) ->
  In (Generated prompt (inl e)) events ->
  outcome = inl e /\
  (forall mail result, ~ In (MailSent mail result) events) /\
  exists before, events = before ++ [Generated prompt (inl e)].
Proof.
  intros Hrun Hin. rewrite send_email_run in Hrun.
  destruct (SendEmailSchema [] args) as [issues|a].
  { injection Hrun as <- <- <-. destruct Hin. }
  unfold subject_run in Hrun.
  set (p1 := enhancedPrompt (SendEmailArgs.subjectPrompt a)) in *.
  set (p2 := fallbackPrompt (SendEmailArgs.subjectPrompt a)) in *.
  destruct (generateContent W 0 p1) as [e1|t1] eqn:E1.
  { injection Hrun as <- <- <-. destruct Hin as [[= <- <-]|[]].
    split; [reflexivity|]. split; [|now exists []].
    intros mail result [H|[]]. discriminate H. }
  destruct (problematic (clean_subject t1)).
  - destruct (generateContent W 1 p2) as [e2|t2] eqn:E2.
    + injection Hrun as <- <- <-.
      destruct Hin as [[=]|[[= <- <-]|[]]].
      split; [reflexivity|]. split; [|now exists [Generated p1 (inr t1)]].
      intros mail result [H|[H|[]]]; discriminate H.
    + destruct (credentials_missing W).
      * injection Hrun as <- <- <-. destruct Hin as [[=]|[[=]|[]]].
      * cbv zeta in Hrun. injection Hrun as <- <- <-.
        destruct Hin as [[=]|[[=]|[[=]|[]]]].
  - destruct (credentials_missing W).
    + injection Hrun as <- <- <-. destruct Hin as [[=]|[]].
    + cbv zeta in Hrun. injection Hrun as <- <- <-.
      destruct Hin as [[=]|[[=]|[]]].
Qed.

(** X7.  The credentials of the mail account are looked at only after the
    subject has been generated: without them a call with valid arguments
    asks the model first and then throws, and no mail is sent. *)
Theorem credentials_checked_after_subject (P : Platform) (W : World)
    (args : option json) (a : SendEmailArgs.t) (disk disk' : FileSystem)
    (outcome : thrown + ToolResult) (events : list event) :
  handle_request P W (js "send-email") args disk = (outcome, disk', events) ->
  SendEmailSchema [] args = inr a ->
  credentials_missing W = true ->
  (forall mail result, ~ In (MailSent mail result) events) /\
  In (Generated (enhancedPrompt (SendEmailArgs.subjectPrompt a))
        (generateContent W 0 (enhancedPrompt (SendEmailArgs.subjectPrompt a))))
     events /\
  ((forall prompt e, ~ In (Generated prompt (inl e)) events) ->
   outcome = inl credentials_error).
Proof.
  intros Hrun Ha Hc. rewrite send_email_run, Ha, Hc in Hrun.
  pose proof (subject_run_spec W (SendEmailArgs.subjectPrompt a)) as (_ & Hgen & _).
  assert (Hfirst : In (Generated (enhancedPrompt (SendEmailArgs.subjectPrompt a))
                         (generateContent W 0
                            (enhancedPrompt (SendEmailArgs.subjectPrompt a))))
                      (snd (subject_run W (SendEmailArgs.subjectPrompt a)))).
  { unfold subject_run.
    destruct (generateContent W 0 _) as [e1|t1]; [now left|].
    destruct (problematic _); [|now left].
    destruct (generateContent W 1 _); now left. }
  assert (Hfail : forall e,
             fst (subject_run W (SendEmailArgs.subjectPrompt a)) = inl e ->
             exists prompt,
               In (Generated prompt (inl e))
                  (snd (subject_run W (SendEmailArgs.subjectPrompt a)))).
  { unfold subject_run.
    destruct (generateContent W 0 _) as [e1|t1] eqn:E1.
    { intros e [= <-]. eexists. now left. }
    destruct (problematic _); [|discriminate].
    destruct (generateContent W 1 _) as [e2|t2] eqn:E2; [|discriminate].
    intros e [= <-]. eexists. right. now left. }
  destruct (subject_run W _) as [[e|subject] calls]; cbn [fst snd] in *;
    injection Hrun as <- <- <-.
  - split; [intros mail result H; now apply generated_not_sent in H|].
    split; [exact Hfirst|].
    intros Hno. destruct (Hfail e eq_refl) as [prompt Hin].
    now apply Hno in Hin.
  - split; [intros mail result H; now apply generated_not_sent in H|].
    split; [exact Hfirst|]. reflexivity.
Qed.

(** X8.  A mail handed to the transport goes to the [to] of the call with
    the [text] of the call, from the account of the environment; a
    non-empty [html] of the call is its HTML body as it is, and an empty one
    gives way to the page built from the text. *)
Theorem mail_envelope (P : Platform) (W : World)
    (fields : list (jsstring * json)) (disk disk' : FileSystem)
    (outcome : thrown + ToolResult) (events : list event)
    (mail : MailOptions.t) (result : thrown + jsstring) :
  handle_request P W (js "send-email") (Some (JObject fields)) disk
    = (outcome, disk', events) ->
  In (MailSent mail result) events ->
  get_field fields (js "to") = Some (JString (MailOptions.to mail)) /\
  get_field fields (js "text") = Some (JString (MailOptions.text mail)) /\
  NODEMAILER_EMAIL W = Some (MailOptions.from mail) /\
  MailOptions.from mail <> [] /\
  (forall html,
     get_field fields (js "html") = Some (JString html) -> html <> [] ->
     MailOptions.html mail = html) /\
  (get_field fields (js "html") = Some (JString []) ->
   MailOptions.text mail <> [] ->
   MailOptions.html mail
   = htmlTemplate (MailOptions.subject mail) (MailOptions.text mail)).
Proof.
  intros Hrun Hin. rewrite send_email_run in Hrun.
  destruct (SendEmailSchema [] (Some (JObject fields))) as [issues|a] eqn:Ha.
  { injection Hrun as <- <- <-. destruct Hin. }
  pose proof (subject_run_spec W (SendEmailArgs.subjectPrompt a)) as (_ & Hgen & _).
  destruct (subject_run W _) as [[e|subject] calls]; cbn [fst snd] in *.
  { injection Hrun as <- <- <-. now apply generated_not_sent in Hin. }
  destruct (credentials_missing W) eqn:Hc.
  { injection Hrun as <- <- <-. now apply generated_not_sent in Hin. }
  cbv zeta in Hrun. injection Hrun as <- <- <-.
  apply in_app_or in Hin as [Hin|[Hin|[]]]; [now apply generated_not_sent in Hin|].
  injection Hin as <- _.
  apply SendEmailSchema_inv in Ha as (Hto & _ & Htext & Hhtml).
  cbn [MailOptions.to MailOptions.text MailOptions.from MailOptions.html
       MailOptions.subject mailOptions_of].
  unfold credentials_missing in Hc. apply orb_false_iff in Hc as [Hu _].
  apply negb_false_iff in Hu.
  destruct (NODEMAILER_EMAIL W) as [[|c user]|]; try discriminate Hu.
  cbn [default].
  split; [exact Hto|]. split; [exact Htext|]. split; [reflexivity|].
  split; [discriminate|]. split.
  - intros html Hget Hne. rewrite Hget in Hhtml.
    destruct (SendEmailArgs.html a) as [h|]; [|discriminate].
    injection Hhtml as <-. unfold htmlContent_of.
    destruct html; [congruence|reflexivity].
  - intros Hget Hne. rewrite Hget in Hhtml.
    destruct (SendEmailArgs.html a) as [h|]; [|discriminate].
    injection Hhtml as <-. unfold htmlContent_of.
    destruct (SendEmailArgs.text a); [congruence|reflexivity].
Qed.


(** ** The runs of [generate-thinking] *)

Section ThinkingRuns.

Variable P : Platform.
Variable W : World.

(** Every run of [generate-thinking]. *)
Lemma generate_thinking_run args disk :
  handle_request P W (js "generate-thinking") args disk =
  match GenerateThinkingSchema [] args with
  | inl issues => (inl (ZodError issues), disk, [])
  | inr a =>
      let prompt := GenerateThinkingArgs.prompt a in
      match generateContent W 0 prompt with
      | inl e =>
          (inl e, thinking_disk P a disk,
           thinking_events P a disk ++ [Generated prompt (inl e)])
      | inr responseText =>
          (inr (text_result
                  (styledHtmlResponse P prompt (htmlResponse P responseText)
                     (thinkingPath_of P W a))),
           {| files := <[thinkingPath_of P W a := responseText]> (files disk);
              dirs := dirs (thinking_disk P a disk) |},
           thinking_events P a disk
           ++ [Generated prompt (inr responseText);
               FileWritten (thinkingPath_of P W a) responseText])
      end
  end.
Proof.
  unfold handle_request. rewrite call_tool_generate_thinking.
  unfold generate_thinking. rewrite bind_run. unfold parse.
  destruct (GenerateThinkingSchema [] args) as [issues|a]; [reflexivity|].
  cbn [ret]. destruct disk as [fl ds].
  fold (thinkingDir_of P a).
  rewrite bind_run, ensure_dir_run. rewrite bind_run.
  unfold generate at 1. cbn [fs log].
  replace (length (List.filter is_generated _)) with 0%nat
    by (now destruct (present _ _)).
  cbv zeta. unfold thinking_disk, thinking_events. cbn [files dirs app].
  destruct (generateContent W 0 _) as [e|responseText]; [reflexivity|].
  rewrite bind_run. unfold writeFileSync. cbn [fs log files dirs ret].
  fold (thinkingPath_of P W a). now rewrite <- app_assoc.
Qed.

End ThinkingRuns.

(** X10.  When the model answers, [generate-thinking] saves the answer as it
    came, under [gemini_thinking_<timestamp>.txt] in the output directory,
    and returns the page built from it; the file is the only one the call
    writes and writing it is the last thing the call does. *)
Theorem thinking_is_saved (P : Platform) (W : World)
    (args : option json) (disk disk' : FileSystem)
    (outcome : thrown + ToolResult) (events : list event)
    (prompt responseText : jsstring) :
  handle_request P W (js "generate-thinking") args disk = (outcome, disk', events) ->
  In (Generated prompt (inr responseText)) events ->
  exists a,
    GenerateThinkingSchema [] args = inr a /\
    prompt = GenerateThinkingArgs.prompt a /\
    outcome = inr (text_result
                     (styledHtmlResponse P prompt (htmlResponse P responseText)
                        (thinkingPath_of P W a))) /\
    files disk' = <[thinkingPath_of P W a := responseText]> (files disk) /\
    List.filter is_disk_event events
    = thinking_events P a disk ++ [FileWritten (thinkingPath_of P W a) responseText] /\
    exists before,
      events = before ++ [FileWritten (thinkingPath_of P W a) responseText].
Proof.
  intros Hrun Hin. rewrite generate_thinking_run in Hrun.
  destruct (GenerateThinkingSchema [] args) as [issues|a].
  { injection Hrun as <- <- <-. destruct Hin. }
  exists a. split; [reflexivity|]. cbv zeta in Hrun.
  assert (Hte : forall ev, In ev (thinking_events P a disk) ->
                           ev = DirMade (thinkingDir_of P a)).
  { unfold thinking_events. destruct (present _ _); [intros ? []|].
    intros ev [<-|[]]. reflexivity. }
  destruct (generateContent W 0 _) as [e|text]; injection Hrun as <- <- <-.
  - apply in_app_or in Hin as [Hin|[Hin|[]]]; [apply Hte in Hin|]; discriminate.
  - apply in_app_or in Hin as [Hin|[Hin|[Hin|[]]]];
      [apply Hte in Hin; discriminate| |discriminate].
    injection Hin as <- ->.
    split; [reflexivity|]. split; [reflexivity|]. split; [reflexivity|]. split.
    + rewrite List.filter_app. cbn. f_equal.
      unfold thinking_events. now destruct (present _ _).
    + exists (thinking_events P a disk
              ++ [Generated (GenerateThinkingArgs.prompt a) (inr responseText)]).
      now rewrite <- app_assoc.
Qed.

(** X11.  When the model fails, [generate-thinking] throws its error and
    writes no file; at most the output directory has been made. *)
Theorem thinking_failure_writes_nothing (P : Platform) (W : World)
    (args : option json) (disk disk' : FileSystem)
    (outcome : thrown + ToolResult) (events : list event)
    (prompt : jsstring) (e : thrown) :
  handle_request P W (js "generate-thinking") args disk = (outcome, disk', events) ->
  In (Generated prompt (inl e)) events ->
  outcome = inl e /\
  files disk' = files disk /\
  (forall path data, ~ In (FileWritten path data) events) /\
  exists before, events = before ++ [Generated prompt (inl e)].
Proof.
  intros Hrun Hin. rewrite generate_thinking_run in Hrun.
  destruct (GenerateThinkingSchema [] args) as [issues|a].
  { injection Hrun as <- <- <-. destruct Hin. }
  cbv zeta in Hrun.
  assert (Hte : forall ev, In ev (thinking_events P a disk) ->
                           ev = DirMade (thinkingDir_of P a)).
  { unfold thinking_events. destruct (present _ _); [intros ? []|].
    intros ev [<-|[]]. reflexivity. }
  destruct (generateContent W 0 _) as [e0|text]; injection Hrun as <- <- <-.
  - apply in_app_or in Hin as [Hin|[Hin|[]]]; [apply Hte in Hin; discriminate|].
    injection Hin as <- <-.
    split; [reflexivity|]. split; [reflexivity|]. split; [|eauto].
    intros path data H. apply in_app_or in H as [H|[H|[]]];
      [apply Hte in H|]; discriminate.
  - apply in_app_or in Hin as [Hin|[Hin|[Hin|[]]]];
      [apply Hte in Hin|..]; discriminate.
Qed.

(** ** The runs of [analyze-data] *)

(** X12.  An empty [outputDir] is taken as none: the call saves under the
    default directory, as the same call without [outputDir] does. *)
Theorem empty_outputDir_is_default (P : Platform) (W : World)
    (fields fields' : list (jsstring * json)) (disk : FileSystem) :
  get_field fields (js "outputDir") = Some (JString []) ->
  get_field fields' (js "outputDir") = None ->
  (get_field fields (js "prompt") = get_field fields' (js "prompt") ->
   handle_request P W (js "generate-thinking") (Some (JObject fields)) disk
   = handle_request P W (js "generate-thinking") (Some (JObject fields')) disk) /\
  (get_field fields (js "fileData") = get_field fields' (js "fileData") ->
   get_field fields (js "fileName") = get_field fields' (js "fileName") ->
   get_field fields (js "analysisType") = get_field fields' (js "analysisType") ->
   handle_request P W (js "analyze-data") (Some (JObject fields)) disk
   = handle_request P W (js "analyze-data") (Some (JObject fields')) disk).
Proof.
  intros Ho Ho'. split.
  - intros Hp. rewrite !generate_thinking_run.
    unfold GenerateThinkingSchema, z_object, z_and, z_key, z_build.
    rewrite Ho, Ho', Hp. cbn [z_optional z_string].
    destruct (z_string _ (get_field fields' (js "prompt"))); reflexivity.
  - intros Hd Hn Ht. rewrite !analyze_data_run.
    unfold AnalyzeDataSchema, z_object, z_and, z_key, z_build.
    rewrite Ho, Ho', Hd, Hn, Ht. cbn [z_optional z_string].
    destruct (z_string _ (get_field fields' (js "fileData")));
      destruct (z_string _ (get_field fields' (js "fileName")));
      destruct (z_enum _ _ (get_field fields' (js "analysisType")));
      reflexivity.
Qed.

(** X13.  When the file is no CSV file and the workbook reader rejects it,
    [analyze-data] throws the reader's error: the uploaded file stays on
    disk, no chart is written and the model is not asked. *)
Theorem unreadable_workbook_fails (P : Platform) (W : World)
    (args : option json) (a : AnalyzeDataArgs.t) (disk : FileSystem) (e : thrown) :
  AnalyzeDataSchema [] args = inr a ->
  endsWith (AnalyzeDataArgs.fileName a) (js ".csv") = false ->
  XLSX_rows P (buffer_of P a) = inl e ->
  handle_request P W (js "analyze-data") args disk
  = (inl e, upload_disk P a disk, upload_events P a disk) /\
  files (upload_disk P a disk) !! tempFilePath_of P a = Some (buffer_of P a) /\
  Forall (fun ev => is_generated ev = false) (upload_events P a disk).
Proof.
  intros Ha Hcsv Hx. split; [|split].
  - rewrite analyze_data_run, Ha. unfold uploaded_rows. now rewrite Hcsv, Hx.
  - unfold upload_disk. cbn [files]. apply lookup_insert_eq.
  - apply not_generated_of_filter, upload_events_no_call.
Qed.

(** X14.  When the model answers, [analyze-data] saves the answer and then
    the report built from the statistics, the answer and the chart pages,
    and returns the summary that names both files; nothing follows the
    write of the report. *)
Theorem analysis_is_saved (P : Platform) (W : World)
    (args : option json) (disk disk' : FileSystem)
    (outcome : thrown + ToolResult) (events : list event)
    (prompt analysisText : jsstring) :
  handle_request P W (js "analyze-data") args disk = (outcome, disk', events) ->
  In (Generated prompt (inr analysisText)) events ->
  exists a row0 rest statistics,
    AnalyzeDataSchema [] args = inr a /\
    uploaded_rows P a = inr (row0 :: rest) /\
    summarize (StringToNumber P) (row0 :: rest) = Some statistics /\
    prompt = analysisPrompt P (row0 :: rest) statistics (AnalyzeDataArgs.analysisType a) /\
    let report :=
      htmlReport P statistics analysisText
        (map (plotPath_of P W a) (numericColumns row0)) (saveDir_of P a) in
    outcome = inr (text_result
                     (analysisSummary P (AnalyzeDataArgs.fileName a)
                        (AnalyzeDataArgs.analysisType a) statistics
                        (reportPath_of P W a) (analysisPath_of P W a)
                        (plotsDir_of P a))) /\
    files disk' !! reportPath_of P W a = Some report /\
    (analysisPath_of P W a <> reportPath_of P W a ->
     files disk' !! analysisPath_of P W a = Some analysisText) /\
    exists before,
      Forall (fun ev => is_generated ev = false) before /\
      events = before ++ [Generated prompt (inr analysisText);
                          FileWritten (analysisPath_of P W a) analysisText;
                          FileWritten (reportPath_of P W a) report].
Proof.
  intros Hrun Hin. rewrite analyze_data_run in Hrun.
  destruct (AnalyzeDataSchema [] args) as [issues|a] eqn:Ea.
  { injection Hrun as <- <- <-. destruct Hin. }
  pose proof (upload_events_no_call P a disk) as Hup.
  destruct (uploaded_rows P a) as [e0|data] eqn:Eu.
  { injection Hrun as <- <- <-. now apply not_generated_not_in in Hin. }
  unfold report_run in Hrun.
  destruct data as [|row0 rest].
  { injection Hrun as <- <- <-. rewrite app_nil_r in Hin.
    now apply not_generated_not_in in Hin. }
  destruct (summarize (StringToNumber P) (row0 :: rest)) as [statistics|] eqn:Es.
  2:{ injection Hrun as <- <- <-. rewrite app_nil_r in Hin.
      now apply not_generated_not_in in Hin. }
  pose proof (plots_events_no_call P W a (upload_disk P a disk) (row0 :: rest)
                (numericColumns row0)) as Hpl.
  cbv zeta in Hrun.
  destruct (generateContent W 0 _) as [e0|text];
    injection Hrun as <- <- <-;
    apply in_app_or in Hin as [Hin|Hin];
    try (now apply not_generated_not_in in Hin);
    apply in_app_or in Hin as [Hin|Hin];
    try (now apply not_generated_not_in in Hin).
  - destruct Hin as [[=]|[]].
  - destruct Hin as [Hin|[[=]|[[=]|[]]]]. injection Hin as <- ->.
    exists a, row0, rest, statistics.
    split; [reflexivity|]. split; [exact Eu|]. split; [exact Es|].
    split; [reflexivity|]. cbv zeta.
    split; [reflexivity|]. split; [|split].
    + cbn [files]. apply lookup_insert_eq.
    + intros Hne. cbn [files]. rewrite lookup_insert_ne by auto.
      apply lookup_insert_eq.
    + exists (upload_events P a disk
              ++ plots_events P W a (upload_disk P a disk) (row0 :: rest)
                              (numericColumns row0)).
      split; [|now rewrite <- app_assoc].
      apply not_generated_of_filter. now rewrite List.filter_app, Hup, Hpl.
Qed.

(** X15.  A table whose first row holds no number has no numeric statistics,
    whatever the other rows hold, and gets no chart page: once the upload
    is written and the plots directory is there, the model is asked. *)
Theorem no_number_in_first_row (P : Platform) (W : World)
    (args : option json) (a : AnalyzeDataArgs.t) (disk disk' : FileSystem)
    (outcome : thrown + ToolResult) (events : list event)
    (row0 : DataRow) (rest : list DataRow) :
  handle_request P W (js "analyze-data") args disk = (outcome, disk', events) ->
  AnalyzeDataSchema [] args = inr a ->
  uploaded_rows P a = inr (row0 :: rest) ->
  (forall col x, row_get row0 col <> Some (CNum x)) ->
  exists statistics tail,
    summarize (StringToNumber P) (row0 :: rest) = Some statistics /\
    numericStats statistics = ∅ /\
    rowCount statistics = S (length rest) /\
    columnCount statistics = length row0 /\
    let prompt :=
      analysisPrompt P (row0 :: rest) statistics (AnalyzeDataArgs.analysisType a) in
    events
    = upload_events P a disk
      ++ (if present (upload_disk P a disk) (plotsDir_of P a) then []
          else [DirMade (plotsDir_of P a)])
      ++ Generated prompt (generateContent W 0 prompt) :: tail.
Proof.
  intros Hrun Ha Hrows Hno.
  assert (Hcols : numericColumns row0 = []).
  { unfold numericColumns.
    destruct (List.filter _ _) as [|col cols] eqn:E; [reflexivity|].
    assert (Hin : In col (List.filter
                            (fun col => typeof_number (row_get row0 col))
                            (Object_keys row0))) by (rewrite E; now left).
    apply filter_In in Hin as [_ Hin].
    destruct (row_get row0 col) as [[x|s]|] eqn:Eg; try discriminate.
    now apply Hno in Eg. }
  set (statistics := {| rowCount := length (row0 :: rest);
                        columnCount := length (Object_keys row0);
                        numericStats := ∅;
                        categoricalStats := ∅ |}).
  assert (Hs : summarize (StringToNumber P) (row0 :: rest) = Some statistics)
    by (cbn [summarize]; now rewrite Hcols).
  rewrite analyze_data_run, Ha, Hrows in Hrun. unfold report_run in Hrun.
  rewrite Hs, Hcols in Hrun. cbv zeta in Hrun.
  unfold plots_events in Hrun. cbn [map] in Hrun. rewrite app_nil_r in Hrun.
  exists statistics.
  destruct (generateContent W 0 _) as [e|text] eqn:Eg;
    injection Hrun as <- <- <-; eexists;
    (split; [exact Hs|]); (split; [reflexivity|]);
    (split; [reflexivity|]);
    (split; [cbn; unfold Object_keys; now rewrite length_map|]);
    cbv zeta; rewrite Eg, <- ?app_assoc; reflexivity.
Qed.

(** ** The order of the numbers *)

Module Order.
Import Binary64.
Local Open Scope Z_scope.

Lemma rank_finite_bounds (m : positive) (e : Z) :
  bounded prec emax m e = true ->
  0 < Zpos m * 2 ^ (e + 1074) < 2 ^ 2100.
Proof.
  intros B. destruct (bounded_inv _ _ B) as (He & Hd & _).
  unfold bounded in B. apply andb_true_iff in B as [_ B]. apply Z.leb_le in B.
  change (emax - prec) with 971 in B. unfold emin64 in He.
  pose proof (digits2_pos_bounds m) as [_ Hm].
  assert (P : 0 < 2 ^ (e + 1074)) by (apply Z.pow_pos_nonneg; lia).
  split; [lia|].
  assert (H53 : Zpos m < 2 ^ 53).
  { eapply Z.lt_le_trans; [exact Hm|]. apply Z.pow_le_mono_r; lia. }
  assert (H2 : 2 ^ (e + 1074) <= 2 ^ 2045) by (apply Z.pow_le_mono_r; lia).
  replace (2 ^ 2100) with (2 ^ 53 * 2 ^ 2047) by (rewrite <- Z.pow_add_r; [reflexivity|lia|lia]).
  assert (H3 : 2 ^ 2045 < 2 ^ 2047) by (apply Z.pow_lt_mono_r; lia).
  assert (0 < 2 ^ 53) by reflexivity.
  nia.
Qed.

(** Numbers compare as their ranks. *)
Lemma SFcompare_rank (x y : spec_float) :
  valid_binary x = true -> valid_binary y = true ->
  x <> S754_nan -> y <> S754_nan ->
  SFcompare x y = Some (rank x ?= rank y).
Proof.
  intros Vx Vy Nx Ny.
  assert (Pinf : 0 < 2 ^ 2100) by (apply Z.pow_pos_nonneg; lia).
  destruct x as [sx|sx| |sx mx ex], y as [sy|sy| |sy my ey]; try congruence;
    cbn [valid_binary] in *;
    try (pose proof (rank_finite_bounds _ _ Vx) as Bx);
    try (pose proof (rank_finite_bounds _ _ Vy) as By).
  - reflexivity.
  - cbn [SFcompare rank]. f_equal. destruct sy; cbn [cond_Zopp]; symmetry;
      [apply Z.compare_gt_iff|apply Z.compare_lt_iff]; lia.
  - cbn [SFcompare rank]. f_equal. destruct sy; cbn [cond_Zopp]; symmetry;
      [apply Z.compare_gt_iff|apply Z.compare_lt_iff]; lia.
  - cbn [SFcompare rank]. f_equal. destruct sx; cbn [cond_Zopp]; symmetry;
      [apply Z.compare_lt_iff|apply Z.compare_gt_iff]; lia.
  - cbn [SFcompare rank]. f_equal. destruct sx, sy; cbn [cond_Zopp]; symmetry;
      first [apply Z.compare_eq_iff; lia|apply Z.compare_lt_iff; lia
            |apply Z.compare_gt_iff; lia].
  - cbn [SFcompare rank]. f_equal. destruct sx, sy; cbn [cond_Zopp]; symmetry;
      first [apply Z.compare_lt_iff; lia|apply Z.compare_gt_iff; lia].
  - cbn [SFcompare rank]. f_equal. destruct sx; cbn [cond_Zopp]; symmetry;
      [apply Z.compare_lt_iff|apply Z.compare_gt_iff]; lia.
  - cbn [SFcompare rank]. f_equal. destruct sx, sy; cbn [cond_Zopp]; symmetry;
      first [apply Z.compare_lt_iff; lia|apply Z.compare_gt_iff; lia].
  - rewrite (SFcompare_aligned _ _ _ _ _ _ Vx Vy). f_equal.
    destruct (bounded_inv _ _ Vx) as (Hex & _), (bounded_inv _ _ Vy) as (Hey & _).
    unfold emin64 in *. unfold aligned. cbn [rank].
    set (mn := Z.min ex ey).
    assert (Pm : 0 < 2 ^ (mn + 1074)) by (apply Z.pow_pos_nonneg; lia).
    assert (Ex : Zpos mx * 2 ^ (ex + 1074)
                 = Zpos mx * 2 ^ (ex - mn) * 2 ^ (mn + 1074)).
    { rewrite <- Z.mul_assoc, <- Z.pow_add_r by lia. do 2 f_equal. lia. }
    assert (Ey : Zpos my * 2 ^ (ey + 1074)
                 = Zpos my * 2 ^ (ey - mn) * 2 ^ (mn + 1074)).
    { rewrite <- Z.mul_assoc, <- Z.pow_add_r by lia. do 2 f_equal. lia. }
    rewrite Ex, Ey.
    set (X := Zpos mx * 2 ^ (ex - mn)). set (Y := Zpos my * 2 ^ (ey - mn)).
    destruct (Z.compare_spec (cond_Zopp sx X) (cond_Zopp sy Y)) as [E|L|G];
      symmetry; destruct sx, sy; cbn [cond_Zopp] in *;
      first [apply Z.compare_eq_iff; nia|apply Z.compare_lt_iff; nia
            |apply Z.compare_gt_iff; nia].
Qed.

Local Open Scope float_scope.

Lemma leb_rank (a b : float) :
  is_nan a = false -> is_nan b = false ->
  (a <=? b) = (rank (Prim2SF a) <=? rank (Prim2SF b))%Z.
Proof.
  intros Na Nb. apply is_nan_false in Na, Nb.
  rewrite FloatAxioms.leb_spec. unfold SFleb.
  rewrite (SFcompare_rank _ _ (Prim2SF_valid a) (Prim2SF_valid b) Na Nb).
  unfold Z.leb. now destruct (_ ?= _)%Z.
Qed.

Lemma ltb_rank (a b : float) :
  is_nan a = false -> is_nan b = false ->
  (a <? b) = (rank (Prim2SF a) <? rank (Prim2SF b))%Z.
Proof.
  intros Na Nb. apply is_nan_false in Na, Nb.
  rewrite FloatAxioms.ltb_spec. unfold SFltb.
  rewrite (SFcompare_rank _ _ (Prim2SF_valid a) (Prim2SF_valid b) Na Nb).
  unfold Z.ltb. now destruct (_ ?= _)%Z.
Qed.

End Order.

(** ** Minimum, maximum and median *)

Section Extremes.

Import Binary64 Order.
Local Open Scope float_scope.

Lemma zero_sign (a : float) :
  is_zero a = true -> Prim2SF a = S754_zero (get_sign a).
Proof.
  intros Hz. destruct (is_zero_spec a Hz) as [s Hs].
  assert (Hn : is_nan a = false) by (apply is_nan_false; rewrite Hs; discriminate).
  unfold Prim2SF. now rewrite Hn, Hz.
Qed.

Lemma is_neg_zero_eq (a : float) : is_neg_zero a = true -> a = neg_zero.
Proof.
  unfold is_neg_zero. intros H. apply andb_true_iff in H as [Hz Hs].
  apply Prim2SF_inj. now rewrite (zero_sign a Hz), Hs.
Qed.

Lemma is_pos_zero_eq (a : float) : is_pos_zero a = true -> a = PrimFloat.zero.
Proof.
  unfold is_pos_zero. intros H. apply andb_true_iff in H as [Hz Hs].
  apply negb_true_iff in Hs.
  apply Prim2SF_inj. now rewrite (zero_sign a Hz), Hs.
Qed.

Lemma nan_free_existsb (V : list float) :
  nan_free V -> existsb is_nan V = false.
Proof.
  induction 1 as [|v V Hv _ IH]; [reflexivity|]. cbn. now rewrite Hv, IH.
Qed.

Local Abbreviation R x := (rank (Prim2SF x)).

(** One step of the scan of [Math.min]. *)
Lemma min_step (lowest number : float) :
  is_nan lowest = false -> is_nan number = false ->
  let r := if is_neg_zero number && is_pos_zero lowest then neg_zero
           else if number <? lowest then number else lowest in
  is_nan r = false /\ (r = lowest \/ r = number) /\
  (R r <= R lowest)%Z /\ (R r <= R number)%Z.
Proof.
  intros Nl Nn. cbv zeta.
  destruct (is_neg_zero number && is_pos_zero lowest) eqn:Z.
  - apply andb_true_iff in Z as [Zn Zl].
    apply is_neg_zero_eq in Zn. apply is_pos_zero_eq in Zl. subst.
    split; [reflexivity|]. split; [now right|]. split; reflexivity.
  - rewrite (ltb_rank _ _ Nn Nl).
    destruct (Z.ltb_spec (R number) (R lowest)).
    + split; [exact Nn|]. split; [now right|]. lia.
    + split; [exact Nl|]. split; [now left|]. lia.
Qed.

Lemma min_scan (l : list float) (lowest : float) :
  nan_free l -> is_nan lowest = false ->
  let r := fold_left (fun lowest number =>
                        if is_neg_zero number && is_pos_zero lowest then neg_zero
                        else if number <? lowest then number else lowest)
                     l lowest in
  is_nan r = false /\ (r = lowest \/ In r l) /\
  (R r <= R lowest)%Z /\ forall v, In v l -> (R r <= R v)%Z.
Proof.
  intros Hl. revert lowest. induction Hl as [|v l Hv _ IH]; intros lowest Nl.
  - cbn. split; [exact Nl|]. split; [now left|]. split; [lia|]. intros ? [].
  - cbn [fold_left]. destruct (min_step lowest v Nl Hv) as (N & E & L1 & L2).
    cbv zeta in *. destruct (IH _ N) as (Nr & Er & Lr & Hall).
    split; [exact Nr|]. split; [|split].
    + destruct Er as [Er|Er]; [|right; now right].
      rewrite Er. destruct E as [E|E]; [now left|right; left; now rewrite E].
    + lia.
    + intros u [<-|Hu]; [lia|now apply Hall].
Qed.

Lemma max_step (highest number : float) :
  is_nan highest = false -> is_nan number = false ->
  let r := if is_pos_zero number && is_neg_zero highest then PrimFloat.zero
           else if highest <? number then number else highest in
  is_nan r = false /\ (r = highest \/ r = number) /\
  (R highest <= R r)%Z /\ (R number <= R r)%Z.
Proof.
  intros Nl Nn. cbv zeta.
  destruct (is_pos_zero number && is_neg_zero highest) eqn:Z.
  - apply andb_true_iff in Z as [Zn Zl].
    apply is_pos_zero_eq in Zn. apply is_neg_zero_eq in Zl. subst.
    split; [reflexivity|]. split; [now right|]. split; reflexivity.
  - rewrite (ltb_rank _ _ Nl Nn).
    destruct (Z.ltb_spec (R highest) (R number)).
    + split; [exact Nn|]. split; [now right|]. lia.
    + split; [exact Nl|]. split; [now left|]. lia.
Qed.

Lemma max_scan (l : list float) (highest : float) :
  nan_free l -> is_nan highest = false ->
  let r := fold_left (fun highest number =>
                        if is_pos_zero number && is_neg_zero highest then PrimFloat.zero
                        else if highest <? number then number else highest)
                     l highest in
  is_nan r = false /\ (r = highest \/ In r l) /\
  (R highest <= R r)%Z /\ forall v, In v l -> (R v <= R r)%Z.
Proof.
  intros Hl. revert highest. induction Hl as [|v l Hv _ IH]; intros highest Nl.
  - cbn. split; [exact Nl|]. split; [now left|]. split; [lia|]. intros ? [].
  - cbn [fold_left]. destruct (max_step highest v Nl Hv) as (N & E & L1 & L2).
    cbv zeta in *. destruct (IH _ N) as (Nr & Er & Lr & Hall).
    split; [exact Nr|]. split; [|split].
    + destruct Er as [Er|Er]; [|right; now right].
      rewrite Er. destruct E as [E|E]; [now left|right; left; now rewrite E].
    + lia.
    + intros u [<-|Hu]; [lia|now apply Hall].
Qed.

(** Only [+Infinity] has the rank of [+Infinity], only [-Infinity] the
    rank of [-Infinity]. *)
Lemma rank_top (v : float) :
  is_nan v = false ->
  ((2 ^ 2100 <= R v)%Z -> v = infinity) /\
  ((R v <= - 2 ^ 2100)%Z -> v = neg_infinity).
Proof.
  intros Nv. apply is_nan_false in Nv. pose proof (Prim2SF_valid v) as Hv.
  assert (P : (0 < 2 ^ 2100)%Z) by (apply Z.pow_pos_nonneg; lia).
  split; intros H; apply Prim2SF_inj;
    destruct (Prim2SF v) as [s|s| |s m e]; try congruence; cbn [rank] in H;
    try lia;
    try (pose proof (rank_finite_bounds m e Hv); destruct s; cbn [cond_Zopp] in H; lia);
    destruct s; cbn [cond_Zopp] in H; try lia; reflexivity.
Qed.

Lemma Math_min_spec (V : list float) :
  nan_free V -> V <> [] ->
  is_nan (Math_min V) = false /\ In (Math_min V) V /\
  forall v, In v V -> (R (Math_min V) <= R v)%Z.
Proof.
  intros HV Hne. unfold Math_min. rewrite (nan_free_existsb V HV).
  destruct (min_scan V infinity HV eq_refl) as (N & E & _ & Hall). cbv zeta in *.
  split; [exact N|]. split; [|exact Hall].
  destruct E as [E|E]; [|exact E].
  destruct V as [|v0 V']; [congruence|].
  assert (Hv0 : is_nan v0 = false) by (now inversion HV).
  specialize (Hall v0 ltac:(now left)). rewrite E in Hall. cbn [Prim2SF] in Hall.
  change (R infinity) with (2 ^ 2100)%Z in Hall.
  rewrite E. rewrite <- (proj1 (rank_top v0 Hv0) Hall). now left.
Qed.

Lemma Math_max_spec (V : list float) :
  nan_free V -> V <> [] ->
  is_nan (Math_max V) = false /\ In (Math_max V) V /\
  forall v, In v V -> (R v <= R (Math_max V))%Z.
Proof.
  intros HV Hne. unfold Math_max. rewrite (nan_free_existsb V HV).
  destruct (max_scan V neg_infinity HV eq_refl) as (N & E & _ & Hall).
  cbv zeta in *.
  split; [exact N|]. split; [|exact Hall].
  destruct E as [E|E]; [|exact E].
  destruct V as [|v0 V']; [congruence|].
  assert (Hv0 : is_nan v0 = false) by (now inversion HV).
  specialize (Hall v0 ltac:(now left)). rewrite E in Hall.
  change (R neg_infinity) with (- 2 ^ 2100)%Z in Hall.
  rewrite E. rewrite <- (proj2 (rank_top v0 Hv0) Hall). now left.
Qed.

End Extremes.

(** X16.  For values none of which is NaN, at least one of them: [min] and
    [max] are values of the column and bound every value of it, and with an
    odd number of values so is the median. *)
Theorem extremes_bound_the_values (V : list float) :
  nan_free V -> V <> [] ->
  let s := numeric_stats V in
  In (NumericStats.min s) V /\ In (NumericStats.max s) V /\
  (forall v, In v V ->
     (NumericStats.min s <=? v)%float = true /\
     (v <=? NumericStats.max s)%float = true) /\
  (Nat.odd (length V) = true ->
   In (NumericStats.median s) V /\
   (NumericStats.min s <=? NumericStats.median s)%float = true /\
   (NumericStats.median s <=? NumericStats.max s)%float = true).
Proof.
  intros HV Hne. cbn [numeric_stats NumericStats.min NumericStats.max
                      NumericStats.median].
  destruct (Math_min_spec V HV Hne) as (Nmin & Imin & Hmin).
  destruct (Math_max_spec V HV Hne) as (Nmax & Imax & Hmax).
  assert (Hb : forall v, In v V ->
             (Math_min V <=? v)%float = true /\ (v <=? Math_max V)%float = true).
  { intros v Hv.
    assert (Nv : is_nan v = false)
      by (exact (proj1 (List.Forall_forall _ _) HV v Hv)).
    rewrite (Order.leb_rank _ _ Nmin Nv), (Order.leb_rank _ _ Nv Nmax).
    split; apply Z.leb_le; auto. }
  split; [exact Imin|]. split; [exact Imax|]. split; [exact Hb|].
  intros Ho. rewrite <- Nat.negb_even in Ho. apply negb_true_iff in Ho.
  rewrite <- (Array_sort_length compare_numbers V) in Ho.
  destruct (median_of_odd (sorted_of V) Ho) as (mid & Hmid & ->).
  apply nth_error_In in Hmid.
  apply (Permutation_in _ (Array_sort_perm compare_numbers V)) in Hmid.
  split; [exact Hmid|]. now apply Hb.
Qed.

(** ** The sign of the standard deviation *)

Module Signs.
Import Binary64.
Local Open Scope Z_scope.

Lemma binary_round_nonneg (m : positive) (e : Z) :
  nonneg (binary_round prec emax false m e).
Proof.
  unfold binary_round. destruct (shl_align m e _) as [mz ez].
  apply binary_round_aux_nonneg. lia.
Qed.

Lemma SFmul_square (x : spec_float) : not_negative (SFmul prec emax x x).
Proof.
  destruct x as [s|s| |s m e]; cbn [SFmul]; rewrite ?xorb_nilpotent;
    try (right; exact I); try (now left).
  right. apply binary_round_aux_nonneg. lia.
Qed.

Lemma SFadd_not_negative (x y : spec_float) :
  not_negative x -> not_negative y -> not_negative (SFadd prec emax x y).
Proof.
  intros [->|Hx] [->|Hy]; try (now left); [destruct x; now left|].
  destruct x as [[]|[]| |[] mx ex]; try destruct Hx;
    destruct y as [[]|[]| |[] my ey]; try destruct Hy;
    cbn [SFadd]; try (right; exact I).
  right. cbn [cond_Zopp Z.add binary_normalize]. apply binary_round_nonneg.
Qed.

Lemma SFdiv_not_negative (x y : spec_float) :
  not_negative x -> nonneg y -> not_negative (SFdiv prec emax x y).
Proof.
  intros [->|Hx] Hy; [now left|].
  destruct x as [[]|[]| |[] mx ex]; try destruct Hx;
    destruct y as [[]|[]| |[] my ey]; try destruct Hy;
    cbn [SFdiv xorb]; try (right; exact I); try (now left).
  destruct (SFdiv_bounds mx my ex ey) as (s & d & m1 & _ & _ & _ & _ & _ & _ & H).
  cbn [SFdiv xorb] in H.
  destruct (let '(mz, ez, lz) := SFdiv_core_binary prec emax (Zpos mx) ex (Zpos my) ey
            in binary_round_aux prec emax false mz ez lz) as [sg|sg| |sg mr er];
    [destruct H as [-> _]|subst sg|destruct H|destruct H as [-> _]];
    right; exact I.
Qed.

Lemma SFsqrt_not_negative (x : spec_float) :
  not_negative x -> not_negative (SFsqrt prec emax x).
Proof.
  intros [->|Hx]; [now left|]. right. now apply SFsqrt_nonneg.
Qed.

Local Open Scope float_scope.

Lemma not_negative_spec (x : float) :
  not_negative (Prim2SF x) -> is_nan x = true \/ (0 <=? x) = true.
Proof.
  intros [H|H]; [left; now apply is_nan_spec|right].
  rewrite FloatAxioms.leb_spec. change (Prim2SF 0) with (S754_zero false).
  destruct (Prim2SF x) as [[]|[]| |[] m e]; try destruct H; reflexivity.
Qed.

Lemma sum_of_squares_not_negative (mean : float) (V : list float) (acc : float) :
  not_negative (Prim2SF acc) ->
  not_negative
    (Prim2SF (fold_left (fun a b => a + Math_pow_2 (b - mean)) V acc)).
Proof.
  revert acc. induction V as [|v V IH]; intros acc Hacc; [exact Hacc|].
  cbn [fold_left]. apply IH. rewrite add_spec.
  apply SFadd_not_negative; [exact Hacc|].
  unfold Math_pow_2. rewrite mul_spec. apply SFmul_square.
Qed.

End Signs.

(** X17.  The standard deviation of a column is never negative: it is NaN
    (as for no value at all, or when a sum overflows) or at least 0. *)
Theorem std_is_not_negative (V : list float) :
  let s := numeric_stats V in
  is_nan (NumericStats.std s) = true \/ (0 <=? NumericStats.std s)%float = true.
Proof.
  cbn [numeric_stats NumericStats.std]. apply Signs.not_negative_spec.
  unfold Math_sqrt. rewrite sqrt_spec. apply Signs.SFsqrt_not_negative.
  unfold variance_of. rewrite div_spec. apply Signs.SFdiv_not_negative.
  - apply Signs.sum_of_squares_not_negative. right. exact I.
  - apply float_of_nat_nonneg.
Qed.

(** ** The bins of the histogram *)

Section Histogram.

Import Binary64 Order.
Local Open Scope float_scope.

Lemma integer_value_rank (x : float) (z : Z) :
  integer_value x = Some z -> rank (Prim2SF x) = (z * 2 ^ 1074)%Z.
Proof.
  unfold integer_value. pose proof (Prim2SF_valid x) as Hv.
  destruct (Prim2SF x) as [s|s| |s m e]; try discriminate.
  { intros [= <-]. reflexivity. }
  cbn [valid_binary] in Hv. destruct (bounded_inv _ _ Hv) as (He & _).
  unfold emin64 in He. cbn [rank].
  destruct (Z.leb_spec 0 e) as [Hpos|Hneg].
  - intros [= <-]. rewrite Z.pow_add_r by lia.
    destruct s; cbn [cond_Zopp]; lia.
  - destruct (Z.eqb_spec (Z.land (Zpos m) (Z.ones (- e))) 0) as [E|]; [|discriminate].
    intros [= <-]. rewrite Z.land_ones in E by lia.
    rewrite Z.shiftr_div_pow2 by lia.
    assert (Hm : Zpos m = (2 ^ (- e) * (Zpos m / 2 ^ (- e)))%Z).
    { pose proof (Z.div_mod (Zpos m) (2 ^ (- e))
                    ltac:(apply Z.pow_nonzero; lia)). lia. }
    assert (Hp : (2 ^ 1074 = 2 ^ (- e) * 2 ^ (e + 1074))%Z)
      by (rewrite <- Z.pow_add_r by lia; f_equal; lia).
    rewrite Hp. destruct s; cbn [cond_Zopp]; rewrite Hm at 1; lia.
Qed.

Lemma array_index_integer (x : float) (i : nat) :
  array_index x = Some i ->
  exists z, integer_value x = Some z /\ (0 <= z)%Z /\ i = Z.to_nat z.
Proof.
  unfold array_index. destruct (integer_value x) as [z|]; [|discriminate].
  destruct (Z.leb_spec 0 z); cbn [andb]; [|discriminate].
  destruct (z <? 4294967295)%Z; [|discriminate].
  intros [= <-]. eauto.
Qed.

Lemma rank_float_of_Z (q : Z) :
  (0 <= q < 2 ^ 53)%Z -> rank (Prim2SF (float_of_Z q)) = (q * 2 ^ 1074)%Z.
Proof.
  intros Hq. destruct (Z.eq_dec q 0%Z) as [->|Hne]; [reflexivity|].
  destruct (float_of_Z_spec q ltac:(lia)) as (mq & -> & Hmq & _).
  cbn [rank cond_Zopp]. rewrite Hmq.
  destruct (Zdigits2_pos_bounds q ltac:(lia)) as [Hd _].
  pose proof (Zdigits2_le q 53 ltac:(lia) ltac:(lia)).
  rewrite <- Z.mul_assoc, <- Z.pow_add_r by lia. do 2 f_equal. lia.
Qed.

Lemma array_length_float_of_Z (k : Z) :
  (1 <= k <= 20)%Z -> array_length (float_of_Z k) = Z.to_nat k.
Proof.
  intros Hk.
  assert (H : In k [1; 2; 3; 4; 5; 6; 7; 8; 9; 10; 11; 12; 13; 14; 15; 16; 17;
                    18; 19; 20]%Z).
  { cbn [In]. lia. }
  cbn [In] in H.
  repeat (destruct H as [<-|H]; [vm_compute; reflexivity|]). destruct H.
Qed.

(** The clamp: what [Math.min(a, f)] gives is NaN or at most [a]. *)
Lemma Math_min_pair_le (a f : float) :
  is_nan (Math_min [a; f]) = false ->
  is_nan a = false /\
  (rank (Prim2SF (Math_min [a; f])) <= rank (Prim2SF a))%Z.
Proof.
  destruct (is_nan a || is_nan f) eqn:N.
  { rewrite (Math_min_pair_nan a f N). discriminate. }
  apply orb_false_iff in N as [Na Nf]. intros _. split; [exact Na|].
  rewrite (Math_min_pair a f Na Nf).
  destruct (is_neg_zero f && is_pos_zero a) eqn:Z.
  - apply andb_true_iff in Z as [_ Za]. apply is_pos_zero_eq in Za. now subst.
  - rewrite (ltb_rank _ _ Nf Na).
    destruct (Z.ltb_spec (rank (Prim2SF f)) (rank (Prim2SF a))); lia.
Qed.

Lemma array_length_binCount (V : list float) :
  (array_length (binCount V) <= 20)%nat.
Proof.
  destruct (binCount_cases V) as [[s Hs]|(k & Hk & ->)].
  - unfold array_length, array_index, integer_value. rewrite Hs. cbn. lia.
  - rewrite (array_length_float_of_Z k Hk). lia.
Qed.

Lemma bin_index_range (V : list float) (v : float) (i : nat) :
  array_index (binIndex V v) = Some i -> (i < array_length (binCount V))%nat.
Proof.
  intros Hi. apply array_index_integer in Hi as (z & Hz & Hz0 & ->).
  pose proof (integer_value_rank _ _ Hz) as Hr.
  assert (Nr : is_nan (binIndex V v) = false).
  { apply is_nan_false. intros E. unfold integer_value in Hz.
    rewrite E in Hz. discriminate. }
  unfold binIndex in *.
  destruct (Math_min_pair_le _ _ Nr) as [Na Hle]. rewrite Hr in Hle.
  assert (P : (0 < 2 ^ 1074)%Z) by (apply Z.pow_pos_nonneg; lia).
  destruct (binCount_cases V) as [[s Hs]|(k & Hk & Hn)].
  - exfalso.
    assert (Ha : (rank (Prim2SF (binCount V - 1)) < 0)%Z).
    { rewrite sub_spec, Hs. now destruct s. }
    nia.
  - rewrite Hn in *. rewrite (minus_one k Hk) in Hle.
    rewrite rank_float_of_Z in Hle by lia.
    rewrite (array_length_float_of_Z k Hk). nia.
Qed.

Lemma count_up_length (counts : list nat) (i : float) :
  length (count_up counts i) = length counts.
Proof.
  unfold count_up. destruct (array_index i); [apply length_alter|reflexivity].
Qed.

Lemma counts_fold_length (V : list float) (f : float -> float) (init : list nat) :
  length (fold_left (fun counts val => count_up counts (f val)) V init)
  = length init.
Proof.
  revert init. induction V as [|v V IH]; intros init; [reflexivity|].
  cbn [fold_left]. now rewrite IH, count_up_length.
Qed.

End Histogram.

(** X18.  The histogram of a column has as many bins as [binCount] says, at
    most 20, and no value is counted outside them: the index of a value,
    when it is an index at all, is below the bin count, so the array of
    counts keeps its length. *)
Theorem histogram_keeps_its_bins (V : list float) :
  (forall v i, array_index (binIndex V v) = Some i ->
               (i < array_length (binCount V))%nat) /\
  length (counts V) = array_length (binCount V) /\
  length (bins V) = array_length (binCount V) /\
  (array_length (binCount V) <= 20)%nat.
Proof.
  split; [exact (bin_index_range V)|]. split; [|split].
  - unfold counts. now rewrite counts_fold_length, repeat_length.
  - unfold bins. now rewrite length_map, length_seq.
  - apply array_length_binCount.
Qed.

(** X19.  When every value of a column is the same number, the bin width is 0
    (or NaN), the bin index of the value is NaN and no bin counts it: the
    histogram holds only zeros. *)
Theorem constant_column_histogram (v : float) (n : nat) :
  is_nan v = false ->
  let V := repeat v (S n) in
  Math_min V = v /\ Math_max V = v /\
  binIndex V v = nan /\
  counts V = repeat 0%nat (array_length (binCount V)).
Proof.
  intros Nv V.
  assert (HV : nan_free V) by (apply List.Forall_forall; intros x Hx;
                               apply repeat_spec in Hx; now subst).
  assert (Hne : V <> []) by discriminate.
  destruct (Math_min_spec V HV Hne) as (_ & Imin & _).
  destruct (Math_max_spec V HV Hne) as (_ & Imax & _).
  apply repeat_spec in Imin, Imax.
  assert (Hidx : binIndex V v = nan).
  { unfold binIndex, binWidth. rewrite Imin, Imax.
    apply Math_min_pair_nan. apply orb_true_iff. right.
    apply Binary64.is_nan_spec. unfold Math_floor.
    assert (Hx : Prim2SF (v - v) = S754_zero false \/ Prim2SF (v - v) = S754_nan).
    { rewrite sub_spec. apply Binary64.is_nan_false in Nv.
      destruct (Prim2SF v) as [[]|[]| |s m e]; try congruence; auto.
      left. unfold SF64sub, SFsub. now rewrite Z.sub_diag. }
    assert (Hw : Prim2SF ((v - v) / binCount V) = S754_zero false \/
                 Prim2SF ((v - v) / binCount V) = S754_nan).
    { rewrite div_spec.
      destruct Hx as [-> | ->]; [|now right].
      destruct (binCount_cases V) as [[s ->]|(k & Hk & ->)]; [now right|].
      destruct (float_of_Z_spec k ltac:(lia)) as (mk & -> & _). now left. }
    assert (Ht : Prim2SF ((v - v) / ((v - v) / binCount V)) = S754_nan).
    { rewrite div_spec.
      destruct Hx as [-> | ->], Hw as [-> | ->]; reflexivity. }
    now rewrite Ht. }
  split; [exact Imin|]. split; [exact Imax|]. split; [exact Hidx|].
  assert (Hfold : forall l init,
             Forall (fun x => x = v) l ->
             fold_left (fun counts val => count_up counts (binIndex V val)) l init
             = init).
  { intros l init Hl. revert init.
    induction Hl as [|x l -> _ IH]; intros init; [reflexivity|].
    cbn [fold_left]. rewrite Hidx. exact (IH init). }
  unfold counts. apply Hfold.
  apply List.Forall_forall. intros x Hx. now apply repeat_spec in Hx.
Qed.

(** ** Every value in one bin *)

Section Counting.

Import Binary64 Order.

Local Open Scope Z_scope.

(** The difference of two finite numbers, the first at least the second,
    is not negative. *)
Lemma SFsub_ordered (x y : spec_float) :
  valid_binary x = true -> valid_binary y = true ->
  (forall s, x <> S754_infinity s) -> (forall s, y <> S754_infinity s) ->
  x <> S754_nan -> y <> S754_nan ->
  rank y <= rank x ->
  zero_or_positive (SFsub prec emax x y).
Proof.
  intros Vx Vy Ix Iy Nx Ny Hr.
  destruct x as [sx|sx| |sx mx ex]; try congruence;
    try (exfalso; now apply (Ix sx));
    (destruct y as [sy|sy| |sy my ey]; try congruence;
     try (exfalso; now apply (Iy sy)));
    cbn [valid_binary] in *.
  - cbn. now destruct sx, sy.
  - pose proof (rank_finite_bounds _ _ Vy). cbn [rank] in Hr.
    destruct sy; cbn [cond_Zopp] in Hr; [exact I|lia].
  - pose proof (rank_finite_bounds _ _ Vx). cbn [rank SFsub] in *.
    destruct sx; cbn [cond_Zopp] in Hr; [lia|exact I].
  - unfold SFsub.
    destruct (bounded_inv _ _ Vx) as (Hex & _), (bounded_inv _ _ Vy) as (Hey & _).
    unfold emin64 in *.
    rewrite !shl_align_val by lia.
    set (mn := Z.min ex ey) in *.
    assert (Pm : 0 < 2 ^ (mn + 1074)) by (apply Z.pow_pos_nonneg; lia).
    assert (Ex : Zpos mx * 2 ^ (ex + 1074)
                 = Zpos mx * 2 ^ (ex - mn) * 2 ^ (mn + 1074)).
    { rewrite <- Z.mul_assoc, <- Z.pow_add_r by lia. do 2 f_equal. lia. }
    assert (Ey : Zpos my * 2 ^ (ey + 1074)
                 = Zpos my * 2 ^ (ey - mn) * 2 ^ (mn + 1074)).
    { rewrite <- Z.mul_assoc, <- Z.pow_add_r by lia. do 2 f_equal. lia. }
    cbn [rank] in Hr. rewrite Ex, Ey in Hr.
    set (X := Zpos mx * 2 ^ (ex - mn)) in *.
    set (Y := Zpos my * 2 ^ (ey - mn)) in *.
    assert (Hd : 0 <= cond_Zopp sx X - cond_Zopp sy Y)
      by (destruct sx, sy; cbn [cond_Zopp] in *; nia).
    unfold binary_normalize.
    destruct (cond_Zopp sx X - cond_Zopp sy Y) as [|d|d]; [exact I| |lia].
    pose proof (Signs.binary_round_nonneg d mn) as Hn.
    destruct (binary_round prec emax false d mn) as [[]|[]| |[] m e];
      try destruct Hn; exact I.
Qed.

Lemma SFsub_finite_inv (x y : spec_float) (s : bool) (m : positive) (e : Z) :
  SFsub prec emax x y = S754_finite s m e ->
  (forall s', x <> S754_infinity s') /\ (forall s', y <> S754_infinity s') /\
  x <> S754_nan /\ y <> S754_nan.
Proof.
  destruct x as [sx|sx| |sx mx ex], y as [sy|sy| |sy my ey]; cbn [SFsub];
    try discriminate; try (destruct sx, sy; discriminate);
    intros _; repeat split; try discriminate; intros s'; discriminate.
Qed.

Lemma SFdiv_zero_or_positive (x : spec_float) (mw : positive) (ew : Z) :
  zero_or_positive x ->
  zero_or_positive (SFdiv prec emax x (S754_finite false mw ew)).
Proof.
  destruct x as [s|[]| |[] mx ex]; cbn [zero_or_positive]; try tauto; intros _;
    try exact I.
  pose proof (Signs.SFdiv_not_negative (S754_finite false mx ex)
                (S754_finite false mw ew) (or_intror I) I) as [H|H].
  - destruct (SFdiv_bounds mx mw ex ew) as (? & ? & ? & _ & _ & _ & _ & _ & _ & Hb).
    rewrite H in Hb. destruct Hb.
  - destruct (SFdiv prec emax _ _) as [[]|[]| |[] m e]; try destruct H; exact I.
Qed.

Local Open Scope float_scope.

Lemma integer_value_float_of_Z (q : Z) :
  (0 <= q < 2 ^ 53)%Z -> integer_value (float_of_Z q) = Some q.
Proof.
  intros Hq. destruct (Z.eq_dec q 0%Z) as [->|Hne]; [reflexivity|].
  destruct (float_of_Z_spec q ltac:(lia)) as (mq & E & Hmq & _).
  unfold integer_value. rewrite E.
  destruct (Zdigits2_pos_bounds q ltac:(lia)) as [Hd _].
  pose proof (Zdigits2_le q 53 ltac:(lia) ltac:(lia)) as Hd53.
  cbn [cond_Zopp].
  destruct (Z.leb_spec 0 (Zdigits2 q - 53)) as [H0|H0].
  - replace (Zdigits2 q - 53)%Z with 0%Z by lia.
    replace (53 - Zdigits2 q)%Z with 0%Z in Hmq by lia.
    f_equal. lia.
  - rewrite Z.land_ones, Z.shiftr_div_pow2 by lia.
    replace (- (Zdigits2 q - 53))%Z with (53 - Zdigits2 q)%Z by lia.
    rewrite Hmq.
    assert (P : (0 < 2 ^ (53 - Zdigits2 q))%Z) by (apply Z.pow_pos_nonneg; lia).
    rewrite Z.mod_mul, Z.div_mul by lia. reflexivity.
Qed.

(** What [Math.floor] makes of a number that is not negative: zero, an
    integer below [2^53], or a number from [2^52] on. *)
Lemma Math_floor_index (t : float) :
  zero_or_positive (Prim2SF t) ->
  (exists s, Prim2SF (Math_floor t) = S754_zero s) \/
  (exists q, (0 < q < 2 ^ 53)%Z /\ Math_floor t = float_of_Z q) \/
  (is_nan (Math_floor t) = false /\
   (2 ^ 52 * 2 ^ 1074 <= rank (Prim2SF (Math_floor t)))%Z).
Proof.
  intros Ht. unfold Math_floor. pose proof (Prim2SF_valid t) as Hv.
  destruct (Prim2SF t) as [s|[]| |[] m e] eqn:E; try destruct Ht.
  - left. exists s. exact E.
  - right. right. split; [apply is_nan_false; rewrite E; discriminate|].
    rewrite E. cbn [rank cond_Zopp].
    rewrite <- Z.pow_add_r by lia. apply Z.pow_le_mono_r; lia.
  - cbn [valid_binary cond_Zopp] in *.
    destruct (bounded_inv _ _ Hv) as (He & Hd & Hc). unfold emin64 in *.
    destruct (Z.leb_spec 0 e) as [H0|H0].
    + right. right. split; [apply is_nan_false; rewrite E; discriminate|].
      rewrite E. cbn [rank cond_Zopp].
      destruct Hc as [Hc|Hc]; [lia|].
      pose proof (digits2_pos_bounds m) as [Lo _]. rewrite Hc in Lo.
      change (2 ^ (53 - 1))%Z with (2 ^ 52)%Z in Lo.
      assert (2 ^ 1074 <= 2 ^ (e + 1074))%Z by (apply Z.pow_le_mono_r; lia).
      assert (0 < 2 ^ 1074)%Z by (apply Z.pow_pos_nonneg; lia).
      assert (0 < 2 ^ 52)%Z by reflexivity.
      nia.
    + rewrite Z.shiftr_div_pow2 by lia.
      set (q := (Zpos m / 2 ^ (- e))%Z).
      assert (P : (0 < 2 ^ (- e))%Z) by (apply Z.pow_pos_nonneg; lia).
      assert (Hq : (0 <= q)%Z) by (apply Z.div_pos; lia).
      destruct (Z.eqb_spec q 0) as [E0|N0].
      * left. exists false. reflexivity.
      * right. left. exists q. split; [|reflexivity].
        split; [lia|].
        pose proof (Zdigits2_small (Zpos m) ltac:(lia) Hd).
        assert (q <= Zpos m)%Z; [|lia].
        unfold q. apply Z.div_le_upper_bound; [lia|]. nia.
Qed.

Lemma list_sum_alter (l : list nat) (i : nat) :
  (i < length l)%nat -> list_sum (alter S i l) = S (list_sum l).
Proof.
  revert i. induction l as [|x l IH]; intros i Hi; [cbn in Hi; lia|].
  destruct i as [|i]; [reflexivity|]. cbn [length] in Hi.
  change (list_sum (alter S (S i) (x :: l)))
    with (x + list_sum (alter S i l))%nat.
  change (list_sum (x :: l)) with (x + list_sum l)%nat.
  rewrite IH by lia. lia.
Qed.

Lemma list_sum_repeat_0 (n : nat) : list_sum (repeat 0%nat n) = 0%nat.
Proof. induction n; cbn; auto. Qed.

End Counting.

Section Conservation.

Import Binary64 Order.
Local Open Scope float_scope.

(** What a bin width that is finite and not too small says of the column:
    the bin count is one of 1 to 20 and the range [max - min] is a positive
    finite number. *)
Lemma width_setup (V : list float) :
  (0x1.4p-1070 <=? binWidth V) = true -> (binWidth V <? infinity) = true ->
  exists k mx ex mw ew,
    (1 <= k <= 20)%Z /\ binCount V = float_of_Z k /\
    Prim2SF (Math_max V - Math_min V) = S754_finite false mx ex /\
    Prim2SF (binWidth V) = S754_finite false mw ew.
Proof.
  intros Hlo Hhi.
  destruct (width_inv _ Hlo Hhi) as (mw & ew & Ew & _).
  assert (Ediv : Prim2SF (binWidth V)
                 = SFdiv prec emax (Prim2SF (Math_max V - Math_min V))
                         (Prim2SF (binCount V)))
    by (unfold binWidth; now rewrite div_spec).
  rewrite Ew in Ediv.
  destruct (binCount_cases V) as [[s Hn]|(k & Hk & Hn)].
  { rewrite Hn in Ediv.
    destruct (Prim2SF (Math_max V - Math_min V)) as [sx|sx| |sx mx ex];
      discriminate Ediv. }
  destruct (float_of_Z_spec k ltac:(lia)) as (mk & Ek & _).
  rewrite Hn, Ek in Ediv.
  destruct (Prim2SF (Math_max V - Math_min V)) as [sx|sx| |sx mx ex] eqn:Ex;
    try discriminate Ediv.
  destruct sx.
  { cbn [SFdiv xorb] in Ediv.
    destruct (SFdiv_core_binary _ _ _ _ _ _) as [[mz ez] lz].
    pose proof (binary_round_aux_sign_of true mz ez lz) as Hsg.
    rewrite <- Ediv in Hsg. discriminate Hsg. }
  exists k, mx, ex, mw, ew. auto.
Qed.

Lemma rank_not_infinite (x : spec_float) :
  valid_binary x = true -> (forall s, x <> S754_infinity s) ->
  (- 2 ^ 2100 < rank x < 2 ^ 2100)%Z.
Proof.
  intros Hv Hi.
  assert (P : (0 < 2 ^ 2100)%Z) by (apply Z.pow_pos_nonneg; lia).
  destruct x as [s|s| |s m e]; cbn [rank]; try lia.
  - exfalso. now apply (Hi s).
  - pose proof (rank_finite_bounds m e Hv). destruct s; cbn [cond_Zopp]; lia.
Qed.

(** Under that condition every value of the column has a bin. *)
Lemma value_has_a_bin (V : list float) (v : float) :
  nan_free V ->
  (0x1.4p-1070 <=? binWidth V) = true -> (binWidth V <? infinity) = true ->
  In v V ->
  exists i, array_index (binIndex V v) = Some i.
Proof.
  intros HV Hlo Hhi Hv.
  destruct (width_setup V Hlo Hhi) as (k & mx & ex & mw & ew & Hk & Hn & Ex & Ew).
  assert (Hne : V <> []) by (intros ->; destruct Hv).
  destruct (Math_min_spec V HV Hne) as (Nmin & _ & Hmin).
  destruct (Math_max_spec V HV Hne) as (Nmax & _ & Hmax).
  specialize (Hmin v Hv). specialize (Hmax v Hv).
  assert (Nv : is_nan v = false)
    by (exact (proj1 (List.Forall_forall _ _) HV v Hv)).
  rewrite sub_spec in Ex.
  destruct (SFsub_finite_inv _ _ _ _ _ Ex) as (Imax & Imin & _ & _).
  pose proof (rank_not_infinite _ (Prim2SF_valid (Math_max V)) Imax) as Bmax.
  pose proof (rank_not_infinite _ (Prim2SF_valid (Math_min V)) Imin) as Bmin.
  assert (Iv : forall s, Prim2SF v <> S754_infinity s).
  { intros s E. rewrite E in Hmin, Hmax. cbn [rank] in Hmin, Hmax.
    destruct s; cbn [cond_Zopp] in *; lia. }
  (* the distance to the minimum, in bin widths *)
  assert (Hd : zero_or_positive (Prim2SF (v - Math_min V))).
  { rewrite sub_spec.
    apply SFsub_ordered; auto using Prim2SF_valid; now apply is_nan_false. }
  assert (Ht : zero_or_positive (Prim2SF ((v - Math_min V) / binWidth V))).
  { rewrite div_spec, Ew. now apply SFdiv_zero_or_positive. }
  unfold binIndex. rewrite Hn, (minus_one k Hk).
  set (f := Math_floor ((v - Math_min V) / binWidth V)).
  set (a := float_of_Z (k - 1)).
  assert (Ra : rank (Prim2SF a) = ((k - 1) * 2 ^ 1074)%Z)
    by (apply rank_float_of_Z; lia).
  assert (Ia : integer_value a = Some (k - 1)%Z)
    by (apply integer_value_float_of_Z; lia).
  assert (Na : is_nan a = false).
  { apply is_nan_false. intros E. unfold integer_value in Ia.
    rewrite E in Ia. discriminate. }
  assert (P : (0 < 2 ^ 1074)%Z) by (apply Z.pow_pos_nonneg; lia).
  assert (Hidx : forall z, (0 <= z <= 19)%Z -> forall r,
             integer_value r = Some z -> exists i, array_index r = Some i).
  { intros z Hz r Hr. unfold array_index. rewrite Hr.
    destruct (Z.leb_spec 0 z); [|lia]. destruct (Z.ltb_spec z 4294967295); [|lia].
    eauto. }
  destruct (Math_floor_index _ Ht) as [[s Hs]|[(q & Hq & Hf)|[Nf Hbig]]];
    fold f in Hs || fold f in Hf || fold f in Nf, Hbig.
  - assert (Nf : is_nan f = false) by (apply is_nan_false; rewrite Hs; discriminate).
    rewrite (Math_min_pair a f Na Nf).
    destruct (is_neg_zero f && is_pos_zero a); [now exists 0%nat|].
    destruct (f <? a).
    + apply (Hidx 0%Z ltac:(lia)). unfold integer_value. now rewrite Hs.
    + apply (Hidx (k - 1)%Z ltac:(lia)). exact Ia.
  - assert (If : integer_value f = Some q)
      by (rewrite Hf; apply integer_value_float_of_Z; lia).
    assert (Nf : is_nan f = false).
    { apply is_nan_false. intros E. unfold integer_value in If.
      rewrite E in If. discriminate. }
    rewrite (Math_min_pair a f Na Nf).
    destruct (is_neg_zero f && is_pos_zero a); [now exists 0%nat|].
    rewrite (ltb_rank _ _ Nf Na), Ra, (integer_value_rank _ _ If).
    destruct (Z.ltb_spec (q * 2 ^ 1074) ((k - 1) * 2 ^ 1074)) as [Hlt|Hge].
    + apply (Hidx q); [|exact If].
      apply (proj2 (Z.mul_lt_mono_pos_r (2 ^ 1074) q (k - 1) P)) in Hlt. lia.
    + apply (Hidx (k - 1)%Z ltac:(lia)). exact Ia.
  - rewrite (Math_min_pair a f Na Nf).
    destruct (is_neg_zero f && is_pos_zero a); [now exists 0%nat|].
    rewrite (ltb_rank _ _ Nf Na), Ra.
    destruct (Z.ltb_spec (rank (Prim2SF f)) ((k - 1) * 2 ^ 1074)) as [Hlt|Hge].
    + exfalso.
      assert (Hc : (2 ^ 52 * 2 ^ 1074 < (k - 1) * 2 ^ 1074)%Z) by lia.
      apply (proj2 (Z.mul_lt_mono_pos_r (2 ^ 1074) _ _ P)) in Hc.
      assert (19 < 2 ^ 52)%Z by reflexivity. lia.
    + apply (Hidx (k - 1)%Z ltac:(lia)). exact Ia.
Qed.

Lemma counts_fold_sum (V : list float) (l : list float) (init : list nat) :
  (forall v, In v l ->
     exists i, array_index (binIndex V v) = Some i /\ (i < length init)%nat) ->
  list_sum (fold_left (fun counts val => count_up counts (binIndex V val)) l init)
  = (list_sum init + length l)%nat.
Proof.
  revert init. induction l as [|v l IH]; intros init Hl;
    [cbn [fold_left length]; lia|].
  cbn [fold_left length].
  destruct (Hl v ltac:(now left)) as (i & Hi & Hlt).
  rewrite IH.
  - unfold count_up. rewrite Hi, list_sum_alter by exact Hlt. lia.
  - intros u Hu. destruct (Hl u ltac:(now right)) as (j & Hj & Hjlt).
    exists j. split; [exact Hj|]. now rewrite count_up_length.
Qed.

End Conservation.

(** X20.  When the bin width is finite and at least 20 times the least
    positive number, every value of a column without NaN is counted in
    exactly one bin: the counts of the histogram add up to the number of
    values. *)
Theorem histogram_counts_every_value (V : list float) :
  nan_free V ->
  (0x1.4p-1070 <=? binWidth V)%float = true ->
  (binWidth V <? infinity)%float = true ->
  list_sum (counts V) = length V /\
  forall v, In v V ->
    exists i, array_index (binIndex V v) = Some i /\
              (i < length (counts V))%nat.
Proof.
  intros HV Hlo Hhi.
  assert (Hbin : forall v, In v V ->
             exists i, array_index (binIndex V v) = Some i /\
                       (i < array_length (binCount V))%nat).
  { intros v Hv. destruct (value_has_a_bin V v HV Hlo Hhi Hv) as [i Hi].
    exists i. split; [exact Hi|]. now apply bin_index_range in Hi. }
  split.
  - unfold counts. rewrite counts_fold_sum.
    + now rewrite list_sum_repeat_0.
    + intros v Hv. destruct (Hbin v Hv) as (i & Hi & Hlt).
      exists i. split; [exact Hi|]. now rewrite repeat_length.
  - intros v Hv. destruct (Hbin v Hv) as (i & Hi & Hlt).
    exists i. split; [exact Hi|].
    unfold counts. now rewrite counts_fold_length, repeat_length.
Qed.

(** ** The listing and the validation *)

Section Listing.

Lemma accepted_z_and {A B} (s : shape (A -> B)) (k : shape A) path fields :
  accepted (z_and s k path fields)
  = accepted (s path fields) && accepted (k path fields).
Proof. unfold z_and. now destruct (s path fields), (k path fields). Qed.

Lemma accepted_string path input :
  accepted (z_string path input)
  = match input with Some (JString _) => true | _ => false end.
Proof. now destruct input as [[]|]. Qed.

Lemma accepted_optional_string path input :
  accepted (z_optional z_string path input)
  = match input with Some (JString _) | None => true | _ => false end.
Proof. now destruct input as [[]|]. Qed.

Lemma accepted_enum options path input :
  accepted (z_enum options path input)
  = match input with
    | Some (JString s) => bool_decide (s ∈ options)
    | _ => false
    end.
Proof.
  destruct input as [[| | |s| |]|]; try reflexivity.
  unfold z_enum. destruct (decide (s ∈ options)) as [H|H].
  - now rewrite bool_decide_eq_true_2.
  - now rewrite bool_decide_eq_false_2.
Qed.

Lemma accepted_image path v :
  accepted (image_schema path (Some v)) = is_image v.
Proof.
  pose proof (image_schema_spec path v) as H.
  destruct v as [| | | | |fields]; try reflexivity.
  unfold image_schema, z_object, z_and, z_build, z_key, z_string, is_image.
  now destruct (get_field fields (js "name")) as [[]|];
    destruct (get_field fields (js "data")) as [[]|].
Qed.

Lemma accepted_items path index items :
  accepted (z_items image_schema path index items) = forallb is_image items.
Proof.
  revert index. induction items as [|v items IH]; intros index; [reflexivity|].
  cbn [z_items forallb].
  rewrite <- (IH (S index)), <- (accepted_image (path ++ [PIndex index]) v).
  now destruct (image_schema _ (Some v)), (z_items image_schema path (S index) items).
Qed.

Lemma accepted_images path input :
  accepted (z_default (z_optional (z_array image_schema)) [] path input)
  = match input with
    | Some (JArray items) => forallb is_image items
    | None => true
    | _ => false
    end.
Proof.
  destruct input as [[| | | |items|]|]; try reflexivity.
  unfold z_default, z_optional, z_array.
  rewrite <- (accepted_items path 0 items).
  now destruct (z_items image_schema path 0 items).
Qed.

(** The item schema of [images] is the schema of an image. *)
Lemma validates_image v :
  validates
    (SchemaObject
       [ ("name"%string, SchemaString None "Image filename");
         ("data"%string,
          SchemaString None
            "Base64 encoded image data with mime type (data:image/jpeg;base64,...)") ]
       [ "name"%string; "data"%string ]) v
  = is_image v.
Proof.
  destruct v as [| | | | |fields]; try reflexivity.
  cbn [validates forallb is_image].
  now destruct (get_field fields (js "name")) as [[]|];
    destruct (get_field fields (js "data")) as [[]|].
Qed.

Lemma forallb_ext_all {A} (f g : A -> bool) (l : list A) :
  (forall x, f x = g x) -> forallb f l = forallb g l.
Proof. intros H. induction l as [|x l IH]; cbn; [reflexivity|]. now rewrite H, IH. Qed.

Lemma generate_thinking_listing args :
  validates (Tool.inputSchema generate_thinking_tool) args
  = accepted (GenerateThinkingSchema [] (Some args)).
Proof.
  destruct args as [| | | | |fields]; try reflexivity.
  unfold GenerateThinkingSchema, z_object.
  rewrite !accepted_z_and. unfold z_key.
  rewrite accepted_string, accepted_optional_string.
  cbn [validates forallb z_build accepted andb generate_thinking_tool
       Tool.inputSchema].
  destruct (get_field fields (js "prompt")) as [[]|];
    destruct (get_field fields (js "outputDir")) as [[]|]; reflexivity.
Qed.

Lemma send_email_listing args :
  validates (Tool.inputSchema send_email_tool) args
  = accepted (SendEmailSchema [] (Some args)).
Proof.
  destruct args as [| | | | |fields]; try reflexivity.
  unfold SendEmailSchema, z_object.
  rewrite !accepted_z_and. unfold z_key.
  rewrite !accepted_string, accepted_optional_string.
  fold image_schema. rewrite accepted_images.
  unfold send_email_tool. cbn [Tool.inputSchema].
  cbn [validates forallb z_build accepted andb].
  destruct (get_field fields (js "to")) as [[]|];
    destruct (get_field fields (js "subjectPrompt")) as [[]|];
    destruct (get_field fields (js "text")) as [[]|];
    cbn [andb bool_decide]; try reflexivity;
    destruct (get_field fields (js "html")) as [[]|];
    destruct (get_field fields (js "images")) as [[]|];
    cbn [andb validates]; rewrite ?andb_true_r; try reflexivity;
    apply forallb_ext_all; intros v; exact (validates_image v).
Qed.

Lemma analyze_data_listing args :
  validates (Tool.inputSchema analyze_data_tool) args
  = accepted (AnalyzeDataSchema [] (Some args)).
Proof.
  destruct args as [| | | | |fields]; try reflexivity.
  unfold AnalyzeDataSchema, z_object.
  rewrite !accepted_z_and. unfold z_key.
  rewrite !accepted_string, accepted_optional_string, accepted_enum.
  unfold analyze_data_tool. cbn [Tool.inputSchema].
  cbn [validates forallb z_build accepted andb].
  destruct (get_field fields (js "fileData")) as [[]|];
    destruct (get_field fields (js "fileName")) as [[]|];
    destruct (get_field fields (js "analysisType")) as [[]|];
    cbn [andb bool_decide]; try reflexivity;
    destruct (get_field fields (js "outputDir")) as [[]|];
    cbn [andb map]; rewrite ?andb_true_r; reflexivity.
Qed.

Lemma subject_run_calls (W : World) subjectPrompt :
  snd (subject_run W subjectPrompt) <> [].
Proof.
  unfold subject_run. destruct (generateContent W 0 _); [discriminate|].
  destruct (problematic _); [|discriminate].
  now destruct (generateContent W 1 _).
Qed.

End Listing.

(** X21.  The listing and the validation agree: for each listed tool, a call
    with an arguments value is rejected by validation (a ZodError, the disk
    untouched, no collaborator called) exactly when the value is not valid
    against the input schema the listing gives for the tool. *)
Theorem listed_schemas_are_enforced (P : Platform) (W : World)
    (tool : Tool.t) (args : json) (disk : FileSystem) :
  In tool tools ->
  validates (Tool.inputSchema tool) args = false <->
  exists issues,
    handle_request P W (js (Tool.name tool)) (Some args) disk
    = (inl (ZodError issues), disk, []).
Proof.
  intros [<-|[<-|[<-|[]]]].
  - rewrite generate_thinking_listing.
    change (js (Tool.name generate_thinking_tool)) with (js "generate-thinking").
    rewrite generate_thinking_run.
    destruct (GenerateThinkingSchema [] (Some args)) as [issues|a]; cbn [accepted].
    + split; eauto.
    + split; [discriminate|]. intros [issues H]. exfalso.
      cbv zeta in H.
      destruct (generateContent W 0 _); apply (f_equal snd) in H;
        cbn [snd] in H; apply app_eq_nil in H; destruct H as [_ H];
        discriminate H.
  - rewrite send_email_listing.
    change (js (Tool.name send_email_tool)) with (js "send-email").
    rewrite send_email_run.
    destruct (SendEmailSchema [] (Some args)) as [issues|a]; cbn [accepted].
    + split; eauto.
    + split; [discriminate|]. intros [issues H]. exfalso.
      pose proof (subject_run_calls W (SendEmailArgs.subjectPrompt a)) as Hc.
      destruct (subject_run W _) as [[e|subject] calls]; cbn [snd] in Hc;
        [apply (f_equal snd) in H; now cbn [snd] in H|].
      destruct (credentials_missing W); apply (f_equal snd) in H;
        cbn [snd] in H; [contradiction|].
      apply app_eq_nil in H. destruct H as [_ H]. discriminate H.
  - rewrite analyze_data_listing.
    change (js (Tool.name analyze_data_tool)) with (js "analyze-data").
    rewrite analyze_data_run.
    destruct (AnalyzeDataSchema [] (Some args)) as [issues|a]; cbn [accepted].
    + split; eauto.
    + split; [discriminate|]. intros [issues H]. exfalso.
      assert (Hu : upload_events P a disk <> []).
      { unfold upload_events. intros E. apply app_eq_nil in E.
        destruct E as [_ E]. discriminate E. }
      destruct (uploaded_rows P a) as [e|data];
        [apply (f_equal snd) in H; now cbn [snd] in H|].
      destruct (report_run P W a _ data) as [[outcome disk'] events].
      apply (f_equal snd) in H. cbn [snd] in H.
      apply app_eq_nil in H. now destruct H as [H _].
Qed.

(** ** Start-up and the default directory *)

Lemma present_startup (P : Platform) (disk : FileSystem) :
  present (startup P disk) (outputDir P) = true.
Proof.
  unfold startup. destruct (present disk (outputDir P)) eqn:E; [exact E|].
  unfold present. cbn [dirs files].
  rewrite bool_decide_eq_true_2; [reflexivity|]. set_solver.
Qed.

(** X22.  Start-up makes the output directory, so a [generate-thinking] call
    that names no directory (or an empty one) finds it there on the disk
    the start-up left: the call makes no directory, and what it writes is
    under the output directory. *)
Theorem default_directory_is_ready (P : Platform) (W : World)
    (args : option json) (a : GenerateThinkingArgs.t) (disk disk' : FileSystem)
    (outcome : thrown + ToolResult) (events : list event) :
  handle_request P W (js "generate-thinking") args (startup P disk)
    = (outcome, disk', events) ->
  GenerateThinkingSchema [] args = inr a ->
  truthy (GenerateThinkingArgs.outputDir a) = false ->
  dirs disk' = dirs (startup P disk) /\
  (forall dir, ~ In (DirMade dir) events) /\
  (forall path data,
     In (FileWritten path data) events ->
     path = path_join P (outputDir P)
              (js "gemini_thinking_" ++ dec (Date_now W) ++ js ".txt")).
Proof.
  intros Hrun Ha Hd. rewrite generate_thinking_run, Ha in Hrun.
  assert (Edir : thinkingDir_of P a = outputDir P)
    by (unfold thinkingDir_of; now rewrite Hd).
  assert (Ev : thinking_events P a (startup P disk) = [])
    by (unfold thinking_events; now rewrite Edir, present_startup).
  assert (Ed : dirs (thinking_disk P a (startup P disk)) = dirs (startup P disk))
    by (unfold thinking_disk; cbn [dirs]; now rewrite Edir, present_startup).
  assert (Ep : thinkingPath_of P W a
               = path_join P (outputDir P)
                   (js "gemini_thinking_" ++ dec (Date_now W) ++ js ".txt"))
    by (unfold thinkingPath_of; now rewrite Edir).
  cbv zeta in Hrun. rewrite Ev in Hrun. cbn [app] in Hrun.
  destruct (generateContent W 0 _) as [e|responseText].
  - pose proof (f_equal snd Hrun) as He. cbn [snd] in He. subst events.
    pose proof (f_equal (fun r => dirs (snd (fst r))) Hrun) as Hd'.
    cbn [fst snd] in Hd'. rewrite Ed in Hd'.
    split; [now symmetry|].
    split; [intros dir [H|[]]; discriminate H|].
    intros path data [H|[]]. discriminate H.
  - pose proof (f_equal snd Hrun) as He. cbn [snd] in He. subst events.
    pose proof (f_equal (fun r => dirs (snd (fst r))) Hrun) as Hd'.
    cbn [fst snd dirs] in Hd'. rewrite Ed in Hd'.
    split; [now symmetry|].
    split.
    + intros dir [H|[H|[]]]; discriminate H.
    + intros path data [H|[H|[]]]; [discriminate H|].
      injection H as <- _. exact Ep.
Qed.

(** ** Sample calls of the further properties *)

Lemma mailed_subject_is_tidy_witness :
  exists mail result,
    In (MailSent mail result)
       (snd (handle_request sample_platform wordy_world (js "send-email")
               (email_args "Figures attached.") sample_disk)) /\
    tidy (MailOptions.subject mail).
Proof.
  destruct (handle_request sample_platform wordy_world (js "send-email")
              (email_args "Figures attached.") sample_disk)
    as [[outcome disk'] events] eqn:Hrun.
  assert (Hin : exists mail result, In (MailSent mail result) events).
  { apply (f_equal snd) in Hrun. vm_compute in Hrun. subst events.
    eexists _, _. right. right. left. reflexivity. }
  destruct Hin as (mail & result & Hin). exists mail, result.
  split; [exact Hin|].
  exact (mailed_subject_is_tidy _ _ _ _ _ _ _ _ _ Hrun Hin).
Defined.

Lemma send_email_effects_witness :
  let '(outcome, disk', events) :=
    handle_request sample_platform sample_world (js "send-email")
      (email_args "Figures attached.") sample_disk in
  disk' = sample_disk /\
  Forall (fun ev => is_disk_event ev = false) events /\
  (length (List.filter is_mail_sent events) <= 1)%nat.
Proof.
  destruct (handle_request sample_platform sample_world (js "send-email")
              (email_args "Figures attached.") sample_disk)
    as [[outcome disk'] events] eqn:Hrun.
  destruct (send_email_effects _ _ _ _ _ _ _ Hrun) as (Hd & Hf & Hm & _).
  split; [exact Hd|]. split; [exact Hf|exact Hm].
Defined.

Lemma subject_failure_is_thrown_witness :
  let '(outcome, disk', events) :=
    handle_request sample_platform model_down_world (js "send-email")
      (email_args "Figures attached.") sample_disk in
  outcome = inl model_unavailable /\
  forall mail result, ~ In (MailSent mail result) events.
Proof.
  destruct (handle_request sample_platform model_down_world (js "send-email")
              (email_args "Figures attached.") sample_disk)
    as [[outcome disk'] events] eqn:Hrun.
  assert (Hin : In (Generated
                      (enhancedPrompt (js "the quarterly revenue report"))
                      (inl model_unavailable)) events).
  { apply (f_equal snd) in Hrun. vm_compute in Hrun. subst events.
    left. reflexivity. }
  destruct (subject_failure_is_thrown _ _ _ _ _ _ _ _ _ Hrun Hin) as (Ho & Hm & _).
  split; [exact Ho|exact Hm].
Defined.

Lemma credentials_checked_after_subject_witness :
  let '(outcome, disk', events) :=
    handle_request sample_platform no_password_world (js "send-email")
      (email_args "Figures attached.") sample_disk in
  outcome = inl credentials_error /\
  forall mail result, ~ In (MailSent mail result) events.
Proof.
  destruct (handle_request sample_platform no_password_world (js "send-email")
              (email_args "Figures attached.") sample_disk)
    as [[outcome disk'] events] eqn:Hrun.
  destruct (credentials_checked_after_subject _ _ _
              (SendEmailArgs.mk (js "cfo@example.com")
                 (js "the quarterly revenue report") (js "Figures attached.")
                 None [])
              _ _ _ _ Hrun)
    as (Hm & _ & Ho).
  - vm_compute. reflexivity.
  - reflexivity.
  - split; [|exact Hm]. apply Ho.
    apply (f_equal snd) in Hrun. vm_compute in Hrun. subst events.
    intros prompt e [H|[]]. discriminate H.
Defined.

Lemma mail_envelope_witness :
  exists mail result,
    In (MailSent mail result)
       (snd (handle_request sample_platform sample_world (js "send-email")
               (email_with_html "Figures attached." "<p>Figures attached.</p>")
               sample_disk)) /\
    MailOptions.to mail = js "cfo@example.com" /\
    MailOptions.text mail = js "Figures attached." /\
    MailOptions.from mail = js "bot@example.com" /\
    MailOptions.html mail = js "<p>Figures attached.</p>".
Proof.
  destruct (handle_request sample_platform sample_world (js "send-email")
              (email_with_html "Figures attached." "<p>Figures attached.</p>")
              sample_disk)
    as [[outcome disk'] events] eqn:Hrun.
  assert (Hin : exists mail result, In (MailSent mail result) events).
  { apply (f_equal snd) in Hrun. vm_compute in Hrun. subst events.
    eexists _, _. right. left. reflexivity. }
  destruct Hin as (mail & result & Hin). exists mail, result.
  split; [exact Hin|].
  destruct (mail_envelope _ _ _ _ _ _ _ _ _ Hrun Hin)
    as (Hto & Htext & Hfrom & _ & Hhtml & _).
  split; [injection Hto as Hto; now symmetry|].
  split; [injection Htext as Htext; now symmetry|].
  split; [injection Hfrom as Hfrom; now symmetry|].
  apply Hhtml; [reflexivity|discriminate].
Defined.


Lemma thinking_is_saved_witness :
  let '(outcome, disk', events) :=
    handle_request sample_platform sample_world (js "generate-thinking")
      (thinking_args "Why is the sky blue?") sample_disk in
  exists a,
    GenerateThinkingSchema [] (thinking_args "Why is the sky blue?") = inr a /\
    files disk'
    = <[thinkingPath_of sample_platform sample_world a
        := js "Quarterly Revenue Report for the Board"]> (files sample_disk).
Proof.
  destruct (handle_request sample_platform sample_world (js "generate-thinking")
              (thinking_args "Why is the sky blue?") sample_disk)
    as [[outcome disk'] events] eqn:Hrun.
  assert (Hin : In (Generated (js "Why is the sky blue?")
                      (inr (js "Quarterly Revenue Report for the Board")))
                   events).
  { apply (f_equal snd) in Hrun. vm_compute in Hrun. subst events.
    left. reflexivity. }
  destruct (thinking_is_saved _ _ _ _ _ _ _ _ _ Hrun Hin)
    as (a & Ha & _ & _ & Hf & _).
  exists a. split; [exact Ha|exact Hf].
Defined.

Lemma thinking_failure_writes_nothing_witness :
  let '(outcome, disk', events) :=
    handle_request sample_platform model_down_world (js "generate-thinking")
      (thinking_args "Why is the sky blue?") sample_disk in
  outcome = inl model_unavailable /\
  files disk' = files sample_disk /\
  forall path data, ~ In (FileWritten path data) events.
Proof.
  destruct (handle_request sample_platform model_down_world (js "generate-thinking")
              (thinking_args "Why is the sky blue?") sample_disk)
    as [[outcome disk'] events] eqn:Hrun.
  assert (Hin : In (Generated (js "Why is the sky blue?") (inl model_unavailable))
                   events).
  { apply (f_equal snd) in Hrun. vm_compute in Hrun. subst events.
    left. reflexivity. }
  destruct (thinking_failure_writes_nothing _ _ _ _ _ _ _ _ _ Hrun Hin)
    as (Ho & Hf & Hw & _).
  split; [exact Ho|]. split; [exact Hf|exact Hw].
Defined.

Lemma empty_outputDir_is_default_witness :
  handle_request sample_platform sample_world (js "generate-thinking")
    (Some (JObject [ (js "prompt", JString (js "Why is the sky blue?"));
                     (js "outputDir", JString []) ])) sample_disk
  = handle_request sample_platform sample_world (js "generate-thinking")
      (thinking_args "Why is the sky blue?") sample_disk.
Proof.
  apply (proj1 (empty_outputDir_is_default sample_platform sample_world
                  [ (js "prompt", JString (js "Why is the sky blue?"));
                    (js "outputDir", JString []) ]
                  [ (js "prompt", JString (js "Why is the sky blue?")) ]
                  sample_disk eq_refl eq_refl)).
  reflexivity.
Defined.

Lemma unreadable_workbook_fails_witness :
  fst (fst (handle_request names_platform sample_world (js "analyze-data")
              (analyze_args "UEsDBAoAAAAAAA==" "data.xlsx" "basic") sample_disk))
  = inl unreadable_workbook.
Proof.
  rewrite (proj1 (unreadable_workbook_fails names_platform sample_world
                    (analyze_args "UEsDBAoAAAAAAA==" "data.xlsx" "basic")
                    (AnalyzeDataArgs.mk (js "UEsDBAoAAAAAAA==") (js "data.xlsx")
                       (js "basic") None)
                    sample_disk unreadable_workbook
                    eq_refl eq_refl eq_refl)).
  reflexivity.
Defined.

Lemma analysis_is_saved_witness :
  let '(outcome, disk', events) :=
    handle_request sample_platform sample_world (js "analyze-data")
      (analyze_args "UEsDBAoAAAAAAA==" "data.xlsx" "basic") sample_disk in
  exists a,
    AnalyzeDataSchema [] (analyze_args "UEsDBAoAAAAAAA==" "data.xlsx" "basic")
    = inr a /\
    is_Some (files disk' !! reportPath_of sample_platform sample_world a).
Proof.
  destruct (handle_request sample_platform sample_world (js "analyze-data")
              (analyze_args "UEsDBAoAAAAAAA==" "data.xlsx" "basic") sample_disk)
    as [[outcome disk'] events] eqn:Hrun.
  assert (Hin : In (Generated (js "basic")
                      (inr (js "Quarterly Revenue Report for the Board")))
                   events).
  { apply (f_equal snd) in Hrun. vm_compute in Hrun. subst events.
    right. right. right. right. left. reflexivity. }
  destruct (analysis_is_saved _ _ _ _ _ _ _ _ _ Hrun Hin)
    as (a & row0 & rest & statistics & Ha & _ & _ & _ & _ & Hf & _).
  exists a. split; [exact Ha|]. rewrite Hf. eauto.
Defined.

Lemma no_number_in_first_row_witness :
  let '(outcome, disk', events) :=
    handle_request names_platform sample_world (js "analyze-data")
      (analyze_args "bmFtZSxjaXR5" "names.csv" "basic") sample_disk in
  exists statistics,
    summarize (StringToNumber names_platform) names_table = Some statistics /\
    numericStats statistics = ∅ /\
    rowCount statistics = 2%nat /\
    columnCount statistics = 2%nat.
Proof.
  destruct (handle_request names_platform sample_world (js "analyze-data")
              (analyze_args "bmFtZSxjaXR5" "names.csv" "basic") sample_disk)
    as [[outcome disk'] events] eqn:Hrun.
  destruct (no_number_in_first_row names_platform sample_world _
              (AnalyzeDataArgs.mk (js "bmFtZSxjaXR5") (js "names.csv")
                 (js "basic") None)
              _ _ _ _
              [(js "name", CStr (js "Ada")); (js "city", CStr (js "London"))]
              [[(js "name", CStr (js "Alan")); (js "city", CNum 7)]]
              Hrun)
    as (statistics & tail & Hs & Hn & Hr & Hc & _).
  - vm_compute. reflexivity.
  - vm_compute. reflexivity.
  - intros col x. cbn [row_get].
    repeat (destruct (decide _); [discriminate|]). discriminate.
  - exists statistics. split; [exact Hs|]. split; [exact Hn|].
    split; [exact Hr|exact Hc].
Defined.

Lemma extremes_bound_the_values_witness :
  let s := numeric_stats [3; 1; 2]%float in
  In (NumericStats.min s) [3; 1; 2]%float /\
  In (NumericStats.max s) [3; 1; 2]%float /\
  (NumericStats.min s <=? NumericStats.median s)%float = true /\
  (NumericStats.median s <=? NumericStats.max s)%float = true.
Proof.
  destruct (extremes_bound_the_values [3; 1; 2]%float) as (Hmin & Hmax & _ & Hmed).
  - repeat constructor.
  - discriminate.
  - destruct (Hmed eq_refl) as (_ & H1 & H2). cbv zeta.
    split; [exact Hmin|]. split; [exact Hmax|]. split; [exact H1|exact H2].
Defined.

Lemma constant_column_histogram_witness :
  let V := repeat 5%float 4 in
  Math_min V = 5%float /\ Math_max V = 5%float /\
  binIndex V 5%float = nan /\
  counts V = repeat 0%nat (array_length (binCount V)).
Proof. apply (constant_column_histogram 5%float 3). reflexivity. Defined.

Lemma histogram_counts_every_value_witness :
  list_sum (counts [1; 2; 3; 4]%float) = 4%nat.
Proof.
  apply (proj1 (histogram_counts_every_value [1; 2; 3; 4]%float
                  ltac:(repeat constructor) eq_refl eq_refl)).
Defined.

Lemma listed_schemas_are_enforced_witness :
  validates (Tool.inputSchema analyze_data_tool)
    (JObject (analyze_fields "UEsDBAoAAAAAAA==" "data.xlsx" "wrong")) = false <->
  exists issues,
    handle_request sample_platform sample_world (js "analyze-data")
      (analyze_args "UEsDBAoAAAAAAA==" "data.xlsx" "wrong") sample_disk
    = (inl (ZodError issues), sample_disk, []).
Proof.
  apply (listed_schemas_are_enforced sample_platform sample_world
           analyze_data_tool
           (JObject (analyze_fields "UEsDBAoAAAAAAA==" "data.xlsx" "wrong"))
           sample_disk).
  right. right. left. reflexivity.
Defined.

Lemma default_directory_is_ready_witness :
  let '(outcome, disk', events) :=
    handle_request sample_platform sample_world (js "generate-thinking")
      (thinking_args "Why is the sky blue?")
      (startup sample_platform empty_disk) in
  dirs disk' = dirs (startup sample_platform empty_disk) /\
  forall dir, ~ In (DirMade dir) events.
Proof.
  destruct (handle_request sample_platform sample_world (js "generate-thinking")
              (thinking_args "Why is the sky blue?")
              (startup sample_platform empty_disk))
    as [[outcome disk'] events] eqn:Hrun.
  destruct (default_directory_is_ready _ _ _
              (GenerateThinkingArgs.mk (js "Why is the sky blue?") None)
              _ _ _ _ Hrun eq_refl eq_refl)
    as (Hd & Hm & _).
  split; [exact Hd|exact Hm].
Defined.
